(** * Staking ledger and reward accrual of the SolFI backend

    A shallow embedding of the Express controllers of the backend
    ([poolController.ts], [stakingController.ts]), of the Mongoose models
    they use ([models/pool.ts], [models/transaction.ts]) and of the request
    validators of [utils/validators.ts], followed by the properties of the
    stake / unstake life cycle, of the pool aggregates and of the reward
    calculation.  A second part embeds the reading controllers, the route
    of [createPool] and the notification, analytics and price services
    ([notificationService.ts], [analyticsService.ts],
    [priceOracleService.ts]), with their properties.

    Conventions of the embedding.
    - A JavaScript number is a value of [num]: an exact rational, one of the
      two infinities, or NaN.  Arithmetic on finite values is exact: the
      rounding of IEEE-754 doubles and the sign of zero are not modelled.
    - A [Date] is its epoch value in milliseconds (a [Z]); an invalid date
      is [None] where one can arise.
    - A Mongoose collection is a finite map (pools, keyed by [_id]) or a list
      in insertion order (transactions); [findOne] returns the first
      document that matches.
    - The amount of a request body is a JSON number or a JSON string
      ([bodyval]): [Number(amount)] reads a string as a numeric literal,
      [+] concatenates with a string, and Mongoose casts the value it is
      given for a [Number] path, refusing NaN.
    - [User.findById] casts the id to an [ObjectId] (24 hexadecimal
      digits) and throws when it cannot.
    - A controller is a function from the database state and the request to
      the HTTP response and the new database state.  What the controller
      reads from its environment ([uuidv4()], [new Date()], [Date.now()])
      is an argument.  An exception thrown inside [try] is the [500]
      response of the [catch] block. *)

From Stdlib Require Import ZArith QArith Qround Qabs Lqa Lia List Sorted String Ascii
  DecimalString Bool.
From stdpp Require Import base gmap strings.
Import ListNotations.

Open Scope Z_scope.
Open Scope Q_scope.
Open Scope string_scope.

(** ** JavaScript numbers *)

Inductive num : Type :=
  | NaN
  | PInf
  | NInf
  | Fin (q : Q).

(** Same-value comparison of two numbers, up to the representation of the
    rational. *)
Definition num_eq (x y : num) : Prop :=
  match x, y with
  | NaN, NaN => True
  | PInf, PInf => True
  | NInf, NInf => True
  | Fin a, Fin b => a == b
  | _, _ => False
  end.

Declare Scope num_scope.
Delimit Scope num_scope with num.
Infix "=n=" := num_eq (at level 70, no associativity) : num_scope.

Definition is_finite (x : num) : bool :=
  match x with Fin _ => true | _ => false end.

(** [isNaN(x)] *)
Definition isNaN (x : num) : bool :=
  match x with NaN => true | _ => false end.

(** Truthiness of a number: [0] and [NaN] are falsy. *)
Definition truthy (x : num) : bool :=
  match x with
  | NaN => false
  | Fin q => negb (Qeq_bool q 0)
  | _ => true
  end.

Definition Qlt_bool (a b : Q) : bool := negb (Qle_bool b a).

Definition num_sign (x : num) : comparison :=
  match x with
  | NaN => Eq
  | PInf => Gt
  | NInf => Lt
  | Fin q => (q ?= 0)%Q
  end.

Definition inf_of_sign (c : comparison) : num :=
  match c with Gt => PInf | Lt => NInf | Eq => NaN end.

Definition mul_sign (c d : comparison) : comparison :=
  match c, d with
  | Eq, _ | _, Eq => Eq
  | Gt, Gt | Lt, Lt => Gt
  | _, _ => Lt
  end.

(** [x + y] *)
Definition nadd (x y : num) : num :=
  match x, y with
  | NaN, _ | _, NaN => NaN
  | PInf, NInf | NInf, PInf => NaN
  | PInf, _ | _, PInf => PInf
  | NInf, _ | _, NInf => NInf
  | Fin a, Fin b => Fin (a + b)
  end.

Definition nopp (x : num) : num :=
  match x with
  | NaN => NaN
  | PInf => NInf
  | NInf => PInf
  | Fin a => Fin (- a)
  end.

(** [x - y] *)
Definition nsub (x y : num) : num := nadd x (nopp y).

(** [x * y] *)
Definition nmul (x y : num) : num :=
  match x, y with
  | NaN, _ | _, NaN => NaN
  | Fin a, Fin b => Fin (a * b)
  | _, _ => inf_of_sign (mul_sign (num_sign x) (num_sign y))
  end.

(** [x / y]; a zero divisor is taken as [+0]. *)
Definition ndiv (x y : num) : num :=
  match x, y with
  | NaN, _ | _, NaN => NaN
  | Fin a, Fin b =>
      if Qeq_bool b 0 then inf_of_sign (a ?= 0)%Q else Fin (a / b)
  | Fin _, _ => Fin 0
  | _, Fin b =>
      if Qeq_bool b 0 then x
      else inf_of_sign (mul_sign (num_sign x) (b ?= 0)%Q)
  | _, _ => NaN
  end.

(** [x < y] *)
Definition nlt (x y : num) : bool :=
  match x, y with
  | NaN, _ | _, NaN => false
  | _, NInf => false
  | NInf, _ => true
  | PInf, _ => false
  | Fin _, PInf => true
  | Fin a, Fin b => Qlt_bool a b
  end.

(** [x <= y] *)
Definition nle (x y : num) : bool :=
  match x, y with
  | NaN, _ | _, NaN => false
  | NInf, _ => true
  | _, NInf => false
  | _, PInf => true
  | PInf, _ => false
  | Fin a, Fin b => Qle_bool a b
  end.

(** [Math.max(x, y)] *)
Definition nmax (x y : num) : num :=
  match x, y with
  | NaN, _ | _, NaN => NaN
  | _, _ => if nlt x y then y else x
  end.

(** [x || d] on numbers. *)
Definition num_or (x d : num) : num := if truthy x then x else d.

(** [o || d] where [o] may be [undefined]. *)
Definition opt_or (o : option num) (d : num) : num :=
  match o with
  | Some x => num_or x d
  | None => d
  end.

Definition of_Z (z : Z) : num := Fin (inject_Z z).

(** Truncation toward zero. *)
Definition Qtrunc (q : Q) : Z :=
  if Qle_bool 0 q then Qfloor q else Qceiling q.

(** [new Date(t)]: the time value is clipped ([TimeClip]); [None] is the
    invalid date. *)
Definition new_Date (t : num) : option Z :=
  match t with
  | Fin q =>
      if Qle_bool (Qabs q) (inject_Z 8640000000000000)
      then Some (Qtrunc q) else None
  | _ => None
  end.

(** [10^d] *)
Definition pow10 (d : nat) : Q := inject_Z (10 ^ Z.of_nat d).

(** The integer [n] for which [n / 10^d] is closest to [q >= 0], the larger
    one on a tie. *)
Definition round_half_up (d : nat) (q : Q) : Z :=
  Qfloor (q * pow10 d + (1 # 2)).

(** [parseFloat(x.toFixed(d))] on a finite value: a value of magnitude
    [1e21] or more is printed by [toString] and is read back unchanged; a
    negative value is rounded by magnitude. *)
Definition round_to (d : nat) (q : Q) : Q :=
  inject_Z (round_half_up d q) / pow10 d.

Definition toFixedQ (d : nat) (q : Q) : Q :=
  if Qle_bool (pow10 21) (Qabs q) then q
  else if Qle_bool 0 q then round_to d q
  else - round_to d (- q).

(** [parseFloat(x.toFixed(d))]: ["NaN"] and ["Infinity"] read back as
    themselves. *)
Definition parseFloat_toFixed (d : nat) (x : num) : num :=
  match x with
  | Fin q => Fin (toFixedQ d q)
  | _ => x
  end.

(** ** Numbers and strings *)

(** A JavaScript string is the sequence of the bytes of its UTF-8
    encoding. *)

(** The value of a digit of a base up to 16, in either case. *)
Definition digit_value (c : ascii) : option Z :=
  let n := nat_of_ascii c in
  if (48 <=? n)%nat && (n <=? 57)%nat then Some (Z.of_nat n - 48)%Z
  else if (65 <=? n)%nat && (n <=? 70)%nat then Some (Z.of_nat n - 55)%Z
  else if (97 <=? n)%nat && (n <=? 102)%nat then Some (Z.of_nat n - 87)%Z
  else None.

(** The longest prefix of digits of the base: its value, its length and
    the rest of the string. *)
Fixpoint read_digits (base : Z) (s : string) (acc : Z) (n : nat)
  : Z * nat * string :=
  match s with
  | String c s' =>
      match digit_value c with
      | Some d =>
          if (d <? base)%Z then read_digits base s' (base * acc + d)%Z (S n)
          else (acc, n, s)
      | None => (acc, n, s)
      end
  | EmptyString => (acc, n, s)
  end.

(** The encodings of the code points of [WhiteSpace] and [LineTerminator]:
    U+0009 to U+000D, U+0020, U+00A0, U+1680, U+2000 to U+200A, U+2028,
    U+2029, U+202F, U+205F, U+3000 and U+FEFF. *)
Definition white_space : list (list nat) :=
  ([[9]; [10]; [11]; [12]; [13]; [32]; [194; 160]; [225; 154; 128];
   [226; 128; 128]; [226; 128; 129]; [226; 128; 130]; [226; 128; 131];
   [226; 128; 132]; [226; 128; 133]; [226; 128; 134]; [226; 128; 135];
   [226; 128; 136]; [226; 128; 137]; [226; 128; 138]; [226; 128; 168];
   [226; 128; 169]; [226; 128; 175]; [226; 129; 159]; [227; 128; 128];
   [239; 187; 191]])%nat.

Fixpoint strip_prefix (p : list nat) (l : list nat) : option (list nat) :=
  match p, l with
  | [], _ => Some l
  | a :: p', b :: l' => if Nat.eqb a b then strip_prefix p' l' else None
  | _ :: _, [] => None
  end.

(** The list without the white space character it starts with, if any. *)
Definition strip_one (ws : list (list nat)) (l : list nat)
  : option (list nat) :=
  fold_right (fun p found =>
                match strip_prefix p l with
                | Some r => Some r
                | None => found
                end) None ws.

Fixpoint strip_leading (fuel : nat) (ws : list (list nat)) (l : list nat)
  : list nat :=
  match fuel with
  | O => l
  | S fuel' =>
      match strip_one ws l with
      | Some r => strip_leading fuel' ws r
      | None => l
      end
  end.

(** The string without its leading and trailing white space
    ([StrWhiteSpace]). *)
Definition trim (s : string) : string :=
  let bytes := map nat_of_ascii (list_ascii_of_string s) in
  let l := strip_leading (length bytes) white_space bytes in
  let r := strip_leading (length l) (map (@rev nat) white_space) (rev l) in
  string_of_list_ascii (map ascii_of_nat (rev r)).

(** The rounding of a parsed value at the ends of the range of doubles:
    from [2^1024 - 2^970] on the value is an infinity, and up to [2^-1075]
    it is zero. *)
Definition clip_double (q : Q) : num :=
  if Qle_bool (inject_Z (2 ^ 1024 - 2 ^ 970)) (Qabs q)
  then (if Qle_bool 0 q then PInf else NInf)
  else if Qle_bool (Qabs q) (1 # (2 ^ 1075)) then Fin 0
  else Fin q.

(** [10^e] for an integer [e]. *)
Definition pow10Z (e : Z) : Q :=
  if (0 <=? e)%Z then inject_Z (10 ^ e) else 1 / inject_Z (10 ^ (- e)).

(** [StrUnsignedDecimalLiteral]: digits with an optional fraction and an
    optional exponent, [Infinity], or nothing that is a number. *)
Definition unsigned_decimal (s : string) : num :=
  if String.eqb s "Infinity" then PInf
  else
    let '(int_part, int_len, rest) := read_digits 10 s 0 0 in
    let '(mantissa, frac_len, had_digits, rest) :=
      match rest with
      | String "." rest' =>
          let '(m, total_len, rest'') := read_digits 10 rest' int_part 0 in
          (m, total_len, negb (Nat.eqb int_len 0 && Nat.eqb total_len 0),
           rest'')
      | _ => (int_part, O, negb (Nat.eqb int_len 0), rest)
      end in
    if negb had_digits then NaN
    else
      let exponent :=
        match rest with
        | EmptyString => Some 0%Z
        | String c rest' =>
            if (Ascii.eqb c "e" || Ascii.eqb c "E")%bool
            then
              let '(negative, digits) :=
                match rest' with
                | String "+" d => (false, d)
                | String "-" d => (true, d)
                | _ => (false, rest')
                end in
              let '(e, e_len, rest'') := read_digits 10 digits 0 0 in
              if negb (Nat.eqb e_len 0) && String.eqb rest'' ""
              then Some (if negative then (- e)%Z else e)
              else None
            else None
        end in
      match exponent with
      | Some e =>
          clip_double (inject_Z mantissa
                       * pow10Z (e - Z.of_nat frac_len))
      | None => NaN
      end.

(** [NonDecimalIntegerLiteral]: [0x], [0o] or [0b] and digits of the
    base. *)
Definition non_decimal (s : string) : option num :=
  match s with
  | String "0" (String c digits) =>
      let base :=
        if (Ascii.eqb c "x" || Ascii.eqb c "X")%bool then Some 16%Z
        else if (Ascii.eqb c "o" || Ascii.eqb c "O")%bool then Some 8%Z
        else if (Ascii.eqb c "b" || Ascii.eqb c "B")%bool then Some 2%Z
        else None in
      match base with
      | Some b =>
          let '(v, len, rest) := read_digits b digits 0 0 in
          if negb (Nat.eqb len 0) && String.eqb rest ""
          then Some (clip_double (inject_Z v))
          else Some NaN
      | None => None
      end
  | _ => None
  end.

(** [Number(s)] for a string ([StringToNumber]): the empty string and
    white space read as zero, what is no numeric literal as [NaN].  The
    value of a literal is exact, as the numbers of this development are,
    but for the ends of the range of doubles. *)
Definition Number_of_string (s : string) : num :=
  let t := trim s in
  if String.eqb t "" then Fin 0
  else
    match non_decimal t with
    | Some x => x
    | None =>
        match t with
        | String "+" u => unsigned_decimal u
        | String "-" u => nopp (unsigned_decimal u)
        | _ => unsigned_decimal t
        end
    end.

(** The decimal digits of a natural number. *)
Definition digits_of (z : Z) : string :=
  NilZero.string_of_uint (N.to_uint (Z.to_N z)).

Fixpoint zeros (n : nat) : string :=
  match n with
  | O => ""
  | S n' => String "0" (zeros n')
  end.

(** The string without the zeros at its end. *)
Definition strip_zeros (s : string) : string :=
  let fix go (l : list ascii) :=
    match l with
    | c :: l' => if Ascii.eqb c "0" then go l' else l
    | [] => []
    end in
  string_of_list_ascii (rev (go (rev (list_ascii_of_string s)))).

(** The least [k >= 1], up to [fuel], with [a * 10^k >= 1]. *)
Fixpoint leading_zeros (fuel : nat) (a : Q) (k : nat) : nat :=
  match fuel with
  | O => k
  | S fuel' =>
      if Qle_bool 1 (a * pow10 k) then k else leading_zeros fuel' a (S k)
  end.

(** For [a > 0], the [n] with [10^(n-1) <= a < 10^n]. *)
Definition decimal_exponent (a : Q) : Z :=
  if Qle_bool 1 a
  then Z.of_nat (String.length (digits_of (Qfloor a)))
  else
    (1 - Z.of_nat (leading_zeros (String.length
                                    (digits_of (Zpos (Qden a))) + 1)
                                 a 1))%Z.

(** The significant digits of [a > 0], at most 17 of them, without zeros
    at the end, and the [n] with [a = 0.d1d2... * 10^n]: a value with
    more digits is rounded to 17. *)
Definition significant_digits (a : Q) : string * Z :=
  let n := decimal_exponent a in
  let m := Qfloor (a * pow10Z (17 - n) + (1 # 2)) in
  if (10 ^ 17 <=? m)%Z then ("1", (n + 1)%Z)
  else (strip_zeros (digits_of m), n).

(** [Number::toString] in base 10.  A double is printed with the fewest
    digits that read back as the same double, at most 17; here a value is
    printed with its decimal digits, rounded to 17. *)
Definition Number_toString (x : num) : string :=
  match x with
  | NaN => "NaN"
  | PInf => "Infinity"
  | NInf => "-Infinity"
  | Fin q =>
      if Qeq_bool q 0 then "0"
      else
        let '(digits, n) := significant_digits (Qabs q) in
        let k := Z.of_nat (String.length digits) in
        let sign := if Qle_bool 0 q then "" else "-" in
        let body :=
          if ((k <=? n) && (n <=? 21))%Z
          then digits ++ zeros (Z.to_nat (n - k))
          else if ((0 <? n) && (n <=? 21))%Z
          then substring 0 (Z.to_nat n) digits ++ "."
               ++ substring (Z.to_nat n) (Z.to_nat (k - n)) digits
          else if ((-6 <? n) && (n <=? 0))%Z
          then "0." ++ zeros (Z.to_nat (- n)) ++ digits
          else
            let e := (n - 1)%Z in
            let exponent :=
              (if (0 <=? e)%Z then "e+" else "e-") ++ digits_of (Z.abs e) in
            if (k =? 1)%Z then digits ++ exponent
            else substring 0 1 digits ++ "."
                 ++ substring 1 (Z.to_nat (k - 1)) digits ++ exponent
        in sign ++ body
  end.

(** ** The amount of a request *)

(** The [amount] field of a request body, as [JSON.parse] gives it: a
    number or a string.  (The other values of JSON are not modelled.)  A
    number is read as such an amount where one is expected. *)
Inductive bodyval : Type :=
  | BNum (x : num)
  | BStr (s : string).

Coercion BNum : num >-> bodyval.

(** [Number(v)], the conversion that [isNaN], [<], [<=] and [-] apply to
    a string operand. *)
Definition to_Number (v : bodyval) : num :=
  match v with
  | BNum x => x
  | BStr s => Number_of_string s
  end.

(** Truthiness: the empty string is falsy. *)
Definition body_truthy (v : bodyval) : bool :=
  match v with
  | BNum x => truthy x
  | BStr s => negb (String.eqb s "")
  end.

(** [x + v] for a number [x]: the sum of two numbers, and with a string
    the concatenation of the digits of [x] and the string. *)
Definition js_add (x : num) (v : bodyval) : bodyval :=
  match v with
  | BNum y => BNum (nadd x y)
  | BStr s => BStr (Number_toString x ++ s)
  end.

(** The cast of a value that is assigned to a [Number] path of a
    document: a string is read by [Number], and [NaN] is refused; [None]
    is the cast error.  (Mongoose casts the empty string to [null]; no
    string that is cast here is empty.) *)
Definition cast_Number (v : bodyval) : option num :=
  if isNaN (to_Number v) then None else Some (to_Number v).

(** ** Documents and collections *)

(** A value read from a document path. *)
Inductive jsval : Type :=
  | JUndefined
  | JNum (n : num)
  | JStr (s : string)
  | JDate (ms : Z).

(** [models/pool.ts]: the paths of [PoolSchema]; [createdAt] is kept by the
    [timestamps] option.  [totalStaked] is optional in [IPool]. *)
Record Pool : Type := mkPool {
  name : string;
  pool_type : string;
  apy : num;
  minStake : num;
  lockPeriod : num;
  liquidity : num;
  totalStaked : option num;
  createdAt : Z
}.

(** [pool[path]]: the schema is strict, so a path that [PoolSchema] does
    not declare is never stored and reads as [undefined]. *)
Definition pool_get (p : Pool) (path : string) : jsval :=
  if String.eqb path "name" then JStr (name p)
  else if String.eqb path "type" then JStr (pool_type p)
  else if String.eqb path "apy" then JNum (apy p)
  else if String.eqb path "minStake" then JNum (minStake p)
  else if String.eqb path "lockPeriod" then JNum (lockPeriod p)
  else if String.eqb path "liquidity" then JNum (liquidity p)
  else if String.eqb path "totalStaked" then
    match totalStaked p with Some n => JNum n | None => JUndefined end
  else if String.eqb path "createdAt" then JDate (createdAt p)
  else JUndefined.

Definition set_liquidity (p : Pool) (v : num) : Pool :=
  mkPool (name p) (pool_type p) (apy p) (minStake p) (lockPeriod p)
         v (totalStaked p) (createdAt p).

Definition set_totalStaked (p : Pool) (v : num) : Pool :=
  mkPool (name p) (pool_type p) (apy p) (minStake p) (lockPeriod p)
         (liquidity p) (Some v) (createdAt p).

(** The values of the [type] path of a transaction that the controllers
    write. *)
Inductive tx_type : Type := stake | unstake | deposit | withdraw.

Definition tx_type_eqb (a b : tx_type) : bool :=
  match a, b with
  | stake, stake | unstake, unstake
  | deposit, deposit | withdraw, withdraw => true
  | _, _ => false
  end.

(** [models/transaction.ts].  A pool is referred to by its [_id]. *)
Record Transaction : Type := mkTransaction {
  transactionId : string;
  originalTransactionId : option string;
  type : tx_type;
  amount : num;
  timestamp : Z;
  userId : string;
  poolId : nat;
  unlockTime : option Z
}.

(** The database: the pool collection with the next [_id] to hand out, the
    transaction collection in insertion order, and the [_id]s of the user
    collection. *)
Record State : Type := mkState {
  pools : gmap nat Pool;
  next_oid : nat;
  transactions : list Transaction;
  users : gset string
}.

Definition empty_db : State := mkState ∅ 0 [] ∅.

(** ** Responses *)

Inductive body : Type :=
  | Message (message : string)
  | MinimumStake (minimum : num)
      (* message: `Minimum stake amount is ${pool.minStake}` *)
  | StillLocked (message : string) (unlock : Z)
  | WithTransaction (message : string) (transaction : Transaction)
                    (pool : Pool)
  | WithPool (message : string) (pool : Pool)
  | Rewards (message : string) (stakeAmount stakingDurationDays : num)
            (pool_apy rewards : num) (isUnstaked : bool)
  | Errors (errors : list string).

(** [res.status(status).json(json)] *)
Record response : Type := mkResponse { status : Z; json : body }.

(** ** Controllers as state transformers *)

(** How a controller leaves its [try] block early: [return res...] or an
    exception. *)
Inductive exit : Type :=
  | Return (r : response)
  | Throw.

Definition Handler (A : Type) : Type := State -> (A + exit) * State.

Definition ret {A} (a : A) : Handler A := fun s => (inl a, s).

Definition bind {A B} (m : Handler A) (k : A -> Handler B) : Handler B :=
  fun s =>
    match m s with
    | (inl a, s') => k a s'
    | (inr e, s') => (inr e, s')
    end.

Notation "'let!' x ':=' m 'in' k" := (bind m (fun x => k))
  (at level 10, x name, m at level 200, k at level 200, only parsing).

Definition reply {A} (st : Z) (b : body) : Handler A :=
  fun s => (inr (Return (mkResponse st b)), s).

Definition throw {A} : Handler A := fun s => (inr Throw, s).

(** [if (c) return res.status(st).json(b);] *)
Definition reject_if (c : bool) (st : Z) (b : body) : Handler unit :=
  if c then reply st b else ret tt.

(** [try { ... } catch { res.status(500).json({ message }) }] *)
Definition try_catch (message : string) (m : Handler response)
  : State -> response * State :=
  fun s =>
    match m s with
    | (inl r, s') => (r, s')
    | (inr (Return r), s') => (r, s')
    | (inr Throw, s') => (mkResponse 500 (Message message), s')
    end.

(** [Pool.findById(id)] *)
Definition Pool_findById (id : nat) : Handler (option Pool) :=
  fun s => (inl (pools s !! id), s).

(** [pool.save()] of a document that was read by [findById], after the
    assignments to its paths; it yields the saved document.  Mongoose
    keeps the error of an assignment that fails the cast of its path, and
    [save] then rejects: [None] is the document with such an error. *)
Definition Pool_save (id : nat) (p : option Pool) : Handler Pool :=
  fun s =>
    match p with
    | Some p =>
        (inl p,
         mkState (<[id := p]> (pools s)) (next_oid s)
                 (transactions s) (users s))
    | None => (inr Throw, s)
    end.

(** [new Pool(p)] followed by [save()]: the document gets a fresh [_id]. *)
Definition Pool_create (p : Pool) : Handler nat :=
  fun s => (inl (next_oid s),
            mkState (<[next_oid s := p]> (pools s)) (S (next_oid s))
                    (transactions s) (users s)).

(** [Pool.findByIdAndDelete(id)] *)
Definition Pool_findByIdAndDelete (id : nat) : Handler (option Pool) :=
  fun s => (inl (pools s !! id),
            mkState (delete id (pools s)) (next_oid s)
                    (transactions s) (users s)).

(** [Transaction.findOne(filter)] *)
Definition Transaction_findOne (filter : Transaction -> bool)
  : Handler (option Transaction) :=
  fun s => (inl (List.find filter (transactions s)), s).

Definition has_transactionId (id : string) (t : Transaction) : bool :=
  String.eqb (transactionId t) id.

(** [transaction.save()] of a new document: [transactionId] is [unique], so
    a second document with the same id is refused and [save] throws. *)
Definition Transaction_save (t : Transaction) : Handler unit :=
  fun s =>
    if existsb (has_transactionId (transactionId t)) (transactions s)
    then (inr Throw, s)
    else (inl tt,
          mkState (pools s) (next_oid s) (transactions s ++ [t]) (users s)).

(** The strings that the cast to [ObjectId] takes: 24 hexadecimal
    digits.  (Drivers before version 5 of [bson] also take the strings of
    12 bytes.) *)
Definition is_ObjectId (id : string) : bool :=
  Nat.eqb (String.length id) 24
  && forallb (fun c => bool_decide (is_Some (digit_value c)))
             (list_ascii_of_string id).

(** [User.findById(id)]: whether a document was found.  Mongoose casts the
    id to [ObjectId] first, and the query throws for a string that the
    cast refuses; [users] holds the ids under which the lookup finds a
    document.  (A pool is referred to by its [_id] throughout, so the cast
    of [Pool.findById] is not in question.) *)
Definition User_findById (id : string) : Handler bool :=
  fun s =>
    if is_ObjectId id then (inl (bool_decide (id ∈ users s)), s)
    else (inr Throw, s).

(** ** [poolController.ts] *)

(** The fields of [req.body] that [createPool] reads; [None] is a field
    that the request does not carry. *)
Record PoolConfig : Type := mkPoolConfig {
  cfg_name : option string;
  cfg_type : option string;
  cfg_apy : option num;
  cfg_minStake : option num;
  cfg_lockPeriod : option num
}.

Definition str_truthy (o : option string) : bool :=
  match o with
  | Some s => negb (String.eqb s "")
  | None => false
  end.

Definition opt_truthy (o : option num) : bool :=
  match o with
  | Some x => truthy x
  | None => false
  end.

Definition createPool (cfg : PoolConfig) (now : Z)
  : State -> response * State :=
  try_catch "Server error creating pool" (
    let! _ := reject_if (negb (str_truthy (cfg_name cfg))
               || negb (str_truthy (cfg_type cfg))
               || negb (opt_truthy (cfg_apy cfg)))
      400 (Message "Name, type and APY are required") in
    (* past the guard the three fields are present *)
    let pool :=
      {| name := default "" (cfg_name cfg);
         pool_type := default "" (cfg_type cfg);
         apy := default NaN (cfg_apy cfg);
         minStake := opt_or (cfg_minStake cfg) (Fin (1 # 10));
         lockPeriod := opt_or (cfg_lockPeriod cfg) (Fin 0);
         liquidity := Fin 0;      (* schema default *)
         totalStaked := Some (Fin 0);
         createdAt := now |} in
    let! _id := Pool_create pool in
    ret (mkResponse 201 (WithPool "Pool created successfully" pool))).

Definition depositToPool (pid : nat) (amt : bodyval) (uid uuid : string)
    (now : Z) : State -> response * State :=
  try_catch "Server error during deposit" (
    let! _ := reject_if (isNaN (to_Number amt) || nle (to_Number amt) (Fin 0))
      400 (Message "Invalid deposit amount") in
    let! found := Pool_findById pid in
    match found with
    | None => reply 404 (Message "Pool not found")
    | Some pool =>
        (* the [amount] path casts the amount, which is no [NaN] here *)
        let transaction :=
          mkTransaction uuid None deposit (to_Number amt) now uid pid None in
        let! _ := Transaction_save transaction in
        (* [pool.liquidity += amount] *)
        let! pool' :=
          Pool_save pid
            (set_liquidity pool
               <$> cast_Number (js_add (liquidity pool) amt)) in
        ret (mkResponse 200
               (WithTransaction "Deposit successful" transaction pool'))
    end).

Definition withdrawFromPool (pid : nat) (amt : bodyval) (uid uuid : string)
    (now : Z) : State -> response * State :=
  try_catch "Server error during withdrawal" (
    let! _ := reject_if (isNaN (to_Number amt) || nle (to_Number amt) (Fin 0))
      400 (Message "Invalid withdrawal amount") in
    let! found := Pool_findById pid in
    match found with
    | None => reply 404 (Message "Pool not found")
    | Some pool =>
        let! _ := reject_if (nlt (liquidity pool) (to_Number amt))
          400 (Message "Insufficient liquidity in pool") in
        let transaction :=
          mkTransaction uuid None withdraw (to_Number amt) now uid pid
                        None in
        let! _ := Transaction_save transaction in
        (* [pool.liquidity -= amount]: a difference of numbers *)
        let! pool' :=
          Pool_save pid
            (set_liquidity pool
               <$> cast_Number (nsub (liquidity pool) (to_Number amt))) in
        ret (mkResponse 200
               (WithTransaction "Withdrawal successful" transaction pool'))
    end).

(** The fields of [req.body] that [updatePool] reads. *)
Record PoolUpdate : Type := mkPoolUpdate {
  upd_name : option string;
  upd_apy : option num;
  upd_minStake : option num;
  upd_lockPeriod : option num
}.

Definition updatePool (pid : nat) (upd : PoolUpdate)
  : State -> response * State :=
  try_catch "Server error updating pool" (
    let! found := Pool_findById pid in
    match found with
    | None => reply 404 (Message "Pool not found")
    | Some pool =>
        let pool' :=
          {| name := if str_truthy (upd_name upd)
                     then default "" (upd_name upd) else name pool;
             pool_type := pool_type pool;
             apy := default (apy pool) (upd_apy upd);
             minStake := default (minStake pool) (upd_minStake upd);
             lockPeriod := default (lockPeriod pool) (upd_lockPeriod upd);
             liquidity := liquidity pool;
             totalStaked := totalStaked pool;
             createdAt := createdAt pool |} in
        (* the numbers of a JSON body are not [NaN]: the assignments
           pass the casts of their paths *)
        let! _ := Pool_save pid (Some pool') in
        ret (mkResponse 200 (WithPool "Pool updated successfully" pool'))
    end).

Definition deletePool (pid : nat) : State -> response * State :=
  try_catch "Server error deleting pool" (
    let! found := Pool_findByIdAndDelete pid in
    match found with
    | None => reply 404 (Message "Pool not found")
    | Some _ => ret (mkResponse 200 (Message "Pool deleted successfully"))
    end).

(** ** [stakingController.ts] *)

Definition opt_string_eqb (a b : option string) : bool :=
  match a, b with
  | Some x, Some y => String.eqb x y
  | None, None => true
  | _, _ => false
  end.

(** [{ transactionId, type: 'stake', userId }] *)
Definition stake_filter (tid uid : string) (t : Transaction) : bool :=
  has_transactionId tid t && tx_type_eqb (type t) stake
  && String.eqb (userId t) uid.

(** [{ originalTransactionId: transactionId, type: 'unstake', userId }] *)
Definition unstake_filter (tid uid : string) (t : Transaction) : bool :=
  opt_string_eqb (originalTransactionId t) (Some tid)
  && tx_type_eqb (type t) unstake
  && String.eqb (userId t) uid.

(** [{ originalTransactionId: transactionId, type: 'unstake' }] *)
Definition closing_filter (tid : string) (t : Transaction) : bool :=
  opt_string_eqb (originalTransactionId t) (Some tid)
  && tx_type_eqb (type t) unstake.

(** [pool.lockPeriod ? new Date(Date.now() + pool.lockPeriod * 86400000)
    : null]; the outer [None] is an invalid date. *)
Definition stake_unlockTime (pool : Pool) (date_now : Z)
  : option (option Z) :=
  if truthy (lockPeriod pool)
  then match new_Date (nadd (of_Z date_now)
                            (nmul (lockPeriod pool) (of_Z 86400000))) with
       | Some d => Some (Some d)
       | None => None
       end
  else Some None.

(** [now] is the [new Date()] of the [timestamp] field and [date_now] the
    later [Date.now()] of the [unlockTime] field. *)
Definition stakeTokens (pid : nat) (amt : bodyval) (uid uuid : string)
    (now date_now : Z) : State -> response * State :=
  try_catch "Server error during staking" (
    let! _ := reject_if (negb (body_truthy amt) || isNaN (to_Number amt)
                         || nle (to_Number amt) (Fin 0))
      400 (Message "Invalid stake amount") in
    let! found := Pool_findById pid in
    match found with
    | None => reply 404 (Message "Pool not found")
    | Some pool =>
        let! _ := reject_if (nlt (to_Number amt) (minStake pool))
          400 (MinimumStake (minStake pool)) in
        let! user := User_findById uid in
        let! _ := reject_if (negb user) 404 (Message "User not found") in
        (* an invalid date fails the cast of the [Date] path and
           [transaction.save()] throws *)
        let! unlock := match stake_unlockTime pool date_now with
                  | Some u => ret u
                  | None => throw
                  end in
        (* the [amount] path casts the amount, which is no [NaN] here *)
        let transaction :=
          mkTransaction uuid None stake (to_Number amt) now uid pid unlock in
        let! _ := Transaction_save transaction in
        (* [pool.totalStaked = (pool.totalStaked || 0) + amount] *)
        let! pool' :=
          Pool_save pid
            (set_totalStaked pool
               <$> cast_Number
                     (js_add (opt_or (totalStaked pool) (Fin 0)) amt)) in
        ret (mkResponse 200
               (WithTransaction "Stake successful" transaction pool'))
    end).

(** [now_check] is the [new Date()] of the lock test and [now] the later
    [new Date()] of the [timestamp] field. *)
Definition unstakeTokens (tid uid uuid : string) (now_check now : Z)
  : State -> response * State :=
  try_catch "Server error during unstaking" (
    let! found := Transaction_findOne (stake_filter tid uid) in
    match found with
    | None => reply 404 (Message "Stake transaction not found")
    | Some stakeTransaction =>
        let! unstakeCheck := Transaction_findOne (unstake_filter tid uid) in
        let! _ := reject_if (bool_decide (is_Some unstakeCheck))
          400 (Message "Tokens already unstaked") in
        let! _ := match unlockTime stakeTransaction with
                  | Some unlock =>
                      reject_if (now_check <? unlock)%Z
                        400 (StillLocked "Tokens are still locked" unlock)
                  | None => ret tt
                  end in
        let! found_pool := Pool_findById (poolId stakeTransaction) in
        match found_pool with
        | None => reply 404 (Message "Pool not found")
        | Some pool =>
            let unstakeTransaction :=
              mkTransaction uuid (Some tid) unstake
                (amount stakeTransaction) now uid
                (poolId stakeTransaction) None in
            let! _ := Transaction_save unstakeTransaction in
            let! pool' :=
              Pool_save (poolId stakeTransaction)
                (set_totalStaked pool
                   <$> cast_Number
                         (nmax (Fin 0)
                               (nsub (opt_or (totalStaked pool) (Fin 0))
                                     (amount stakeTransaction)))) in
            ret (mkResponse 200
                   (WithTransaction "Unstake successful"
                      unstakeTransaction pool'))
        end
    end).

(** [(endTime - startTime) / (1000 * 60 * 60 * 24)] *)
Definition stakingDurationDays (startTime endTime : Z) : num :=
  ndiv (of_Z (endTime - startTime)) (of_Z (1000 * 60 * 60 * 24)).

(** [(amount * apy / 100) * (stakingDurationDays / 365)] *)
Definition rewards_of (amt pool_apy days : num) : num :=
  nmul (ndiv (nmul amt pool_apy) (of_Z 100)) (ndiv days (of_Z 365)).

Definition calculateRewards (tid uid : string) (now : Z)
  : State -> response * State :=
  try_catch "Server error calculating rewards" (
    let! found := Transaction_findOne (stake_filter tid uid) in
    match found with
    | None => reply 404 (Message "Stake transaction not found")
    | Some stakeTransaction =>
        let! found_pool := Pool_findById (poolId stakeTransaction) in
        match found_pool with
        | None => reply 404 (Message "Pool not found")
        | Some pool =>
            let! unstakeCheck := Transaction_findOne (closing_filter tid) in
            let startTime := timestamp stakeTransaction in
            let endTime := match unstakeCheck with
                           | Some u => timestamp u
                           | None => now
                           end in
            let days := stakingDurationDays startTime endTime in
            let rewards := rewards_of (amount stakeTransaction)
                                      (apy pool) days in
            ret (mkResponse 200
                   (Rewards "Rewards calculated successfully"
                      (amount stakeTransaction)
                      (parseFloat_toFixed 2 days)
                      (apy pool)
                      (parseFloat_toFixed 6 rewards)
                      (bool_decide (is_Some unstakeCheck))))
        end
    end).

(** ** [utils/validators.ts] and the stake route *)

(** [isNumeric] reads the decimal string of the value: ["NaN"] and
    ["Infinity"] do not match, and neither does the exponent form that
    [toString] uses below [1e-6] and from [1e21] on. *)
Definition isNumeric (x : num) : bool :=
  match x with
  | Fin q =>
      Qeq_bool q 0
      || (Qle_bool (1 / pow10 6) (Qabs q) && Qlt_bool (Qabs q) (pow10 21))
  | _ => false
  end.

(** [isNumeric] on a string: an optional sign, digits, and at most one
    point with a digit after it. *)
Definition isNumeric_string (s : string) : bool :=
  let unsigned :=
    match s with
    | String "+" u | String "-" u => u
    | _ => s
    end in
  let '(_, int_len, rest) := read_digits 10 unsigned 0 0 in
  match rest with
  | EmptyString => negb (Nat.eqb int_len 0)
  | String "." fraction =>
      let '(_, frac_len, rest') := read_digits 10 fraction 0 0 in
      negb (Nat.eqb frac_len 0) && String.eqb rest' ""
  | _ => false
  end.

Definition body_isNumeric (v : bodyval) : bool :=
  match v with
  | BNum x => isNumeric x
  | BStr s => isNumeric_string s
  end.

(** [validateStaking]: the messages of the rules that fail. *)
Definition validateStaking (body_amount : bodyval)
    (body_poolId : option string) : list string :=
  (if body_isNumeric body_amount then []
   else ["Staking amount must be a number"])
  ++ (if str_truthy body_poolId then [] else ["Pool ID is required"]).

Definition checkValidationResults (errors : list string)
    (next : State -> response * State) : State -> response * State :=
  fun s =>
    match errors with
    | [] => next s
    | _ => (mkResponse 400 (Errors errors), s)
    end.

(** [isValidAmount] *)
Definition isValidAmount (amt : num) : bool :=
  nlt (Fin 0) amt && is_finite amt.

(** [router.post('/stake/:poolId', validateStaking, checkValidationResults,
    stakeTokens)] *)
Definition stake_route (pid : nat) (amt : bodyval)
    (body_poolId : option string)
    (uid uuid : string) (now date_now : Z) : State -> response * State :=
  checkValidationResults (validateStaking amt body_poolId)
    (stakeTokens pid amt uid uuid now date_now).

(** ** What the ledger says about a pool *)

Definition is_stake (t : Transaction) : bool := tx_type_eqb (type t) stake.

Definition is_unstake (t : Transaction) : bool :=
  tx_type_eqb (type t) unstake.

(** The unstake event [u] references the stake event [s]. *)
Definition references (s u : Transaction) : bool :=
  is_unstake u
  && opt_string_eqb (originalTransactionId u) (Some (transactionId s)).

(** The stake events for the pool. *)
Definition stakes_of (pid : nat) (l : list Transaction) : list Transaction :=
  List.filter (fun t => is_stake t && Nat.eqb (poolId t) pid) l.

(** The unstake events that reference a stake event of the pool. *)
Definition unstakes_of (pid : nat) (l : list Transaction)
  : list Transaction :=
  List.filter (fun u => existsb (fun s => references s u) (stakes_of pid l))
              l.

(** A stake event with no referencing unstake event: an open position. *)
Definition is_open (l : list Transaction) (s : Transaction) : bool :=
  negb (existsb (references s) l).

Definition open_stakes (pid : nat) (l : list Transaction)
  : list Transaction :=
  List.filter (is_open l) (stakes_of pid l).

Definition open_count (pid : nat) (l : list Transaction) : nat :=
  length (open_stakes pid l).

(** The sum of the amounts of the events of a list. *)
Definition sum_amounts (l : list Transaction) : num :=
  fold_right (fun t acc => nadd (amount t) acc) (Fin 0) l.

(** Sum of the stake amounts of the pool minus the sum of the amounts of
    the unstake events that reference those stakes. *)
Definition ledger_total (pid : nat) (l : list Transaction) : num :=
  nsub (sum_amounts (stakes_of pid l)) (sum_amounts (unstakes_of pid l)).

(** The unstake events that reference the stake event [s]. *)
Definition closings (s : Transaction) (l : list Transaction)
  : list Transaction :=
  List.filter (references s) l.

(** ** Runs of the backend *)

(** One request served, or a change of the user collection (which the
    controllers of this development only read).  The amounts of the
    requests of a run are JSON numbers. *)
Inductive step : State -> State -> Prop :=
  | step_createPool cfg now s :
      step s (snd (createPool cfg now s))
  | step_updatePool pid upd s :
      step s (snd (updatePool pid upd s))
  | step_deletePool pid s :
      step s (snd (deletePool pid s))
  | step_deposit pid (amt : num) uid uuid now s :
      step s (snd (depositToPool pid amt uid uuid now s))
  | step_withdraw pid (amt : num) uid uuid now s :
      step s (snd (withdrawFromPool pid amt uid uuid now s))
  | step_stake pid (amt : num) body_poolId uid uuid now date_now s :
      step s (snd (stake_route pid amt body_poolId uid uuid now date_now s))
  | step_unstake tid uid uuid now_check now s :
      (* the clock does not run backwards while a request is served *)
      (now_check <= now)%Z ->
      step s (snd (unstakeTokens tid uid uuid now_check now s))
  | step_calculateRewards tid uid now s :
      step s (snd (calculateRewards tid uid now s))
  | step_users us s :
      step s (mkState (pools s) (next_oid s) (transactions s) us).

(** The states the backend reaches from the empty database. *)
Inductive reachable : State -> Prop :=
  | reachable_empty : reachable empty_db
  | reachable_step s s' : reachable s -> step s s' -> reachable s'.

(** The states the backend reaches from a given state. *)
Inductive steps : State -> State -> Prop :=
  | steps_refl s : steps s s
  | steps_step s s' s'' : steps s s' -> step s' s'' -> steps s s''.

(** A request is admitted when it is answered with status 200. *)
Definition admitted (r : response * State) : Prop := status (fst r) = 200%Z.

(** A request that the [catch] block answers after the event of the
    request was saved: [pool.save()] rejected.  The event stays in the
    ledger and nothing else is changed. *)
Definition half_done (message : string) (t : Transaction)
    (r : response * State) (st : State) : Prop :=
  r = (mkResponse 500 (Message message),
       mkState (pools st) (next_oid st) (transactions st ++ [t])
               (users st)).

(** ** Well-formed ledgers *)

(** The [originalTransactionId]s of the unstake events. *)
Definition closed_ids (l : list Transaction) : list string :=
  flat_map (fun u => if is_unstake u
                     then match originalTransactionId u with
                          | Some i => [i]
                          | None => []
                          end
                     else []) l.

(** No event of the ledger has the id [i]. *)
Definition fresh_id (i : string) (l : list Transaction) : Prop :=
  existsb (has_transactionId i) l = false.


Definition qamount (t : Transaction) : Q :=
  match amount t with Fin q => q | _ => 0 end.

Definition qsum (l : list Transaction) : Q :=
  fold_right (fun t acc => qamount t + acc) 0 l.

Record ledger_wf (l : list Transaction) : Prop := mk_ledger_wf {
  wf_ids : List.NoDup (map transactionId l);
  wf_refs : forall u, In u l -> is_unstake u = true ->
      exists s, In s l /\ is_stake s = true
                /\ originalTransactionId u = Some (transactionId s)
                /\ userId u = userId s /\ poolId u = poolId s
                /\ amount u = amount s;
  wf_once : List.NoDup (closed_ids l);
  wf_amounts : forall s, In s l -> is_stake s = true ->
      exists q, amount s = Fin q /\ 0 < q;
  wf_sums : forall pid,
      qsum (stakes_of pid l) - qsum (unstakes_of pid l)
      == qsum (open_stakes pid l)
}.

Record db_wf (st : State) : Prop := mk_db_wf {
  wf_ledger : ledger_wf (transactions st);
  wf_pool_ids : forall pid p, pools st !! pid = Some p ->
      (pid < next_oid st)%nat;
  wf_tx_pools : forall t, In t (transactions st) ->
      (poolId t < next_oid st)%nat;
  wf_totals : forall pid p, pools st !! pid = Some p ->
      exists q, totalStaked p = Some (Fin q)
                /\ q == qsum (open_stakes pid (transactions st))
}.


(** ** Rounding, as the specification words it *)


(** ** Sample databases *)

(** The id of the user document of alice. *)
Definition alice : string := "507f1f77bcf86cd799439011".

(** The empty database after alice registered. *)
Definition db_users : State := mkState ∅ 0 [] {[ alice ]}.

Definition cfg_B : PoolConfig :=
  mkPoolConfig (Some "B") (Some "basic") (Some (Fin (78 # 10)))
               (Some (Fin 1)) (Some (Fin 0)).

Definition cfg_L : PoolConfig :=
  mkPoolConfig (Some "L") (Some "lock") (Some (Fin (125 # 10)))
               (Some (Fin 1)) (Some (Fin 30)).

(** Pool [B] of the rejection scenario: [minStake = 1], no lock. *)
Definition pool_B : Pool :=
  mkPool "B" "basic" (Fin (78 # 10)) (Fin 1) (Fin 0) (Fin 0)
         (Some (Fin 0)) 0.

(** Pool [L] of the lock scenario: a lock period of 30 days. *)
Definition pool_L : Pool :=
  mkPool "L" "lock" (Fin (125 # 10)) (Fin 1) (Fin 30) (Fin 0)
         (Some (Fin 0)) 0.

Definition db_B : State :=
  mkState {[ 0%nat := pool_B ]} 1 [] {[ alice ]}.

Definition db_L : State :=
  mkState {[ 0%nat := pool_L ]} 1 [] {[ alice ]}.

Definition day : Z := 86400000.

(** A pool configuration with every field present. *)
Definition cfg_P : PoolConfig :=
  mkPoolConfig (Some "P") (Some "basic") (Some (Fin (78 # 10)))
               (Some (Fin 1)) (Some (Fin 0)).

(** A pool configuration with only the required fields. *)
Definition cfg_required : PoolConfig :=
  mkPoolConfig (Some "P") (Some "basic") (Some (Fin (78 # 10))) None None.

(** A pool configuration whose APY is present and is zero. *)
Definition cfg_zero_apy : PoolConfig :=
  mkPoolConfig (Some "Z") (Some "basic") (Some (Fin 0)) None None.

(** A pool configuration without a name. *)
Definition cfg_no_name : PoolConfig :=
  mkPoolConfig None (Some "basic") (Some (Fin (78 # 10))) None None.





(** [db_B] after alice staked 10 at time [1000]. *)
Definition db_B_staked : State :=
  snd (stake_route 0 (Fin 10) (Some "0") alice "tx1" 1000 1000 db_B).

(** [db_L] after alice staked 5 at time [1000]. *)
Definition db_L_staked : State :=
  snd (stake_route 0 (Fin 5) (Some "0") alice "tx1" 1000 1000 db_L).

(** The stake events of the two scenarios. *)
Definition stake_B : Transaction :=
  mkTransaction "tx1" None stake (Fin 10) 1000 alice 0 None.

Definition stake_L : Transaction :=
  mkTransaction "tx1" None stake (Fin 5) 1000 alice 0
                (Some (1000 + 30 * day)%Z).

(** [db_B_staked] after alice unstaked a year later. *)
Definition db_B_unstaked : State :=
  snd (unstakeTokens "tx1" alice "tx2" (1000 + 365 * day)
                     (1000 + 365 * day) db_B_staked).

(** * The other controllers and services *)

(** ** Sorting by decreasing key *)

(** [insert_desc key x l] puts [x] into [l], ordered by decreasing key,
    before the first element whose key is not above the key of [x]. *)
Fixpoint insert_desc {A} (key : A -> Z) (x : A) (l : list A) : list A :=
  match l with
  | [] => [x]
  | y :: l' =>
      if (key y <=? key x)%Z then x :: l else y :: insert_desc key x l'
  end.

(** A stable sort by decreasing key, as [Array.prototype.sort] with the
    comparator [(a, b) => key(b) - key(a)] is.  It also stands for
    [.sort({ key: -1 })] of a Mongoose query, where the order of documents
    with equal keys is not specified: no property below depends on it. *)
Definition sort_desc {A} (key : A -> Z) (l : list A) : list A :=
  fold_right (insert_desc key) [] l.

(** The elements of a list are in order of decreasing key. *)
Definition sorted_desc {A} (key : A -> Z) (l : list A) : Prop :=
  StronglySorted (fun a b => (key b <= key a)%Z) l.

(** [arr.slice(0, n)] for an integer [n]: a negative [n] counts from the
    end of the array. *)
Definition slice0 {A} (n : Z) (l : list A) : list A :=
  if (n <? 0)%Z
  then firstn (Z.to_nat (Z.max (Z.of_nat (length l) + n) 0)) l
  else firstn (Z.to_nat n) l.

(** ** [poolController.ts]: the reading controllers *)

(** A stake event with the fields that [getUserStakes] adds to it. *)
Record StakeView : Type := mkStakeView {
  view_stake : Transaction;
  isUnstaked : bool;
  unstakeTime : option Z
}.

(** The body of the responses that carry a list. *)
Inductive listing : Type :=
  | PoolList (message : string) (found : list (nat * Pool))
  | TransactionList (message : string) (found : list Transaction)
  | StakeList (message : string) (stakes : list StakeView).

Record list_response : Type :=
  mkListResponse { list_status : Z; list_json : listing }.

(** [Pool.find().sort({ createdAt: -1 })]: the documents with their
    [_id]. *)
Definition getPools (st : State) : list_response :=
  mkListResponse 200
    (PoolList "Pools retrieved successfully"
       (sort_desc (fun d : nat * Pool => createdAt (snd d))
                  (map_to_list (pools st)))).

Definition getPool (pid : nat) (st : State) : response :=
  match pools st !! pid with
  | None => mkResponse 404 (Message "Pool not found")
  | Some pool => mkResponse 200 (WithPool "Pool retrieved successfully" pool)
  end.

(** [Transaction.find({ poolId }).sort({ timestamp: -1 })] *)
Definition pool_transactions (pid : nat) (l : list Transaction)
  : list Transaction :=
  sort_desc timestamp (List.filter (fun t => Nat.eqb (poolId t) pid) l).

Definition getPoolTransactions (pid : nat) (st : State)
  : response + list_response :=
  match pools st !! pid with
  | None => inl (mkResponse 404 (Message "Pool not found"))
  | Some _ =>
      inr (mkListResponse 200
             (TransactionList "Transactions retrieved successfully"
                (pool_transactions pid (transactions st))))
  end.

(** ** [stakingController.ts]: [getUserStakes] *)

(** [Transaction.find({ userId, type })] *)
Definition user_events (uid : string) (ty : tx_type) (l : list Transaction)
  : list Transaction :=
  List.filter (fun t => String.eqb (userId t) uid && tx_type_eqb (type t) ty)
              l.

(** [unstakeTransactions.forEach(t => { if (t.originalTransactionId)
    unstakeMap[t.originalTransactionId] = t })]: a later event replaces an
    earlier one under the same key, and an empty id is falsy.  (The keys
    are transaction ids; the properties that a JavaScript object inherits
    are not modelled.) *)
Definition unstakeMap_add (m : gmap string Transaction) (t : Transaction)
  : gmap string Transaction :=
  match originalTransactionId t with
  | Some i => if String.eqb i "" then m else <[i := t]> m
  | None => m
  end.

Definition unstakeMap_of (unstakes : list Transaction)
  : gmap string Transaction :=
  fold_left unstakeMap_add unstakes ∅.

(** The element of [enrichedTransactions] for one stake event. *)
Definition enrich (unstakeMap : gmap string Transaction) (t : Transaction)
  : StakeView :=
  let unstakeInfo := unstakeMap !! transactionId t in
  mkStakeView t (bool_decide (is_Some unstakeInfo))
              (timestamp <$> unstakeInfo).

Definition getUserStakes (uid : string) (st : State) : list_response :=
  let stakeTransactions :=
    sort_desc timestamp (user_events uid stake (transactions st)) in
  let unstakeTransactions := user_events uid unstake (transactions st) in
  let unstakeMap := unstakeMap_of unstakeTransactions in
  mkListResponse 200
    (StakeList "User staking transactions retrieved successfully"
       (map (enrich unstakeMap) stakeTransactions)).

(** The [stakes] field of a response of [getUserStakes]. *)
Definition listed_stakes (r : list_response) : list StakeView :=
  match list_json r with
  | StakeList _ stakes => stakes
  | _ => []
  end.

(** ** [notificationService.ts] *)

Inductive NotificationType : Type :=
  | SYSTEM | STAKING | SECURITY | REWARD | TRANSACTION.

Record Notification : Type := mkNotification {
  n_userId : string;
  n_type : NotificationType;
  n_title : string;
  n_message : string;
  n_timestamp : Z;
  isRead : bool
}.

(** [sendNotification]: the notification is pushed on the module's array;
    [now] is the [new Date()] of its timestamp. *)
Definition sendNotification (uid : string) (ty : NotificationType)
    (title message : string) (now : Z) (notifications : list Notification)
  : bool * list Notification :=
  (true,
   (notifications ++ [mkNotification uid ty title message now false])%list).

Definition of_user (uid : string) (n : Notification) : bool :=
  String.eqb (n_userId n) uid.

(** [getUserNotifications(userId, limit, unreadOnly)]; the defaults of the
    source are [limit = 50] and [unreadOnly = false]. *)
Definition getUserNotifications (uid : string) (limit : Z)
    (unreadOnly : bool) (notifications : list Notification)
  : list Notification :=
  let result := List.filter (of_user uid) notifications in
  let result :=
    if unreadOnly then List.filter (fun n => negb (isRead n)) result
    else result in
  slice0 limit (sort_desc n_timestamp result).

Definition set_read (n : Notification) : Notification :=
  mkNotification (n_userId n) (n_type n) (n_title n) (n_message n)
                 (n_timestamp n) true.

(** Setting [isRead] on the [i]-th notification of the user: the filtered
    array of [markNotificationAsRead] holds the objects of the module's
    array, so the assignment is seen there. *)
Fixpoint mark_nth (uid : string) (i : nat) (l : list Notification)
  : list Notification :=
  match l with
  | [] => []
  | n :: l' =>
      if of_user uid n
      then match i with
           | O => set_read n :: l'
           | S i' => n :: mark_nth uid i' l'
           end
      else n :: mark_nth uid i l'
  end.

Definition markNotificationAsRead (uid : string) (notificationIndex : Z)
    (notifications : list Notification) : bool * list Notification :=
  let userNotifications := List.filter (of_user uid) notifications in
  if (notificationIndex <? 0)%Z
     || (Z.of_nat (length userNotifications) <=? notificationIndex)%Z
  then (false, notifications)
  else (true, mark_nth uid (Z.to_nat notificationIndex) notifications).

(** ** [analyticsService.ts] *)

(** [getAnalyticsOverview]: the number of users and of pools, the sum of
    the liquidity of the pools, and the ten newest events. *)
Record Overview : Type := mkOverview {
  totalUsers : nat;
  totalPools : nat;
  totalLiquidity : num;
  ov_recentTransactions : list Transaction
}.

Definition getAnalyticsOverview (st : State) : Overview :=
  let found := snd <$> map_to_list (pools st) in
  mkOverview (size (users st)) (size (pools st))
    (fold_left (fun sum pool => nadd sum (liquidity pool)) found (Fin 0))
    (firstn 10 (sort_desc timestamp (transactions st))).

(** ** [priceOracleService.ts] and its controller *)

Record PriceEntry : Type := mkPriceEntry { price : num; lastUpdated : Z }.

(** [priceCache]: the entries that [refreshPrice] stored, by symbol.
    The cache is a plain object, so the entry stored for the symbol
    [__proto__] becomes the prototype of the cache; it is kept under that
    key, which is also where [priceCache['__proto__']] reads it back. *)
Abbreviation PriceCache := (gmap string PriceEntry).

(** The properties that every plain object inherits from
    [Object.prototype]: eleven functions and the accessor [__proto__]. *)
Definition object_prototype_names : list string :=
  ["constructor"; "__defineGetter__"; "__defineSetter__"; "hasOwnProperty";
   "__lookupGetter__"; "__lookupSetter__"; "isPrototypeOf";
   "propertyIsEnumerable"; "toString"; "valueOf"; "__proto__";
   "toLocaleString"].

(** What [priceCache[symbol]] reads, as far as the service tells the
    values apart: an entry that [refreshPrice] stored; a truthy value that
    is inherited and has neither a [price] nor a [lastUpdated] (a function
    of [Object.prototype], [Object.prototype] itself, or the number and
    the date of the entry stored for [__proto__]); or a falsy value
    ([undefined], or an inherited price of zero or NaN). *)
Inductive cache_read : Type :=
  | Entry (e : PriceEntry)
  | Inherited
  | Missing.

Definition priceCache_get (cache : PriceCache) (symbol : string)
  : cache_read :=
  match cache !! symbol with
  | Some e => Entry e
  | None =>
      if existsb (String.eqb symbol) object_prototype_names
      then Inherited
      else
        match cache !! "__proto__" with
        | Some e =>
            if String.eqb symbol "price"
            then (if truthy (price e) then Inherited else Missing)
            else if String.eqb symbol "lastUpdated" then Inherited
            else Missing
        | None => Missing
        end
  end.

(** How a call of the service ends: it returns a price, which is a number
    or [undefined], or it throws. *)
Inductive price_outcome : Type :=
  | Returned (p : option num)
  | Thrown.

(** [refreshPrice].  [fetched] is the outcome of the request to the price
    API for the symbol in lower case: [None] when the request fails,
    [Some None] when the answer has no [usd] price for it, [Some (Some p)]
    when it has the number [p]; [now] is the [new Date()] of the cache
    entry.  When no truthy price was fetched, the [catch] returns the
    [price] of what [priceCache[symbol]] reads if that is truthy, and
    throws the error again otherwise. *)
Definition refreshPrice (symbol : string) (fetched : option (option num))
    (now : Z) (cache : PriceCache) : price_outcome * PriceCache :=
  let fallback :=
    (match priceCache_get cache symbol with
     | Entry e => Returned (Some (price e))
     | Inherited => Returned None
     | Missing => Thrown
     end, cache) in
  match fetched with
  | Some (Some p) =>
      if truthy p
      then (Returned (Some p), <[symbol := mkPriceEntry p now]> cache)
      else fallback
  | _ => fallback
  end.

(** [getPrice]; [now_check] is the [new Date()] of the expiry test.  On an
    inherited value [cachedData.lastUpdated] is [undefined] and the call of
    [getTime] throws a [TypeError], which the [catch] throws again. *)
Definition getPrice (symbol : string) (now_check : Z)
    (fetched : option (option num)) (now : Z) (cache : PriceCache)
  : price_outcome * PriceCache :=
  match priceCache_get cache symbol with
  | Entry cachedData =>
      if (now_check - lastUpdated cachedData <? 5 * 60 * 1000)%Z
      then (Returned (Some (price cachedData)), cache)
      else refreshPrice symbol fetched now cache
  | Inherited => (Thrown, cache)
  | Missing => refreshPrice symbol fetched now cache
  end.

(** The bodies of the answers; [PriceUndefined] is the body whose [price]
    is [undefined], which [JSON.stringify] leaves out. *)
Inductive price_body : Type :=
  | PriceMessage (message : string)
  | PriceData (message : string) (symbol : string) (price : num)
  | PriceUndefined (message : string) (symbol : string).

Record price_response : Type :=
  mkPriceResponse { price_status : Z; price_json : price_body }.

Definition price_data (message symbol : string) (p : option num)
  : price_body :=
  match p with
  | Some x => PriceData message symbol x
  | None => PriceUndefined message symbol
  end.

(** The controllers [getTokenPrice] and [refreshTokenPrice]. *)
Definition getTokenPrice (symbol : string) (now_check : Z)
    (fetched : option (option num)) (now : Z) (cache : PriceCache)
  : price_response * PriceCache :=
  if String.eqb symbol ""
  then (mkPriceResponse 400 (PriceMessage "Token symbol is required"), cache)
  else
    match getPrice symbol now_check fetched now cache with
    | (Returned p, cache') =>
        (mkPriceResponse 200
           (price_data "Price fetched successfully" symbol p), cache')
    | (Thrown, cache') =>
        (mkPriceResponse 500
           (PriceMessage "Server error fetching token price"), cache')
    end.

Definition refreshTokenPrice (symbol : string)
    (fetched : option (option num)) (now : Z) (cache : PriceCache)
  : price_response * PriceCache :=
  if String.eqb symbol ""
  then (mkPriceResponse 400 (PriceMessage "Token symbol is required"), cache)
  else
    match refreshPrice symbol fetched now cache with
    | (Returned p, cache') =>
        (mkPriceResponse 200
           (price_data "Price refreshed successfully" symbol p), cache')
    | (Thrown, cache') =>
        (mkPriceResponse 500
           (PriceMessage "Server error refreshing token price"), cache')
    end.

(** Every price of the cache is a truthy number. *)
Definition cache_ok (cache : PriceCache) : Prop :=
  forall symbol e, cache !! symbol = Some e -> truthy (price e) = true.

(** ** The route of [createPool] *)

(** [validatePoolCreation]: the messages of the rules that fail.  A field
    that the request does not carry is validated as the empty string;
    [body_liquidity] is the [liquidity] field of the request, which
    [createPool] does not read. *)
Definition validatePoolCreation (cfg : PoolConfig)
    (body_liquidity : option num) : list string :=
  (if str_truthy (cfg_name cfg) then [] else ["Pool name is required"])
  ++ (if existsb (String.eqb (default "" (cfg_type cfg)))
                 ["basic"; "lending"; "lock"]
      then [] else ["Invalid pool type"])
  ++ (if match body_liquidity with
         | Some x => isNumeric x
         | None => false
         end
      then [] else ["Liquidity must be a number"]).

(** [router.post('/create', isAdmin, validatePoolCreation,
    checkValidationResults, createPool)], for a request that passed
    [authenticateToken] and [isAdmin]. *)
Definition createPool_route (cfg : PoolConfig) (body_liquidity : option num)
    (now : Z) : State -> response * State :=
  checkValidationResults (validatePoolCreation cfg body_liquidity)
    (createPool cfg now).

(** ** More sample databases *)

(** [db_B] after a deposit of 5 and a withdrawal of 2 by the
    administrator. *)
Definition db_B_funded : State :=
  snd (depositToPool 0 (Fin 5) "admin" "d1" 10 db_B).

Definition db_B_drawn : State :=
  snd (withdrawFromPool 0 (Fin 2) "admin" "w1" 20 db_B_funded).

(** [db_B_staked] after its pool was deleted. *)
Definition db_B_deleted : State := snd (deletePool 0 db_B_staked).

Definition upd_apy_9 : PoolUpdate :=
  mkPoolUpdate None (Some (Fin 9)) None None.

(** Three notifications, for alice at times 10 and 30 and for bob at time
    20. *)
Definition note (uid : string) (t : Z) : Notification :=
  mkNotification uid SYSTEM "title" "message" t false.

Definition notes : list Notification :=
  [note alice 10; note "bob" 20; note alice 30].
(** * Properties *)

Ltac run_handler :=
  unfold try_catch, bind, reject_if, reply, ret, throw, Pool_findById,
    Pool_save, Pool_create, Pool_findByIdAndDelete, Transaction_findOne,
    Transaction_save, User_findById; simpl.

(** ** Numbers *)

Lemma Qlt_bool_iff (a b : Q) : Qlt_bool a b = true <-> a < b.
Proof.
  unfold Qlt_bool. rewrite negb_true_iff.
  destruct (Qle_bool b a) eqn:E.
  - apply Qle_bool_iff in E. split; [discriminate | lra].
  - split; [intros _ | reflexivity].
    destruct (Qlt_le_dec a b) as [Hlt | Hle]; [exact Hlt |].
    apply Qle_bool_iff in Hle. congruence.
Qed.

Lemma Qle_bool_false (a b : Q) : Qle_bool a b = false <-> b < a.
Proof.
  rewrite <- Qlt_bool_iff. unfold Qlt_bool.
  destruct (Qle_bool a b); simpl; split; congruence.
Qed.

Lemma Qeq_bool_false (a b : Q) : Qeq_bool a b = false <-> ~ a == b.
Proof.
  destruct (Qeq_bool a b) eqn:E.
  - apply Qeq_bool_iff in E. split; [discriminate | tauto].
  - split; [intros _ H | reflexivity].
    apply Qeq_bool_iff in H. congruence.
Qed.

(** The guard of [stakeTokens] lets exactly the numbers above zero
    through. *)
Lemma stake_guard_spec (amt : num) :
  negb (truthy amt) || isNaN amt || nle amt (Fin 0) = false
  <-> nlt (Fin 0) amt = true.
Proof.
  destruct amt as [| | |q]; simpl; try (split; congruence).
  rewrite orb_false_r, Qlt_bool_iff, orb_false_iff, negb_false_iff,
    negb_true_iff, Qeq_bool_false, Qle_bool_false.
  split; [tauto | intros H; split; lra].
Qed.

(** The guard of [depositToPool] and [withdrawFromPool] lets the same
    numbers through. *)
Lemma amount_guard_spec (amt : num) :
  isNaN amt || nle amt (Fin 0) = false <-> nlt (Fin 0) amt = true.
Proof.
  destruct amt as [| | |q]; simpl; try (split; congruence).
  rewrite Qlt_bool_iff, Qle_bool_false. tauto.
Qed.

(** ** Stake requests that are refused *)

(** C10, where the code departs from it.  [stakeTokens] looks the user up
    with [User.findById(userId)], which casts the id to [ObjectId], while
    the [userId] of a request is the uuid that [authController] issues
    (the other controllers look it up with [User.findOne({ userId })]).
    For a uuid the query throws: a stake request with a valid amount, an
    existing pool and an amount that meets the minimum is answered with
    the 500 of the [catch] block, not with [404 User not found], and this
    whether or not the user is in the store.  So is every id that is
    neither 24 hexadecimal digits nor 12 bytes long.  [404 User not found]
    is the answer for an id of 24 hexadecimal digits that finds no
    document.  In both cases nothing is written. *)
Theorem stake_user_lookup_casts_id :
  let uuid_user := "7e4b1c9e-3f0a-4c58-9d6e-2b1a5f8c7d90" in
  stakeTokens 0 (Fin 10) uuid_user "tx1" 5 5 db_B
  = (mkResponse 500 (Message "Server error during staking"), db_B)
  /\ (forall st pid p (amt : bodyval) uid uuid now date_now,
        negb (body_truthy amt) || isNaN (to_Number amt)
        || nle (to_Number amt) (Fin 0) = false ->
        pools st !! pid = Some p ->
        nlt (to_Number amt) (minStake p) = false ->
        (is_ObjectId uid = false -> String.length uid <> 12%nat ->
         stakeTokens pid amt uid uuid now date_now st
         = (mkResponse 500 (Message "Server error during staking"), st))
        /\ (is_ObjectId uid = true -> uid ∉ users st ->
            stakeTokens pid amt uid uuid now date_now st
            = (mkResponse 404 (Message "User not found"), st))).
Proof.
  assert (G : forall st pid p (amt : bodyval) uid uuid now date_now,
             negb (body_truthy amt) || isNaN (to_Number amt)
             || nle (to_Number amt) (Fin 0) = false ->
             pools st !! pid = Some p ->
             nlt (to_Number amt) (minStake p) = false ->
             (is_ObjectId uid = false -> String.length uid <> 12%nat ->
              stakeTokens pid amt uid uuid now date_now st
              = (mkResponse 500 (Message "Server error during staking"), st))
             /\ (is_ObjectId uid = true -> uid ∉ users st ->
                 stakeTokens pid amt uid uuid now date_now st
                 = (mkResponse 404 (Message "User not found"), st))).
  { intros st pid p amt uid uuid now date_now Hpos Hp Hmin.
    unfold stakeTokens. run_handler. rewrite Hpos, Hp. simpl.
    rewrite Hmin. split.
    - intros Hc _. rewrite Hc. reflexivity.
    - intros Hc Hu. rewrite Hc.
      rewrite bool_decide_eq_false_2 by exact Hu. reflexivity. }
  split; [| exact G].
  apply (G db_B 0%nat pool_B (BNum (Fin 10)));
    [reflexivity | reflexivity | reflexivity | reflexivity |].
  intros C. discriminate C.
Qed.

(** C6.  A stake request whose amount is above zero and strictly below
    the minimum of its pool is answered [400] with the message that names
    [pool.minStake], whatever the liquidity of the pool (and whoever the
    user); the database is left as it was. *)
Theorem stake_below_minimum st pid p amt uid uuid now date_now :
  pools st !! pid = Some p ->
  nlt (Fin 0) amt = true ->
  nlt amt (minStake p) = true ->
  stakeTokens pid amt uid uuid now date_now st
  = (mkResponse 400 (MinimumStake (minStake p)), st).
Proof.
  intros Hp Hpos Hmin. unfold stakeTokens. run_handler.
  apply stake_guard_spec in Hpos. rewrite Hpos, Hp. simpl. rewrite Hmin.
  reflexivity.
Qed.

Lemma stake_below_minimum_witness :
  stakeTokens 0 (Fin (1 # 2)) alice "tx1" 5 5 db_B
  = (mkResponse 400 (MinimumStake (Fin 1)), db_B).
Proof.
  apply (stake_below_minimum db_B 0%nat pool_B); reflexivity.
Defined.

(** ** Same-value comparison *)

Lemma num_eq_refl (x : num) : (x =n= x)%num.
Proof. destruct x; simpl; auto. reflexivity. Qed.

Lemma num_eq_sym (x y : num) : (x =n= y)%num -> (y =n= x)%num.
Proof. destruct x, y; simpl; auto. intros H; symmetry; exact H. Qed.

Lemma num_eq_trans (x y z : num) :
  (x =n= y)%num -> (y =n= z)%num -> (x =n= z)%num.
Proof.
  destruct x, y, z; simpl; auto; try contradiction.
  intros H1 H2. rewrite H1. exact H2.
Qed.

#[export] Instance num_eq_equiv : Equivalence num_eq.
Proof.
  split; [exact num_eq_refl | exact num_eq_sym | exact num_eq_trans].
Qed.

Lemma Qle_bool_comp (a a' b b' : Q) :
  a == a' -> b == b' -> Qle_bool a b = Qle_bool a' b'.
Proof.
  intros Ha Hb. destruct (Qle_bool a b) eqn:E; symmetry.
  - apply Qle_bool_iff in E. apply Qle_bool_iff. lra.
  - apply Qle_bool_false in E. apply Qle_bool_false. lra.
Qed.

Lemma Qeq_bool_comp (a a' b b' : Q) :
  a == a' -> b == b' -> Qeq_bool a b = Qeq_bool a' b'.
Proof.
  intros Ha Hb. destruct (Qeq_bool a b) eqn:E; symmetry.
  - apply Qeq_bool_iff in E. apply Qeq_bool_iff. lra.
  - apply Qeq_bool_false in E. apply Qeq_bool_false. lra.
Qed.

Lemma num_sign_comp (x y : num) :
  (x =n= y)%num -> num_sign x = num_sign y.
Proof.
  destruct x, y; simpl; try contradiction; auto.
  intros H. rewrite H. reflexivity.
Qed.

Lemma inf_of_sign_refl (c : comparison) :
  (inf_of_sign c =n= inf_of_sign c)%num.
Proof. reflexivity. Qed.

#[export] Instance nmul_proper : Proper (num_eq ==> num_eq ==> num_eq) nmul.
Proof.
  intros x x' Hx y y' Hy.
  destruct x, x'; simpl in Hx; try contradiction;
    destruct y, y'; simpl in Hy; try contradiction; simpl; auto;
    try reflexivity.
  - rewrite Hy. reflexivity.
  - rewrite Hy. reflexivity.
  - rewrite Hx. reflexivity.
  - rewrite Hx. reflexivity.
  - rewrite Hx, Hy. reflexivity.
Qed.

#[export] Instance nadd_proper : Proper (num_eq ==> num_eq ==> num_eq) nadd.
Proof.
  intros x x' Hx y y' Hy.
  destruct x, x'; simpl in Hx; try contradiction;
    destruct y, y'; simpl in Hy; try contradiction; simpl; auto.
  rewrite Hx, Hy. reflexivity.
Qed.

Lemma nlt_comp (x x' y y' : num) :
  (x =n= x')%num -> (y =n= y')%num -> nlt x y = nlt x' y'.
Proof.
  destruct x, x'; simpl; try contradiction;
    destruct y, y'; simpl; try contradiction; auto.
  intros Hx Hy. unfold Qlt_bool. f_equal. apply Qle_bool_comp; assumption.
Qed.

Lemma toFixedQ_comp (d : nat) (q q' : Q) :
  q == q' -> toFixedQ d q == toFixedQ d q'.
Proof.
  intros H. unfold toFixedQ, round_to, round_half_up.
  assert (Ha : Qabs q == Qabs q') by (rewrite H; reflexivity).
  rewrite (Qle_bool_comp (pow10 21) (pow10 21) (Qabs q) (Qabs q'))
    by (try reflexivity; exact Ha).
  rewrite (Qle_bool_comp 0 0 q q') by (try reflexivity; exact H).
  destruct (Qle_bool (pow10 21) (Qabs q')); [exact H |].
  destruct (Qle_bool 0 q').
  - rewrite (Qfloor_comp (q * pow10 d + (1 # 2)) (q' * pow10 d + (1 # 2)))
      by (rewrite H; reflexivity).
    reflexivity.
  - rewrite (Qfloor_comp (- q * pow10 d + (1 # 2))
                         (- q' * pow10 d + (1 # 2)))
      by (rewrite H; reflexivity).
    reflexivity.
Qed.

#[export] Instance parseFloat_toFixed_proper (d : nat) :
  Proper (num_eq ==> num_eq) (parseFloat_toFixed d).
Proof.
  intros x y H. destruct x, y; simpl in *; try contradiction; auto.
  apply toFixedQ_comp. exact H.
Qed.

(** ** Signs of products and quotients *)






(** ** Rounding *)





(** ** The reward calculation *)

Lemma find_ext {A} (f g : A -> bool) (l : list A) :
  (forall x, f x = g x) -> List.find f l = List.find g l.
Proof.
  intros H. induction l as [| a l IH]; simpl; [reflexivity |].
  rewrite H, IH. reflexivity.
Qed.

Lemma stake_filter_found (tid uid : string) (l : list Transaction)
    (s : Transaction) :
  List.find (stake_filter tid uid) l = Some s ->
  In s l /\ transactionId s = tid /\ is_stake s = true /\ userId s = uid.
Proof.
  intros H. apply find_some in H. destruct H as [Hin Hf].
  unfold stake_filter, has_transactionId in Hf.
  apply andb_true_iff in Hf. destruct Hf as [Hf Hu].
  apply andb_true_iff in Hf. destruct Hf as [Ht Hs].
  apply String.eqb_eq in Ht, Hu. auto.
Qed.

Lemma closing_filter_references (s t : Transaction) :
  closing_filter (transactionId s) t = references s t.
Proof. unfold closing_filter, references, is_unstake. apply andb_comm. Qed.

(** ** Pool administration *)

Lemma str_truthy_Some (n : string) : n <> "" -> str_truthy (Some n) = true.
Proof.
  intros H. simpl. apply negb_true_iff. apply String.eqb_neq. exact H.
Qed.

(** Every pool document reads [undefined] at [stakerCount]: the schema has
    no such path. *)
Lemma pool_has_no_stakerCount (p : Pool) :
  pool_get p "stakerCount" = JUndefined.
Proof. reflexivity. Qed.

(** C7, as the code has it.  [createPool] answers [400 Name, type and APY
    are required] when the name, the type or the APY is missing.  When the
    name and the type are non-empty strings and the APY is a number other
    than zero, it answers [201] and stores a new pool with these three
    values, with [minStake = 0.1] and [lockPeriod = 0] when the request
    does not carry them, with [totalStaked = 0] and [liquidity = 0]; the
    pool has no [stakerCount]. *)
Theorem createPool_spec cfg now st :
  (cfg_name cfg = None \/ cfg_type cfg = None \/ cfg_apy cfg = None ->
   createPool cfg now st
   = (mkResponse 400 (Message "Name, type and APY are required"), st))
  /\ (forall n t a,
        cfg_name cfg = Some n -> n <> "" ->
        cfg_type cfg = Some t -> t <> "" ->
        cfg_apy cfg = Some a -> truthy a = true ->
        exists pool,
          createPool cfg now st
          = (mkResponse 201 (WithPool "Pool created successfully" pool),
             mkState (<[next_oid st := pool]> (pools st))
                     (S (next_oid st)) (transactions st) (users st))
          /\ name pool = n /\ pool_type pool = t /\ apy pool = a
          /\ (cfg_minStake cfg = None -> minStake pool = Fin (1 # 10))
          /\ (cfg_lockPeriod cfg = None -> lockPeriod pool = Fin 0)
          /\ totalStaked pool = Some (Fin 0)
          /\ liquidity pool = Fin 0
          /\ pool_get pool "stakerCount" = JUndefined).
Proof.
  split.
  - intros H. unfold createPool. run_handler.
    destruct H as [H | [H | H]]; rewrite H; simpl;
      rewrite ?orb_true_r; reflexivity.
  - intros n t a Hn Hn' Ht Ht' Ha Ha'.
    eexists. split.
    + unfold createPool. run_handler. rewrite Hn, Ht, Ha.
      rewrite (str_truthy_Some n Hn'), (str_truthy_Some t Ht'). simpl.
      rewrite Ha'. simpl. reflexivity.
    + simpl. repeat split.
      * intros E. rewrite E. reflexivity.
      * intros E. rewrite E. reflexivity.
Qed.

Lemma createPool_spec_witness :
  createPool cfg_no_name 0 empty_db
  = (mkResponse 400 (Message "Name, type and APY are required"), empty_db)
  /\ exists pool,
       createPool cfg_required 0 empty_db
       = (mkResponse 201 (WithPool "Pool created successfully" pool),
          mkState (<[0%nat := pool]> ∅) 1 [] ∅)
       /\ name pool = "P" /\ pool_type pool = "basic"
       /\ apy pool = Fin (78 # 10)
       /\ (cfg_minStake cfg_required = None ->
           minStake pool = Fin (1 # 10))
       /\ (cfg_lockPeriod cfg_required = None -> lockPeriod pool = Fin 0)
       /\ totalStaked pool = Some (Fin 0)
       /\ liquidity pool = Fin 0
       /\ pool_get pool "stakerCount" = JUndefined.
Proof.
  split.
  - apply (proj1 (createPool_spec cfg_no_name 0 empty_db)).
    left. reflexivity.
  - apply (proj2 (createPool_spec cfg_required 0 empty_db)
                 "P" "basic" (Fin (78 # 10))).
    + reflexivity.
    + discriminate.
    + reflexivity.
    + discriminate.
    + reflexivity.
    + reflexivity.
Defined.

(** C7 as stated fails twice: an APY that is present and is zero is
    refused, and the pool that a successful call stores has no
    [stakerCount], so that path does not read [0]. *)
Lemma createPool_claim_fails :
  cfg_apy cfg_zero_apy = Some (Fin 0)
  /\ createPool cfg_zero_apy 0 empty_db
     = (mkResponse 400 (Message "Name, type and APY are required"),
        empty_db)
  /\ status (fst (createPool cfg_P 0 empty_db)) = 201%Z
  /\ (exists p,
        pools (snd (createPool cfg_P 0 empty_db)) !! 0%nat = Some p
        /\ pool_get p "stakerCount" = JUndefined
        /\ pool_get p "stakerCount" <> JNum (Fin 0)).
Proof.
  split; [reflexivity |]. split; [reflexivity |]. split; [reflexivity |].
  eexists. split; [vm_compute; reflexivity |].
  split; [reflexivity | discriminate].
Qed.

(** C8, where the code departs from it.  The repository's own
    [isValidAmount] refuses an infinite amount, but [depositToPool] admits
    it and the liquidity of the pool becomes infinite; [withdrawFromPool]
    answers it with the liquidity error, not with the amount error. *)
Theorem deposit_infinite_amount :
  isValidAmount PInf = false
  /\ depositToPool 0 PInf "admin" "tx1" 5 db_B
     = (mkResponse 200
          (WithTransaction "Deposit successful"
             (mkTransaction "tx1" None deposit PInf 5 "admin" 0 None)
             (set_liquidity pool_B PInf)),
        mkState {[ 0%nat := set_liquidity pool_B PInf ]} 1
                [mkTransaction "tx1" None deposit PInf 5 "admin" 0 None]
                {[ alice ]})
  /\ withdrawFromPool 0 PInf "admin" "tx1" 5 db_B
     = (mkResponse 400 (Message "Insufficient liquidity in pool"), db_B).
Proof.
  split; [reflexivity | split].
  - unfold depositToPool, db_B. run_handler. rewrite lookup_singleton_eq.
    simpl. rewrite insert_singleton_eq. reflexivity.
  - unfold withdrawFromPool, db_B. run_handler. rewrite lookup_singleton_eq.
    reflexivity.
Qed.

(** ** The reward as a function of amount, APY and time *)



















Lemma calculateRewards_found st tid uid now s p :
  List.find (stake_filter tid uid) (transactions st) = Some s ->
  pools st !! poolId s = Some p ->
  let closing := List.find (references s) (transactions st) in
  let days :=
    stakingDurationDays (timestamp s)
      (match closing with Some u => timestamp u | None => now end) in
  calculateRewards tid uid now st
  = (mkResponse 200
       (Rewards "Rewards calculated successfully" (amount s)
          (parseFloat_toFixed 2 days) (apy p)
          (parseFloat_toFixed 6 (rewards_of (amount s) (apy p) days))
          (bool_decide (is_Some closing))), st).
Proof.
  intros Hs Hp closing days.
  destruct (stake_filter_found _ _ _ _ Hs) as (_ & Htid & _ & _).
  unfold calculateRewards. run_handler. rewrite Hs. simpl. rewrite Hp.
  rewrite (find_ext (closing_filter tid) (references s))
    by (intros t; rewrite <- Htid; apply closing_filter_references).
  reflexivity.
Qed.




(** ** Lists of events *)

Lemma qsum_app (l l' : list Transaction) : qsum (l ++ l') == qsum l + qsum l'.
Proof.
  induction l as [| t l IH]; simpl; [ring |]. rewrite IH. ring.
Qed.

Lemma qsum_perm (l l' : list Transaction) :
  Permutation l l' -> qsum l == qsum l'.
Proof.
  induction 1; simpl.
  - reflexivity.
  - rewrite IHPermutation. reflexivity.
  - ring.
  - rewrite IHPermutation1. exact IHPermutation2.
Qed.

Lemma filter_none {A} (f : A -> bool) (l : list A) :
  (forall x, In x l -> f x = false) -> List.filter f l = [].
Proof.
  induction l as [| a l IH]; simpl; intros H; [reflexivity |].
  rewrite (H a) by (left; reflexivity).
  apply IH. intros x Hx. apply H. right. exact Hx.
Qed.

Lemma existsb_false {A} (f : A -> bool) (l : list A) :
  existsb f l = false <-> forall x, In x l -> f x = false.
Proof.
  split.
  - intros H x Hx. destruct (f x) eqn:E; [| reflexivity].
    assert (existsb f l = true) by (apply existsb_exists; eauto).
    congruence.
  - intros H. destruct (existsb f l) eqn:E; [| reflexivity].
    apply existsb_exists in E. destruct E as (x & Hx & Hf).
    rewrite (H x Hx) in Hf. discriminate.
Qed.

(** Taking one element out of a filtered list without repetitions. *)
Lemma filter_remove_one {A} (p h : A -> bool) (x0 : A) (l : list A) :
  List.NoDup l -> In x0 l -> p x0 = true ->
  (forall x, In x l -> (h x = true <-> x = x0)) ->
  Permutation (List.filter p l)
              (x0 :: List.filter (fun x => p x && negb (h x)) l).
Proof.
  induction l as [| a l IH]; intros Hnd Hin Hp Hh; [destruct Hin |].
  inversion Hnd as [| ? ? Hnotin Hnd']; subst.
  assert (Hrest : forall x, In x l -> (h x = true <-> x = x0))
    by (intros x Hx; apply Hh; right; exact Hx).
  destruct (Hh a (or_introl eq_refl)) as [Ha1 Ha2].
  simpl. destruct (h a) eqn:Eh.
  - assert (a = x0) by (apply Ha1; reflexivity). subst a.
    rewrite Hp. simpl. apply Permutation_cons; [reflexivity |].
    rewrite (filter_ext_in (fun x => p x && negb (h x)) p); [reflexivity |].
    intros x Hx. destruct (h x) eqn:Ex; [| apply andb_true_r].
    apply Hrest in Ex; [| exact Hx]. subst x. contradiction.
  - assert (Hne : a <> x0) by (intros E; apply Ha2 in E; congruence).
    destruct Hin as [E | Hin]; [contradiction |].
    specialize (IH Hnd' Hin Hp Hrest).
    destruct (p a); simpl.
    + rewrite IH. apply perm_swap.
    + exact IH.
Qed.

Lemma NoDup_of_map {A B} (f : A -> B) (l : list A) :
  List.NoDup (map f l) -> List.NoDup l.
Proof. apply NoDup_map_inv. Qed.

Lemma NoDup_map_eq {A B} (f : A -> B) (l : list A) (x y : A) :
  List.NoDup (map f l) -> In x l -> In y l -> f x = f y -> x = y.
Proof.
  induction l as [| a l IH]; simpl; intros Hnd Hx Hy E; [destruct Hx |].
  inversion Hnd as [| ? ? Hnotin Hnd']; subst.
  destruct Hx as [Hx | Hx], Hy as [Hy | Hy]; subst.
  - reflexivity.
  - exfalso. apply Hnotin. rewrite E. apply in_map. exact Hy.
  - exfalso. apply Hnotin. rewrite <- E. apply in_map. exact Hx.
  - apply IH; assumption.
Qed.

Lemma NoDup_snoc {A} (l : list A) (a : A) :
  List.NoDup l -> ~ In a l -> List.NoDup (l ++ [a]).
Proof.
  intros Hl Ha. apply List.NoDup_app.
  - exact Hl.
  - constructor; [simpl; tauto | constructor].
  - intros x Hx [E | []]. subst. contradiction.
Qed.

(** ** Appending one event to a well-formed ledger *)


Lemma fresh_id_spec (i : string) (l : list Transaction) :
  fresh_id i l <-> ~ In i (map transactionId l).
Proof.
  unfold fresh_id. rewrite existsb_false. split.
  - intros H Hin. apply in_map_iff in Hin. destruct Hin as (t & E & Ht).
    specialize (H t Ht). unfold has_transactionId in H.
    apply String.eqb_neq in H. contradiction.
  - intros H t Ht. unfold has_transactionId. apply String.eqb_neq.
    intros E. apply H. rewrite <- E. apply in_map. exact Ht.
Qed.

Lemma is_stake_not_unstake (t : Transaction) :
  is_stake t = true -> is_unstake t = false.
Proof. unfold is_stake, is_unstake. destruct (type t); simpl; congruence. Qed.

Lemma references_spec (s u : Transaction) :
  references s u = true
  <-> is_unstake u = true
      /\ originalTransactionId u = Some (transactionId s).
Proof.
  unfold references. rewrite andb_true_iff.
  destruct (originalTransactionId u) as [i |]; simpl.
  - rewrite String.eqb_eq. split; intros [H1 H2]; split; congruence.
  - split; intros [H1 H2]; congruence.
Qed.

Lemma references_same_id (s s' u : Transaction) :
  references s u = true -> references s' u = true ->
  transactionId s = transactionId s'.
Proof.
  rewrite !references_spec. intros [_ E1] [_ E2]. congruence.
Qed.

Lemma references_by_id (s s' u : Transaction) :
  transactionId s = transactionId s' -> references s u = references s' u.
Proof. unfold references. intros E. rewrite E. reflexivity. Qed.

(** Nothing in a well-formed ledger references an event whose id the
    ledger does not hold. *)
Lemma fresh_unreferenced (l : list Transaction) (s u : Transaction) :
  ledger_wf l -> fresh_id (transactionId s) l -> In u l ->
  references s u = false.
Proof.
  intros Hwf Hfresh Hu. destruct (references s u) eqn:E; [| reflexivity].
  apply references_spec in E. destruct E as [Hun Ho].
  destruct (wf_refs l Hwf u Hu Hun) as (s' & Hs' & _ & Ho' & _).
  apply fresh_id_spec in Hfresh. exfalso. apply Hfresh.
  assert (transactionId s = transactionId s') by congruence.
  rewrite H. apply in_map. exact Hs'.
Qed.

Lemma stakes_of_snoc (pid : nat) (l : list Transaction) (t : Transaction) :
  stakes_of pid (l ++ [t])
  = (stakes_of pid l
     ++ (if is_stake t && Nat.eqb (poolId t) pid then [t] else []))%list.
Proof.
  unfold stakes_of. rewrite List.filter_app. simpl.
  destruct (is_stake t && Nat.eqb (poolId t) pid); reflexivity.
Qed.

Lemma stakes_of_In (pid : nat) (l : list Transaction) (s : Transaction) :
  In s (stakes_of pid l)
  <-> In s l /\ is_stake s = true /\ poolId s = pid.
Proof.
  unfold stakes_of. rewrite List.filter_In, andb_true_iff, Nat.eqb_eq. tauto.
Qed.

Lemma is_open_snoc (l : list Transaction) (t x : Transaction) :
  is_open (l ++ [t]) x = is_open l x && negb (references x t).
Proof.
  unfold is_open. rewrite existsb_app. simpl.
  rewrite orb_false_r, negb_orb. reflexivity.
Qed.

Lemma is_open_spec (l : list Transaction) (s : Transaction) :
  is_open l s = true <-> forall u, In u l -> references s u = false.
Proof.
  unfold is_open. rewrite negb_true_iff. apply existsb_false.
Qed.

(** *** An event that is neither a stake nor an unstake *)

Lemma stakes_of_snoc_other pid l t :
  is_stake t = false -> stakes_of pid (l ++ [t]) = stakes_of pid l.
Proof.
  intros H. rewrite stakes_of_snoc, H. simpl. apply app_nil_r.
Qed.

Lemma not_unstake_unreferencing (s t : Transaction) :
  is_unstake t = false -> references s t = false.
Proof. intros H. unfold references. rewrite H. reflexivity. Qed.

Lemma unstakes_of_snoc_other pid l t :
  is_stake t = false -> is_unstake t = false ->
  unstakes_of pid (l ++ [t]) = unstakes_of pid l.
Proof.
  intros Hs Hu. unfold unstakes_of. rewrite stakes_of_snoc_other by exact Hs.
  rewrite List.filter_app. simpl.
  rewrite (proj2 (existsb_false _ _)).
  - apply app_nil_r.
  - intros s _. apply not_unstake_unreferencing. exact Hu.
Qed.

Lemma open_stakes_snoc_other pid l t :
  is_stake t = false -> is_unstake t = false ->
  open_stakes pid (l ++ [t]) = open_stakes pid l.
Proof.
  intros Hs Hu. unfold open_stakes. rewrite stakes_of_snoc_other by exact Hs.
  apply List.filter_ext. intros x. rewrite is_open_snoc.
  rewrite (not_unstake_unreferencing x t Hu). apply andb_true_r.
Qed.

(** *** A stake event with a fresh id *)

Lemma unstakes_of_snoc_stake pid l s :
  ledger_wf l -> fresh_id (transactionId s) l -> is_stake s = true ->
  unstakes_of pid (l ++ [s]) = unstakes_of pid l.
Proof.
  intros Hwf Hfresh Hs. unfold unstakes_of. rewrite List.filter_app. simpl.
  rewrite (proj2 (existsb_false _ (stakes_of pid (l ++ [s])))).
  - rewrite app_nil_r. apply List.filter_ext_in. intros u Hu.
    rewrite stakes_of_snoc, existsb_app.
    destruct (is_stake s && Nat.eqb (poolId s) pid); simpl.
    + rewrite (fresh_unreferenced l s u Hwf Hfresh Hu).
      rewrite !orb_false_r. reflexivity.
    + apply orb_false_r.
  - intros x _. apply not_unstake_unreferencing.
    apply is_stake_not_unstake. exact Hs.
Qed.

Lemma open_stakes_snoc_stake pid l s :
  ledger_wf l -> fresh_id (transactionId s) l -> is_stake s = true ->
  open_stakes pid (l ++ [s])
  = (open_stakes pid l
     ++ (if Nat.eqb (poolId s) pid then [s] else []))%list.
Proof.
  intros Hwf Hfresh Hs. unfold open_stakes.
  rewrite stakes_of_snoc, Hs, List.filter_app. simpl. f_equal.
  - apply List.filter_ext. intros x. rewrite is_open_snoc.
    rewrite (not_unstake_unreferencing x s (is_stake_not_unstake s Hs)).
    apply andb_true_r.
  - destruct (Nat.eqb (poolId s) pid); [| reflexivity]. simpl.
    rewrite is_open_snoc.
    rewrite (not_unstake_unreferencing s s (is_stake_not_unstake s Hs)).
    rewrite (proj2 (is_open_spec l s)); [reflexivity |].
    intros u Hu. apply (fresh_unreferenced l s u Hwf Hfresh Hu).
Qed.

(** *** An unstake event that closes an open stake of the ledger *)

Section Closing.
Variables (l : list Transaction) (s0 u : Transaction).
Hypothesis Hwf : ledger_wf l.
Hypothesis Hs0 : In s0 l.
Hypothesis Hstake : is_stake s0 = true.
Hypothesis Hun : is_unstake u = true.
Hypothesis Horig : originalTransactionId u = Some (transactionId s0).

Lemma closing_references : references s0 u = true.
Proof. apply references_spec. split; assumption. Qed.

Lemma closing_not_stake : is_stake u = false.
Proof.
  unfold is_stake, is_unstake in *. destruct (type u); simpl in *; congruence.
Qed.

Lemma closing_references_only (x : Transaction) :
  In x l -> (references x u = true <-> x = s0).
Proof.
  intros Hx. split.
  - intros H. apply (NoDup_map_eq transactionId l x s0);
      [apply (wf_ids l Hwf) | exact Hx | exact Hs0 |].
    apply (references_same_id x s0 u H closing_references).
  - intros E. subst x. apply closing_references.
Qed.

Lemma unstakes_of_snoc_unstake (pid : nat) :
  unstakes_of pid (l ++ [u])
  = (unstakes_of pid l
     ++ (if Nat.eqb (poolId s0) pid then [u] else []))%list.
Proof.
  unfold unstakes_of.
  rewrite (stakes_of_snoc_other pid l u closing_not_stake).
  rewrite List.filter_app. simpl. f_equal.
  destruct (Nat.eqb_spec (poolId s0) pid) as [E | NE].
  - rewrite (proj2 (existsb_exists _ _)); [reflexivity |].
    exists s0. split; [| apply closing_references].
    apply stakes_of_In. auto.
  - rewrite (proj2 (existsb_false _ _)); [reflexivity |].
    intros x Hx. apply stakes_of_In in Hx. destruct Hx as (Hx & _ & Hp).
    destruct (references x u) eqn:R; [| reflexivity].
    apply (closing_references_only x Hx) in R. subst x. contradiction.
Qed.

Lemma open_stakes_snoc_unstake_other (pid : nat) :
  poolId s0 <> pid -> open_stakes pid (l ++ [u]) = open_stakes pid l.
Proof.
  intros NE. unfold open_stakes.
  rewrite (stakes_of_snoc_other pid l u closing_not_stake).
  apply List.filter_ext_in. intros x Hx. rewrite is_open_snoc.
  apply stakes_of_In in Hx. destruct Hx as (Hx & _ & Hp).
  destruct (references x u) eqn:R; [| apply andb_true_r].
  apply (closing_references_only x Hx) in R. subst x. contradiction.
Qed.

Hypothesis Hopen : is_open l s0 = true.

Lemma open_stakes_snoc_unstake_same :
  Permutation (open_stakes (poolId s0) l)
              (s0 :: open_stakes (poolId s0) (l ++ [u])).
Proof.
  unfold open_stakes.
  rewrite (stakes_of_snoc_other (poolId s0) l u closing_not_stake).
  rewrite (List.filter_ext (is_open (l ++ [u]))
             (fun x => is_open l x && negb (references x u)))
    by (intros x; apply is_open_snoc).
  apply filter_remove_one.
  - apply List.NoDup_filter. apply (NoDup_map_inv transactionId).
    apply (wf_ids l Hwf).
  - apply stakes_of_In. auto.
  - exact Hopen.
  - intros x Hx. apply closing_references_only.
    apply stakes_of_In in Hx. tauto.
Qed.
End Closing.

Lemma in_closed_ids (i : string) (l : list Transaction) :
  In i (closed_ids l)
  <-> exists u, In u l /\ is_unstake u = true
                /\ originalTransactionId u = Some i.
Proof.
  unfold closed_ids. rewrite in_flat_map. split.
  - intros (u & Hu & Hi). exists u. split; [exact Hu |].
    destruct (is_unstake u); [| destruct Hi].
    destruct (originalTransactionId u) as [j |]; [| destruct Hi].
    destruct Hi as [E | []]. subst. auto.
  - intros (u & Hu & Hun & Ho). exists u. split; [exact Hu |].
    rewrite Hun, Ho. left. reflexivity.
Qed.

Lemma closed_ids_snoc (l : list Transaction) (t : Transaction) :
  closed_ids (l ++ [t])
  = (closed_ids l
     ++ (if is_unstake t
         then match originalTransactionId t with
              | Some i => [i]
              | None => []
              end
         else []))%list.
Proof.
  unfold closed_ids. rewrite flat_map_app. simpl. rewrite app_nil_r.
  reflexivity.
Qed.

Lemma open_not_closed (l : list Transaction) (s : Transaction) :
  is_open l s = true -> ~ In (transactionId s) (closed_ids l).
Proof.
  intros Hopen Hin. apply in_closed_ids in Hin.
  destruct Hin as (u & Hu & Hun & Ho).
  assert (R : references s u = true) by (apply references_spec; auto).
  rewrite (proj1 (is_open_spec l s) Hopen u Hu) in R. discriminate.
Qed.

Lemma qamount_eq (t t' : Transaction) :
  amount t = amount t' -> qamount t = qamount t'.
Proof. unfold qamount. intros E. rewrite E. reflexivity. Qed.

Lemma ids_snoc (l : list Transaction) (t : Transaction) :
  List.NoDup (map transactionId l) -> fresh_id (transactionId t) l ->
  List.NoDup (map transactionId (l ++ [t])).
Proof.
  intros Hnd Hf. rewrite map_app. simpl. apply NoDup_snoc; [exact Hnd |].
  apply fresh_id_spec. exact Hf.
Qed.

(** The three ways the controllers extend the ledger keep it well formed. *)
Lemma ledger_wf_snoc_other (l : list Transaction) (t : Transaction) :
  ledger_wf l -> fresh_id (transactionId t) l ->
  is_stake t = false -> is_unstake t = false ->
  ledger_wf (l ++ [t]).
Proof.
  intros Hwf Hf Hs Hu. split.
  - apply ids_snoc; [apply (wf_ids l Hwf) | exact Hf].
  - intros x Hx Hxu. apply in_app_iff in Hx. destruct Hx as [Hx | [E | []]].
    + destruct (wf_refs l Hwf x Hx Hxu) as (s & Hin & H).
      exists s. split; [apply in_app_iff; left; exact Hin | exact H].
    + subst x. congruence.
  - rewrite closed_ids_snoc, Hu, app_nil_r. apply (wf_once l Hwf).
  - intros x Hx Hxs. apply in_app_iff in Hx. destruct Hx as [Hx | [E | []]].
    + apply (wf_amounts l Hwf x Hx Hxs).
    + subst x. congruence.
  - intros pid. rewrite (stakes_of_snoc_other pid l t Hs).
    rewrite (unstakes_of_snoc_other pid l t Hs Hu).
    rewrite (open_stakes_snoc_other pid l t Hs Hu).
    apply (wf_sums l Hwf).
Qed.

Lemma ledger_wf_snoc_stake (l : list Transaction) (s : Transaction) (q : Q) :
  ledger_wf l -> fresh_id (transactionId s) l ->
  is_stake s = true -> amount s = Fin q -> 0 < q ->
  ledger_wf (l ++ [s]).
Proof.
  intros Hwf Hf Hs Ha Hq.
  pose proof (is_stake_not_unstake s Hs) as Hu. split.
  - apply ids_snoc; [apply (wf_ids l Hwf) | exact Hf].
  - intros x Hx Hxu. apply in_app_iff in Hx. destruct Hx as [Hx | [E | []]].
    + destruct (wf_refs l Hwf x Hx Hxu) as (s' & Hin & H).
      exists s'. split; [apply in_app_iff; left; exact Hin | exact H].
    + subst x. congruence.
  - rewrite closed_ids_snoc, Hu, app_nil_r. apply (wf_once l Hwf).
  - intros x Hx Hxs. apply in_app_iff in Hx. destruct Hx as [Hx | [E | []]].
    + apply (wf_amounts l Hwf x Hx Hxs).
    + subst x. exists q. auto.
  - intros pid. rewrite (stakes_of_snoc pid l s), Hs.
    rewrite (unstakes_of_snoc_stake pid l s Hwf Hf Hs).
    rewrite (open_stakes_snoc_stake pid l s Hwf Hf Hs). simpl.
    rewrite !qsum_app. pose proof (wf_sums l Hwf pid) as E.
    destruct (Nat.eqb (poolId s) pid); simpl; lra.
Qed.

Lemma ledger_wf_snoc_unstake (l : list Transaction) (s0 u : Transaction) :
  ledger_wf l -> fresh_id (transactionId u) l ->
  In s0 l -> is_stake s0 = true -> is_open l s0 = true ->
  is_unstake u = true ->
  originalTransactionId u = Some (transactionId s0) ->
  userId u = userId s0 -> poolId u = poolId s0 -> amount u = amount s0 ->
  ledger_wf (l ++ [u]).
Proof.
  intros Hwf Hf Hs0 Hstake Hopen Hun Horig Huser Hpool Hamt.
  assert (Hns : is_stake u = false) by (apply closing_not_stake; exact Hun).
  split.
  - apply ids_snoc; [apply (wf_ids l Hwf) | exact Hf].
  - intros x Hx Hxu. apply in_app_iff in Hx. destruct Hx as [Hx | [E | []]].
    + destruct (wf_refs l Hwf x Hx Hxu) as (s' & Hin & H).
      exists s'. split; [apply in_app_iff; left; exact Hin | exact H].
    + subst x. exists s0. split; [apply in_app_iff; left; exact Hs0 |].
      auto.
  - rewrite closed_ids_snoc, Hun, Horig. apply NoDup_snoc.
    + apply (wf_once l Hwf).
    + apply open_not_closed. exact Hopen.
  - intros x Hx Hxs. apply in_app_iff in Hx. destruct Hx as [Hx | [E | []]].
    + apply (wf_amounts l Hwf x Hx Hxs).
    + subst x. congruence.
  - intros pid. rewrite (stakes_of_snoc_other pid l u Hns).
    rewrite (unstakes_of_snoc_unstake l s0 u) by assumption.
    pose proof (wf_sums l Hwf pid) as E.
    destruct (Nat.eqb_spec (poolId s0) pid) as [Ep | NE].
    + subst pid.
      assert (P : qsum (open_stakes (poolId s0) l)
                  == qsum (s0 :: open_stakes (poolId s0) (l ++ [u])))
        by (apply qsum_perm, (open_stakes_snoc_unstake_same l s0 u);
            assumption).
      simpl in P. rewrite qsum_app. simpl.
      rewrite (qamount_eq u s0 Hamt). lra.
    + rewrite (open_stakes_snoc_unstake_other l s0 u) by assumption.
      rewrite app_nil_r. exact E.
Qed.

Ltac refused :=
  left; split; [unfold admitted; simpl; discriminate | reflexivity].

Lemma opt_or_not_NaN (o : option num) (d : num) :
  isNaN d = false -> isNaN (opt_or o d) = false.
Proof.
  intros Hd. destruct o as [x |]; simpl; [| exact Hd].
  unfold num_or. destruct (truthy x) eqn:T; [| exact Hd].
  destruct x; simpl in *; congruence.
Qed.

Lemma sum_not_NaN (x y : num) :
  isNaN x = false -> is_finite y = true -> isNaN (nadd x y) = false.
Proof. destruct x, y; simpl; congruence. Qed.

(** The sum that [stakeTokens] assigns passes the cast when the amount is
    finite. *)
Lemma stake_total_cast (o : option num) (amt : num) :
  is_finite amt = true ->
  cast_Number (nadd (opt_or o (Fin 0)) amt)
  = Some (nadd (opt_or o (Fin 0)) amt).
Proof.
  intros Hf. unfold cast_Number. cbn [to_Number].
  rewrite sum_not_NaN; [reflexivity | | exact Hf].
  apply opt_or_not_NaN. reflexivity.
Qed.

Lemma stakeTokens_cases pid (amt : num) uid uuid now date_now st :
  is_finite amt = true ->
  let r := stakeTokens pid amt uid uuid now date_now st in
  (~ admitted r /\ snd r = st)
  \/ exists p unlock,
       pools st !! pid = Some p
       /\ nlt (Fin 0) amt = true
       /\ nlt amt (minStake p) = false
       /\ uid ∈ users st
       /\ stake_unlockTime p date_now = Some unlock
       /\ fresh_id uuid (transactions st)
       /\ let transaction :=
            mkTransaction uuid None stake amt now uid pid unlock in
          let pool' :=
            set_totalStaked p (nadd (opt_or (totalStaked p) (Fin 0)) amt) in
          r = (mkResponse 200
                 (WithTransaction "Stake successful" transaction pool'),
               mkState (<[pid := pool']> (pools st)) (next_oid st)
                       (transactions st ++ [transaction]) (users st)).
Proof.
  intros Hfin r. unfold r, stakeTokens. run_handler.
  destruct (negb (truthy amt) || isNaN amt || nle amt (Fin 0)) eqn:G;
    [refused |].
  destruct (pools st !! pid) as [p |] eqn:Hp; [| refused]. simpl.
  destruct (nlt amt (minStake p)) eqn:Hmin; [refused |].
  destruct (is_ObjectId uid); [| refused].
  destruct (bool_decide (uid ∈ users st)) eqn:Hu; [| refused]. simpl.
  destruct (stake_unlockTime p date_now) as [unlock |] eqn:Hun; [| refused].
  destruct (existsb (has_transactionId uuid) (transactions st)) eqn:Hf;
    [refused |].
  rewrite (stake_total_cast _ amt Hfin). simpl.
  right. exists p, unlock. apply stake_guard_spec in G.
  apply bool_decide_eq_true in Hu. repeat split; auto.
Qed.

Lemma isNumeric_finite (x : num) : isNumeric x = true -> exists q, x = Fin q.
Proof. destruct x; try discriminate. eauto. Qed.

Lemma stake_route_cases pid (amt : num) body_poolId uid uuid now date_now
    st :
  let r := stake_route pid amt body_poolId uid uuid now date_now st in
  (~ admitted r /\ snd r = st)
  \/ (exists q, amt = Fin q /\ 0 < q)
     /\ r = stakeTokens pid amt uid uuid now date_now st
     /\ admitted r.
Proof.
  intros r. unfold r, stake_route, checkValidationResults, validateStaking.
  cbn [body_isNumeric].
  destruct (isNumeric amt) eqn:N; [| refused].
  destruct (str_truthy body_poolId); [| refused]. simpl.
  destruct (isNumeric_finite amt N) as [q Eq].
  assert (Hfin : is_finite amt = true) by (rewrite Eq; reflexivity).
  destruct (stakeTokens_cases pid amt uid uuid now date_now st Hfin)
    as [H | (p & unlock & _ & Hpos & _ & _ & _ & _ & E)]; [left; exact H |].
  right. cbv zeta in E. split; [| split; [reflexivity |]].
  - subst amt. exists q.
    split; [reflexivity |]. apply Qlt_bool_iff. exact Hpos.
  - rewrite E. reflexivity.
Qed.

Lemma unstakeTokens_cases tid uid uuid now_check now st :
  let r := unstakeTokens tid uid uuid now_check now st in
  (~ admitted r /\ snd r = st)
  \/ exists s p,
       List.find (stake_filter tid uid) (transactions st) = Some s
       /\ List.find (unstake_filter tid uid) (transactions st) = None
       /\ (forall unlock, unlockTime s = Some unlock ->
           (unlock <= now_check)%Z)
       /\ pools st !! poolId s = Some p
       /\ fresh_id uuid (transactions st)
       /\ let unstakeTransaction :=
            mkTransaction uuid (Some tid) unstake (amount s) now uid
                          (poolId s) None in
          let total :=
            nmax (Fin 0)
                 (nsub (opt_or (totalStaked p) (Fin 0)) (amount s)) in
          let pool' := set_totalStaked p total in
          (isNaN total = true
           /\ half_done "Server error during unstaking" unstakeTransaction
                r st)
          \/ (isNaN total = false
              /\ r = (mkResponse 200
                        (WithTransaction "Unstake successful"
                           unstakeTransaction pool'),
                      mkState (<[poolId s := pool']> (pools st))
                              (next_oid st)
                              (transactions st ++ [unstakeTransaction])
                              (users st))).
Proof.
  intros r. unfold r, unstakeTokens, half_done, cast_Number.
  cbn [to_Number]. run_handler.
  destruct (List.find (stake_filter tid uid) (transactions st))
    as [s |] eqn:Hs; [| refused]. simpl.
  destruct (List.find (unstake_filter tid uid) (transactions st))
    as [c |] eqn:Hc; [refused |]. simpl.
  destruct (unlockTime s) as [unlock |] eqn:Hun.
  - destruct (now_check <? unlock)%Z eqn:Hl; [refused |]. simpl.
    destruct (pools st !! poolId s) as [p |] eqn:Hp; [| refused].
    destruct (existsb (has_transactionId uuid) (transactions st)) eqn:Hf;
      [refused |].
    right. exists s, p.
    split; [reflexivity |]. split; [reflexivity |].
    split.
    { intros unlock' E. rewrite Hun in E. injection E as <-.
      apply Z.ltb_ge. exact Hl. }
    split; [exact Hp |]. split; [exact Hf |]. cbv zeta.
    match goal with
    | |- context [if isNaN ?x then _ else _] => destruct (isNaN x) eqn:En
    end; [left | right]; (split; reflexivity).
  - simpl.
    destruct (pools st !! poolId s) as [p |] eqn:Hp; [| refused].
    destruct (existsb (has_transactionId uuid) (transactions st)) eqn:Hf;
      [refused |].
    right. exists s, p.
    split; [reflexivity |]. split; [reflexivity |].
    split; [intros unlock' E; rewrite Hun in E; discriminate |].
    split; [exact Hp |]. split; [exact Hf |]. cbv zeta.
    match goal with
    | |- context [if isNaN ?x then _ else _] => destruct (isNaN x) eqn:En
    end; [left | right]; (split; reflexivity).
Qed.

(** ** The database stays well formed *)

Lemma opt_or_total (q : Q) :
  exists q', opt_or (Some (Fin q)) (Fin 0) = Fin q' /\ q' == q.
Proof.
  simpl. unfold num_or. simpl. destruct (Qeq_bool q 0) eqn:E; simpl.
  - exists 0. split; [reflexivity |]. apply Qeq_bool_iff in E.
    symmetry. exact E.
  - exists q. split; reflexivity.
Qed.

Lemma qsum_nonneg (l : list Transaction) :
  (forall t, In t l -> 0 <= qamount t) -> 0 <= qsum l.
Proof.
  induction l as [| a l IH]; simpl; intros H; [lra |].
  assert (0 <= qamount a) by (apply H; left; reflexivity).
  assert (0 <= qsum l) by (apply IH; intros t Ht; apply H; right; exact Ht).
  lra.
Qed.

Lemma open_stakes_In (pid : nat) (l : list Transaction) (s : Transaction) :
  In s (open_stakes pid l)
  <-> In s l /\ is_stake s = true /\ poolId s = pid /\ is_open l s = true.
Proof.
  unfold open_stakes. rewrite List.filter_In, stakes_of_In. tauto.
Qed.

Lemma open_sum_nonneg (pid : nat) (l : list Transaction) :
  ledger_wf l -> 0 <= qsum (open_stakes pid l).
Proof.
  intros Hwf. apply qsum_nonneg. intros t Ht.
  apply open_stakes_In in Ht. destruct Ht as (Hin & Hs & _).
  destruct (wf_amounts l Hwf t Hin Hs) as (q & E & Hq).
  unfold qamount. rewrite E. lra.
Qed.

(** A stake that [unstakeTokens] finds and for which it finds no unstake
    event is an open position. *)
Lemma found_stake_open (l : list Transaction) (tid uid : string)
    (s : Transaction) :
  ledger_wf l ->
  List.find (stake_filter tid uid) l = Some s ->
  List.find (unstake_filter tid uid) l = None ->
  is_open l s = true.
Proof.
  intros Hwf Hs Hnone.
  destruct (stake_filter_found _ _ _ _ Hs) as (Hin & Htid & Hst & Huid).
  apply is_open_spec. intros u Hu.
  destruct (references s u) eqn:R; [| reflexivity].
  apply references_spec in R. destruct R as [Hun Ho].
  destruct (wf_refs l Hwf u Hu Hun) as (s' & Hs' & _ & Ho' & Huser & _).
  assert (s' = s).
  { apply (NoDup_map_eq transactionId l); [apply (wf_ids l Hwf) | | |];
      try assumption. congruence. }
  subst s'.
  pose proof (find_none _ _ Hnone u Hu) as F.
  unfold is_unstake in Hun.
  unfold unstake_filter in F. rewrite Ho, Hun, Huser, Huid, Htid in F.
  simpl in F. rewrite !String.eqb_refl in F. discriminate.
Qed.

Lemma db_wf_users st us :
  db_wf st ->
  db_wf (mkState (pools st) (next_oid st) (transactions st) us).
Proof. intros [H1 H2 H3 H4]. split; assumption. Qed.

Lemma db_wf_delete st pid :
  db_wf st ->
  db_wf (mkState (delete pid (pools st)) (next_oid st) (transactions st)
                 (users st)).
Proof.
  intros [H1 H2 H3 H4]. split; simpl; try assumption.
  - intros i p Hp. apply lookup_delete_Some in Hp. apply (H2 i p), Hp.
  - intros i p Hp. apply lookup_delete_Some in Hp. apply (H4 i p), Hp.
Qed.

Lemma no_stakes_of_new_pool st :
  db_wf st -> open_stakes (next_oid st) (transactions st) = [].
Proof.
  intros H. unfold open_stakes, stakes_of.
  rewrite (filter_none _ (transactions st)); [reflexivity |].
  intros t Ht. pose proof (wf_tx_pools st H t Ht) as Hlt.
  destruct (Nat.eqb_spec (poolId t) (next_oid st)); [lia |].
  apply andb_false_r.
Qed.

Lemma db_wf_create st p :
  db_wf st -> totalStaked p = Some (Fin 0) ->
  db_wf (mkState (<[next_oid st := p]> (pools st)) (S (next_oid st))
                 (transactions st) (users st)).
Proof.
  intros H Hp. pose proof (no_stakes_of_new_pool st H) as Hnew.
  destruct H as [H1 H2 H3 H4]. split; simpl; try assumption.
  - intros i x Hx. apply lookup_insert_Some in Hx.
    destruct Hx as [[E _] | [_ Hx]]; [lia |].
    specialize (H2 i x Hx). lia.
  - intros t Ht. specialize (H3 t Ht). lia.
  - intros i x Hx. apply lookup_insert_Some in Hx.
    destruct Hx as [[E Ex] | [_ Hx]]; [| apply (H4 i x Hx)].
    subst i x. exists 0. split; [exact Hp |]. rewrite Hnew. reflexivity.
Qed.

Lemma db_wf_update_pool st pid p p' :
  db_wf st -> pools st !! pid = Some p -> totalStaked p' = totalStaked p ->
  db_wf (mkState (<[pid := p']> (pools st)) (next_oid st)
                 (transactions st) (users st)).
Proof.
  intros [H1 H2 H3 H4] Hp Ht. split; simpl; try assumption.
  - intros i x Hx. apply lookup_insert_Some in Hx.
    destruct Hx as [[E _] | [_ Hx]]; [subst i; apply (H2 pid p Hp) |].
    apply (H2 i x Hx).
  - intros i x Hx. apply lookup_insert_Some in Hx.
    destruct Hx as [[E Ex] | [_ Hx]]; [| apply (H4 i x Hx)].
    subst i x. rewrite Ht. apply (H4 pid p Hp).
Qed.

Lemma db_wf_append_other st t :
  db_wf st -> fresh_id (transactionId t) (transactions st) ->
  is_stake t = false -> is_unstake t = false ->
  (poolId t < next_oid st)%nat ->
  db_wf (mkState (pools st) (next_oid st) (transactions st ++ [t])
                 (users st)).
Proof.
  intros [H1 H2 H3 H4] Hf Hs Hu Hlt. split; simpl; try assumption.
  - apply ledger_wf_snoc_other; assumption.
  - intros x Hx. apply in_app_iff in Hx.
    destruct Hx as [Hx | [E | []]]; [apply (H3 x Hx) | subst x; exact Hlt].
  - intros i x Hx. rewrite (open_stakes_snoc_other i _ t Hs Hu).
    apply (H4 i x Hx).
Qed.

Lemma db_wf_stake st pid p q uid uuid now unlock :
  db_wf st -> pools st !! pid = Some p -> 0 < q ->
  fresh_id uuid (transactions st) ->
  db_wf (mkState
           (<[pid := set_totalStaked p
                       (nadd (opt_or (totalStaked p) (Fin 0)) (Fin q))]>
              (pools st))
           (next_oid st)
           (transactions st
            ++ [mkTransaction uuid None stake (Fin q) now uid pid unlock])
           (users st)).
Proof.
  intros [H1 H2 H3 H4] Hp Hq Hf.
  set (s := mkTransaction uuid None stake (Fin q) now uid pid unlock).
  assert (Hs : is_stake s = true) by reflexivity.
  split; simpl.
  - apply (ledger_wf_snoc_stake _ s q); auto.
  - intros i x Hx. apply lookup_insert_Some in Hx.
    destruct Hx as [[E _] | [_ Hx]]; [subst i; apply (H2 pid p Hp) |].
    apply (H2 i x Hx).
  - intros x Hx. apply in_app_iff in Hx.
    destruct Hx as [Hx | [E | []]]; [apply (H3 x Hx) |].
    subst x. simpl. apply (H2 pid p Hp).
  - intros i x Hx. rewrite (open_stakes_snoc_stake i _ s H1 Hf Hs).
    apply lookup_insert_Some in Hx. destruct Hx as [[E Ex] | [NE Hx]].
    + subst i x. destruct (H4 pid p Hp) as (t & Et & Eq).
      rewrite Et. destruct (opt_or_total t) as (t' & Eo & Et').
      rewrite Eo. simpl. rewrite Nat.eqb_refl.
      exists (t' + q). split; [reflexivity |].
      rewrite qsum_app. simpl. change (qamount s) with q. lra.
    + simpl. destruct (Nat.eqb_spec pid i) as [E | _]; [contradiction |].
      rewrite app_nil_r. apply (H4 i x Hx).
Qed.

Lemma db_wf_unstake st tid uid uuid now s p :
  db_wf st ->
  List.find (stake_filter tid uid) (transactions st) = Some s ->
  List.find (unstake_filter tid uid) (transactions st) = None ->
  pools st !! poolId s = Some p ->
  fresh_id uuid (transactions st) ->
  db_wf (mkState
           (<[poolId s :=
                set_totalStaked p
                  (nmax (Fin 0)
                        (nsub (opt_or (totalStaked p) (Fin 0))
                              (amount s)))]> (pools st))
           (next_oid st)
           (transactions st
            ++ [mkTransaction uuid (Some tid) unstake (amount s) now uid
                              (poolId s) None])
           (users st)).
Proof.
  intros [H1 H2 H3 H4] Hs Hnone Hp Hf.
  pose proof (found_stake_open _ _ _ _ H1 Hs Hnone) as Hopen.
  destruct (stake_filter_found _ _ _ _ Hs) as (Hin & Htid & Hst & Huid).
  set (u := mkTransaction uuid (Some tid) unstake (amount s) now uid
                          (poolId s) None).
  assert (Hun : is_unstake u = true) by reflexivity.
  assert (Ho : originalTransactionId u = Some (transactionId s))
    by (simpl; congruence).
  assert (Hwf' : ledger_wf (transactions st ++ [u])).
  { apply (ledger_wf_snoc_unstake _ s u); auto. }
  split; simpl.
  - exact Hwf'.
  - intros i x Hx. apply lookup_insert_Some in Hx.
    destruct Hx as [[E _] | [_ Hx]]; [subst i; apply (H2 _ p Hp) |].
    apply (H2 i x Hx).
  - intros x Hx. apply in_app_iff in Hx.
    destruct Hx as [Hx | [E | []]]; [apply (H3 x Hx) |].
    subst x. simpl. apply (H2 _ p Hp).
  - intros i x Hx. apply lookup_insert_Some in Hx.
    destruct Hx as [[E Ex] | [NE Hx]].
    + subst i x. destruct (H4 _ p Hp) as (t & Et & Eq).
      rewrite Et. destruct (opt_or_total t) as (t' & Eo & Et').
      rewrite Eo. destruct (wf_amounts _ H1 s Hin Hst) as (a & Ea & Ha).
      rewrite Ea.
      assert (P : qsum (open_stakes (poolId s) (transactions st))
                  == qsum (s :: open_stakes (poolId s)
                                  (transactions st ++ [u])))
        by (apply qsum_perm, (open_stakes_snoc_unstake_same _ s u);
            assumption).
      simpl in P. unfold qamount at 1 in P. rewrite Ea in P.
      pose proof (open_sum_nonneg (poolId s) _ Hwf') as Hnn.
      set (o' := qsum (open_stakes (poolId s) (transactions st ++ [u])))
        in *.
      simpl. unfold Qlt_bool.
      destruct (Qle_bool (t' + - a) 0) eqn:C; simpl.
      * apply Qle_bool_iff in C. exists 0. split; [reflexivity | lra].
      * exists (t' + - a). split; [reflexivity | lra].
    + rewrite (open_stakes_snoc_unstake_other _ s u) by assumption.
      apply (H4 i x Hx).
Qed.

Lemma calculateRewards_pure tid uid now st :
  snd (calculateRewards tid uid now st) = st.
Proof.
  unfold calculateRewards. run_handler.
  destruct (List.find (stake_filter tid uid) (transactions st));
    [| reflexivity]. simpl.
  destruct (pools st !! poolId t); reflexivity.
Qed.

Lemma empty_db_wf : db_wf empty_db.
Proof.
  split; simpl.
  - split; simpl; try constructor; try contradiction.
  - intros pid p H. rewrite lookup_empty in H. discriminate.
  - contradiction.
  - intros pid p H. rewrite lookup_empty in H. discriminate.
Qed.

Lemma depositToPool_cases pid (amt : num) uid uuid now st :
  let r := depositToPool pid amt uid uuid now st in
  (~ admitted r /\ snd r = st)
  \/ exists p,
       pools st !! pid = Some p
       /\ nlt (Fin 0) amt = true
       /\ fresh_id uuid (transactions st)
       /\ let transaction :=
            mkTransaction uuid None deposit amt now uid pid None in
          let total := nadd (liquidity p) amt in
          let pool' := set_liquidity p total in
          (isNaN total = true
           /\ half_done "Server error during deposit" transaction r st)
          \/ (isNaN total = false
              /\ r = (mkResponse 200
                        (WithTransaction "Deposit successful" transaction
                           pool'),
                      mkState (<[pid := pool']> (pools st)) (next_oid st)
                              (transactions st ++ [transaction])
                              (users st))).
Proof.
  intros r. unfold r, depositToPool, half_done, cast_Number.
  cbn [to_Number js_add]. run_handler.
  destruct (isNaN amt || nle amt (Fin 0)) eqn:G; [refused |].
  destruct (pools st !! pid) as [p |] eqn:Hp; [| refused]. simpl.
  destruct (existsb (has_transactionId uuid) (transactions st)) eqn:Hf;
    [refused |].
  right. exists p. apply amount_guard_spec in G.
  split; [reflexivity |]. split; [exact G |]. split; [exact Hf |].
  cbv zeta.
  match goal with
  | |- context [if isNaN ?x then _ else _] => destruct (isNaN x) eqn:En
  end; [left | right]; (split; reflexivity).
Qed.

Lemma withdrawFromPool_cases pid (amt : num) uid uuid now st :
  let r := withdrawFromPool pid amt uid uuid now st in
  (~ admitted r /\ snd r = st)
  \/ exists p,
       pools st !! pid = Some p
       /\ nlt (Fin 0) amt = true
       /\ nlt (liquidity p) amt = false
       /\ fresh_id uuid (transactions st)
       /\ let transaction :=
            mkTransaction uuid None withdraw amt now uid pid None in
          let total := nsub (liquidity p) amt in
          let pool' := set_liquidity p total in
          (isNaN total = true
           /\ half_done "Server error during withdrawal" transaction r st)
          \/ (isNaN total = false
              /\ r = (mkResponse 200
                        (WithTransaction "Withdrawal successful"
                           transaction pool'),
                      mkState (<[pid := pool']> (pools st)) (next_oid st)
                              (transactions st ++ [transaction])
                              (users st))).
Proof.
  intros r. unfold r, withdrawFromPool, half_done, cast_Number.
  cbn [to_Number]. run_handler.
  destruct (isNaN amt || nle amt (Fin 0)) eqn:G; [refused |].
  destruct (pools st !! pid) as [p |] eqn:Hp; [| refused]. simpl.
  destruct (nlt (liquidity p) amt) eqn:Hl; [refused |].
  destruct (existsb (has_transactionId uuid) (transactions st)) eqn:Hf;
    [refused |].
  right. exists p. apply amount_guard_spec in G.
  split; [reflexivity |]. split; [exact G |]. split; [exact Hl |].
  split; [exact Hf |]. cbv zeta.
  match goal with
  | |- context [if isNaN ?x then _ else _] => destruct (isNaN x) eqn:En
  end; [left | right]; (split; reflexivity).
Qed.

(** In a well-formed database the total that [unstakeTokens] assigns
    passes the cast: the stored total and the staked amount are finite. *)
Lemma unstake_total_not_NaN st tid uid s p :
  db_wf st ->
  List.find (stake_filter tid uid) (transactions st) = Some s ->
  pools st !! poolId s = Some p ->
  isNaN (nmax (Fin 0) (nsub (opt_or (totalStaked p) (Fin 0)) (amount s)))
  = false.
Proof.
  intros [H1 H2 H3 H4] Hs Hp.
  destruct (stake_filter_found _ _ _ _ Hs) as (Hin & _ & Hst & _).
  destruct (wf_amounts _ H1 s Hin Hst) as (a & Ea & _).
  destruct (H4 _ _ Hp) as (q & Eq & _).
  rewrite Ea, Eq. simpl. unfold num_or.
  destruct (truthy (Fin q)); simpl;
    match goal with
    | |- context [Qlt_bool ?x ?y] => destruct (Qlt_bool x y)
    end; reflexivity.
Qed.

(** The same analysis for an amount of any kind, a number or a string:
    the event carries [Number(amount)], and the pool is saved with the
    value that [+] or [-] produced, when Mongoose can cast it. *)
Lemma body_guard_spec (amt : bodyval) :
  isNaN (to_Number amt) || nle (to_Number amt) (Fin 0) = false
  <-> nlt (Fin 0) (to_Number amt) = true.
Proof. apply amount_guard_spec. Qed.

Lemma stakeTokens_body_cases pid (amt : bodyval) uid uuid now date_now st :
  let r := stakeTokens pid amt uid uuid now date_now st in
  (~ admitted r /\ snd r = st)
  \/ exists p unlock,
       pools st !! pid = Some p
       /\ nlt (Fin 0) (to_Number amt) = true
       /\ nlt (to_Number amt) (minStake p) = false
       /\ uid ∈ users st
       /\ stake_unlockTime p date_now = Some unlock
       /\ fresh_id uuid (transactions st)
       /\ let transaction :=
            mkTransaction uuid None stake (to_Number amt) now uid pid
                          unlock in
          match cast_Number (js_add (opt_or (totalStaked p) (Fin 0)) amt)
          with
          | None => half_done "Server error during staking" transaction r st
          | Some total =>
              r = (mkResponse 200
                     (WithTransaction "Stake successful" transaction
                        (set_totalStaked p total)),
                   mkState (<[pid := set_totalStaked p total]> (pools st))
                           (next_oid st)
                           (transactions st ++ [transaction]) (users st))
          end.
Proof.
  intros r. unfold r, stakeTokens, half_done. run_handler.
  destruct (negb (body_truthy amt) || isNaN (to_Number amt)
            || nle (to_Number amt) (Fin 0)) eqn:G; [refused |].
  destruct (pools st !! pid) as [p |] eqn:Hp; [| refused]. simpl.
  destruct (nlt (to_Number amt) (minStake p)) eqn:Hmin; [refused |].
  destruct (is_ObjectId uid); [| refused].
  destruct (bool_decide (uid ∈ users st)) eqn:Hu; [| refused]. simpl.
  destruct (stake_unlockTime p date_now) as [unlock |] eqn:Hun; [| refused].
  destruct (existsb (has_transactionId uuid) (transactions st)) eqn:Hf;
    [refused |].
  right. exists p, unlock. apply bool_decide_eq_true in Hu.
  apply orb_false_iff in G. destruct G as [G G2].
  apply orb_false_iff in G. destruct G as [_ G1].
  assert (Hpos : nlt (Fin 0) (to_Number amt) = true).
  { apply body_guard_spec. rewrite G1, G2. reflexivity. }
  split; [reflexivity |]. split; [exact Hpos |]. split; [exact Hmin |].
  split; [exact Hu |]. split; [exact Hun |]. split; [exact Hf |].
  cbv zeta.
  destruct (cast_Number (js_add (opt_or (totalStaked p) (Fin 0)) amt));
    reflexivity.
Qed.

Lemma stake_route_body_cases pid (amt : bodyval) body_poolId uid uuid now
    date_now st :
  let r := stake_route pid amt body_poolId uid uuid now date_now st in
  (~ admitted r /\ snd r = st)
  \/ r = stakeTokens pid amt uid uuid now date_now st.
Proof.
  intros r. unfold r, stake_route, checkValidationResults, validateStaking.
  destruct (body_isNumeric amt); [| refused].
  destruct (str_truthy body_poolId); [| refused]. right. reflexivity.
Qed.

Lemma depositToPool_body_cases pid (amt : bodyval) uid uuid now st :
  let r := depositToPool pid amt uid uuid now st in
  (~ admitted r /\ snd r = st)
  \/ exists p,
       pools st !! pid = Some p
       /\ nlt (Fin 0) (to_Number amt) = true
       /\ fresh_id uuid (transactions st)
       /\ let transaction :=
            mkTransaction uuid None deposit (to_Number amt) now uid pid
                          None in
          match cast_Number (js_add (liquidity p) amt) with
          | None => half_done "Server error during deposit" transaction r st
          | Some total =>
              r = (mkResponse 200
                     (WithTransaction "Deposit successful" transaction
                        (set_liquidity p total)),
                   mkState (<[pid := set_liquidity p total]> (pools st))
                           (next_oid st)
                           (transactions st ++ [transaction]) (users st))
          end.
Proof.
  intros r. unfold r, depositToPool, half_done. run_handler.
  destruct (isNaN (to_Number amt) || nle (to_Number amt) (Fin 0)) eqn:G;
    [refused |].
  destruct (pools st !! pid) as [p |] eqn:Hp; [| refused]. simpl.
  destruct (existsb (has_transactionId uuid) (transactions st)) eqn:Hf;
    [refused |].
  right. exists p. apply body_guard_spec in G.
  split; [reflexivity |]. split; [exact G |]. split; [exact Hf |].
  cbv zeta.
  destruct (cast_Number (js_add (liquidity p) amt)); reflexivity.
Qed.

Lemma withdrawFromPool_body_cases pid (amt : bodyval) uid uuid now st :
  let r := withdrawFromPool pid amt uid uuid now st in
  (~ admitted r /\ snd r = st)
  \/ exists p,
       pools st !! pid = Some p
       /\ nlt (Fin 0) (to_Number amt) = true
       /\ nlt (liquidity p) (to_Number amt) = false
       /\ fresh_id uuid (transactions st)
       /\ let transaction :=
            mkTransaction uuid None withdraw (to_Number amt) now uid pid
                          None in
          match cast_Number (nsub (liquidity p) (to_Number amt)) with
          | None =>
              half_done "Server error during withdrawal" transaction r st
          | Some total =>
              r = (mkResponse 200
                     (WithTransaction "Withdrawal successful" transaction
                        (set_liquidity p total)),
                   mkState (<[pid := set_liquidity p total]> (pools st))
                           (next_oid st)
                           (transactions st ++ [transaction]) (users st))
          end.
Proof.
  intros r. unfold r, withdrawFromPool, half_done. run_handler.
  destruct (isNaN (to_Number amt) || nle (to_Number amt) (Fin 0)) eqn:G;
    [refused |].
  destruct (pools st !! pid) as [p |] eqn:Hp; [| refused]. simpl.
  destruct (nlt (liquidity p) (to_Number amt)) eqn:Hl; [refused |].
  destruct (existsb (has_transactionId uuid) (transactions st)) eqn:Hf;
    [refused |].
  right. exists p. apply body_guard_spec in G.
  split; [reflexivity |]. split; [exact G |]. split; [exact Hl |].
  split; [exact Hf |]. cbv zeta.
  destruct (cast_Number (nsub (liquidity p) (to_Number amt))); reflexivity.
Qed.

Lemma db_wf_append_and_update st pid p p' t :
  db_wf st -> pools st !! pid = Some p -> totalStaked p' = totalStaked p ->
  fresh_id (transactionId t) (transactions st) ->
  is_stake t = false -> is_unstake t = false -> poolId t = pid ->
  db_wf (mkState (<[pid := p']> (pools st)) (next_oid st)
                 (transactions st ++ [t]) (users st)).
Proof.
  intros H Hp Ht Hf Hs Hu Hpid.
  apply (db_wf_update_pool
           (mkState (pools st) (next_oid st) (transactions st ++ [t])
                    (users st)) pid p p'); [| exact Hp | exact Ht].
  apply db_wf_append_other; try assumption.
  rewrite Hpid. apply (wf_pool_ids st H pid p Hp).
Qed.

Lemma step_db_wf st st' : db_wf st -> step st st' -> db_wf st'.
Proof.
  intros H Hstep. destruct Hstep.
  - (* createPool *)
    unfold createPool. run_handler.
    destruct (negb (str_truthy (cfg_name cfg))
              || negb (str_truthy (cfg_type cfg))
              || negb (opt_truthy (cfg_apy cfg))); [exact H |].
    simpl. apply db_wf_create; [exact H | reflexivity].
  - (* updatePool *)
    unfold updatePool. run_handler.
    destruct (pools s !! pid) as [p |] eqn:Hp; [| exact H]. simpl.
    apply (db_wf_update_pool s pid p); [exact H | exact Hp | reflexivity].
  - (* deletePool *)
    unfold deletePool. run_handler.
    destruct (pools s !! pid); simpl; apply db_wf_delete; exact H.
  - (* deposit *)
    destruct (depositToPool_cases pid amt uid uuid now s)
      as [[_ E] | (p & Hp & _ & Hf & E)]; [rewrite E; exact H |].
    cbv zeta in E. destruct E as [[_ E] | [_ E]]; rewrite E; simpl.
    + apply db_wf_append_other; auto.
      apply (wf_pool_ids s H pid p Hp).
    + apply (db_wf_append_and_update s pid p); auto.
  - (* withdraw *)
    destruct (withdrawFromPool_cases pid amt uid uuid now s)
      as [[_ E] | (p & Hp & _ & _ & Hf & E)]; [rewrite E; exact H |].
    cbv zeta in E. destruct E as [[_ E] | [_ E]]; rewrite E; simpl.
    + apply db_wf_append_other; auto.
      apply (wf_pool_ids s H pid p Hp).
    + apply (db_wf_append_and_update s pid p); auto.
  - (* stake *)
    destruct (stake_route_cases pid amt body_poolId uid uuid now date_now s)
      as [[_ E] | ((q & Eq & Hq) & E & _)]; [rewrite E; exact H |].
    cbv zeta in E. rewrite E.
    assert (Hfin : is_finite amt = true) by (rewrite Eq; reflexivity).
    destruct (stakeTokens_cases pid amt uid uuid now date_now s Hfin)
      as [[_ E'] | (p & unlock & Hp & _ & _ & _ & _ & Hf & E')];
      [rewrite E'; exact H |].
    cbv zeta in E'. rewrite E'. simpl. subst amt.
    apply db_wf_stake; assumption.
  - (* unstake *)
    destruct (unstakeTokens_cases tid uid uuid now_check now s)
      as [[_ E] | (x & p & Hs & Hnone & _ & Hp & Hf & E)];
      [rewrite E; exact H |].
    cbv zeta in E. destruct E as [[En _] | [_ E]].
    { rewrite (unstake_total_not_NaN s tid uid x p H Hs Hp) in En.
      discriminate. }
    rewrite E. simpl.
    apply db_wf_unstake; assumption.
  - rewrite calculateRewards_pure. exact H.
  - apply db_wf_users. exact H.
Qed.

Lemma reachable_db_wf st : reachable st -> db_wf st.
Proof.
  induction 1; [apply empty_db_wf | eapply step_db_wf; eassumption].
Qed.

Lemma db_users_reachable : reachable db_users.
Proof.
  exact (reachable_step empty_db _ reachable_empty
           (step_users {[ alice ]} empty_db)).
Qed.

Lemma db_B_reachable : reachable db_B.
Proof.
  replace db_B with (snd (createPool cfg_B 0 db_users))
    by (vm_compute; reflexivity).
  eapply reachable_step; [apply db_users_reachable | apply step_createPool].
Qed.

Lemma db_L_reachable : reachable db_L.
Proof.
  replace db_L with (snd (createPool cfg_L 0 db_users))
    by (vm_compute; reflexivity).
  eapply reachable_step; [apply db_users_reachable | apply step_createPool].
Qed.

Lemma db_B_staked_reachable : reachable db_B_staked.
Proof.
  eapply reachable_step; [apply db_B_reachable | apply step_stake].
Qed.


Lemma db_B_unstaked_reachable : reachable db_B_unstaked.
Proof.
  eapply reachable_step; [apply db_B_staked_reachable |].
  apply step_unstake. lia.
Qed.

Example db_L_staked_ledger : transactions db_L_staked = [stake_L].
Proof. vm_compute. reflexivity. Qed.
Example db_B_staked_ledger : transactions db_B_staked = [stake_B].
Proof. vm_compute. reflexivity. Qed.

(** ** The pool total and the ledger *)

#[export] Instance nopp_proper : Proper (num_eq ==> num_eq) nopp.
Proof.
  intros x y H. destruct x, y; simpl in *; try contradiction; auto.
  rewrite H. reflexivity.
Qed.

#[export] Instance nsub_proper : Proper (num_eq ==> num_eq ==> num_eq) nsub.
Proof. intros x x' Hx y y' Hy. unfold nsub. rewrite Hx, Hy. reflexivity. Qed.

#[export] Instance nmax_proper : Proper (num_eq ==> num_eq ==> num_eq) nmax.
Proof.
  intros x x' Hx y y' Hy. unfold nmax.
  rewrite (nlt_comp x x' y y' Hx Hy).
  destruct x, x'; simpl in Hx; try contradiction;
    destruct y, y'; simpl in Hy; try contradiction; simpl; auto;
    destruct (Qlt_bool q0 q2); assumption.
Qed.

Lemma stake_route_admitted pid (amt : bodyval) body_poolId uid uuid now
    date_now st :
  admitted (stake_route pid amt body_poolId uid uuid now date_now st) ->
  exists p unlock total,
    nlt (Fin 0) (to_Number amt) = true
    /\ pools st !! pid = Some p
    /\ fresh_id uuid (transactions st)
    /\ cast_Number (js_add (opt_or (totalStaked p) (Fin 0)) amt)
       = Some total
    /\ let transaction :=
         mkTransaction uuid None stake (to_Number amt) now uid pid
                       unlock in
       let pool' := set_totalStaked p total in
       stake_route pid amt body_poolId uid uuid now date_now st
       = (mkResponse 200
            (WithTransaction "Stake successful" transaction pool'),
          mkState (<[pid := pool']> (pools st)) (next_oid st)
                  (transactions st ++ [transaction]) (users st)).
Proof.
  intros Ha.
  destruct (stake_route_body_cases pid amt body_poolId uid uuid now
              date_now st) as [[N _] | E]; [contradiction |].
  cbv zeta in E. rewrite E in Ha |- *.
  destruct (stakeTokens_body_cases pid amt uid uuid now date_now st)
    as [[N _] | (p & unlock & Hp & Hpos & _ & _ & _ & Hf & E')];
    [contradiction |].
  cbv zeta in E'.
  destruct (cast_Number (js_add (opt_or (totalStaked p) (Fin 0)) amt))
    as [total |] eqn:Ec.
  - exists p, unlock, total. auto.
  - unfold half_done in E'. rewrite E' in Ha. discriminate Ha.
Qed.

Lemma unstakeTokens_admitted tid uid uuid now_check now st :
  admitted (unstakeTokens tid uid uuid now_check now st) ->
  exists s p,
    List.find (stake_filter tid uid) (transactions st) = Some s
    /\ List.find (unstake_filter tid uid) (transactions st) = None
    /\ (forall unlock, unlockTime s = Some unlock ->
        (unlock <= now_check)%Z)
    /\ pools st !! poolId s = Some p
    /\ fresh_id uuid (transactions st)
    /\ let unstakeTransaction :=
         mkTransaction uuid (Some tid) unstake (amount s) now uid
                       (poolId s) None in
       let pool' :=
         set_totalStaked p
           (nmax (Fin 0)
                 (nsub (opt_or (totalStaked p) (Fin 0)) (amount s))) in
       unstakeTokens tid uid uuid now_check now st
       = (mkResponse 200
            (WithTransaction "Unstake successful"
               unstakeTransaction pool'),
          mkState (<[poolId s := pool']> (pools st)) (next_oid st)
                  (transactions st ++ [unstakeTransaction])
                  (users st)).
Proof.
  intros Ha.
  destruct (unstakeTokens_cases tid uid uuid now_check now st)
    as [[N _] | (s & p & Hs & Hnone & Hlock & Hp & Hf & E)];
    [contradiction |].
  cbv zeta in E. destruct E as [[_ E] | [_ E]].
  - unfold half_done in E. rewrite E in Ha. discriminate Ha.
  - exists s, p. repeat split; assumption.
Qed.

(** ** The staked total and the ledger *)

(** C2.  The invariant fails on the code.  Pool [B] holds one stake of 10
    and its [totalStaked] is 10.  The stake route admits a request whose
    [amount] is the string ["5"]: the validator accepts a numeric string,
    the ledger gets a stake event of amount 5, and
    [(pool.totalStaked || 0) + amount] concatenates to ["105"], which is
    saved as 105.  The stake events of the pool sum to 15. *)
Theorem totalStaked_concatenates_string_amount :
  let r :=
    stake_route 0 (BStr "5") (Some "0") alice "tx2" 2000 2000 db_B_staked in
  reachable db_B_staked
  /\ (exists p, pools db_B_staked !! 0%nat = Some p
                /\ totalStaked p = Some (Fin 10))
  /\ admitted r
  /\ map (fun t => (type t, amount t, poolId t)) (transactions (snd r))
     = [(stake, Fin 10, 0%nat); (stake, Fin 5, 0%nat)]
  /\ (ledger_total 0 (transactions (snd r)) =n= Fin 15)%num
  /\ (exists p', pools (snd r) !! 0%nat = Some p'
                 /\ totalStaked p' = Some (Fin 105)).
Proof.
  cbv zeta. split; [exact db_B_staked_reachable |].
  split; [eexists; split; vm_compute; reflexivity |].
  split; [vm_compute; reflexivity |].
  split; [vm_compute; reflexivity |].
  split; [vm_compute; reflexivity |].
  eexists. split; vm_compute; reflexivity.
Qed.

(** ** The number of open positions *)

(** C1, as the code has it.  No pool document has a [stakerCount]: the
    path reads [undefined] in every state.  The number of stake events for
    a pool that have no referencing unstake event is a quantity of the
    ledger alone: an admitted stake raises it by 1 for its pool and an
    admitted unstake lowers it by 1 for the pool of the stake, the count
    of every other pool being unchanged. *)
Theorem open_count_follows_ledger st :
  reachable st ->
  (forall pid p, pools st !! pid = Some p ->
     pool_get p "stakerCount" = JUndefined)
  /\ (forall pid amt body_poolId uid uuid now date_now,
        let r := stake_route pid amt body_poolId uid uuid now date_now st in
        admitted r ->
        open_count pid (transactions (snd r))
        = S (open_count pid (transactions st))
        /\ (forall pid', pid' <> pid ->
            open_count pid' (transactions (snd r))
            = open_count pid' (transactions st))
        /\ (forall p', pools (snd r) !! pid = Some p' ->
            pool_get p' "stakerCount" = JUndefined))
  /\ (forall tid uid uuid now_check now,
        let r := unstakeTokens tid uid uuid now_check now st in
        admitted r ->
        exists s,
          List.find (stake_filter tid uid) (transactions st) = Some s
          /\ S (open_count (poolId s) (transactions (snd r)))
             = open_count (poolId s) (transactions st)
          /\ (forall pid', pid' <> poolId s ->
              open_count pid' (transactions (snd r))
              = open_count pid' (transactions st))
          /\ (forall p', pools (snd r) !! poolId s = Some p' ->
              pool_get p' "stakerCount" = JUndefined)).
Proof.
  intros Hreach. pose proof (reachable_db_wf st Hreach) as Hwf.
  pose proof (wf_ledger st Hwf) as Hl.
  split; [| split].
  - intros pid p _. apply pool_has_no_stakerCount.
  - intros pid amt body_poolId uid uuid now date_now r Ha.
    destruct (stake_route_admitted _ _ _ _ _ _ _ _ Ha)
      as (p & unlock & total & _ & Hp & Hf & _ & E).
    cbv zeta in E. unfold r. rewrite E. cbn [snd transactions].
    set (s := mkTransaction uuid None stake (to_Number amt) now uid pid
                            unlock).
    assert (Hs : is_stake s = true) by reflexivity.
    unfold open_count. split; [| split].
    + rewrite (open_stakes_snoc_stake pid _ s Hl Hf Hs).
      cbn [poolId s]. rewrite Nat.eqb_refl, length_app. simpl. lia.
    + intros pid' NE. rewrite (open_stakes_snoc_stake pid' _ s Hl Hf Hs).
      cbn [poolId s]. destruct (Nat.eqb_spec pid pid'); [congruence |].
      rewrite app_nil_r. reflexivity.
    + intros p' _. apply pool_has_no_stakerCount.
  - intros tid uid uuid now_check now r Ha.
    destruct (unstakeTokens_admitted _ _ _ _ _ _ Ha)
      as (s & p & Hs & Hnone & _ & Hp & Hf & E).
    cbv zeta in E. unfold r. rewrite E. cbn [snd transactions].
    pose proof (found_stake_open _ _ _ _ Hl Hs Hnone) as Hopen.
    destruct (stake_filter_found _ _ _ _ Hs) as (Hin & Htid & Hst & Huid).
    set (u := mkTransaction uuid (Some tid) unstake (amount s) now uid
                            (poolId s) None).
    assert (Hun : is_unstake u = true) by reflexivity.
    assert (Ho : originalTransactionId u = Some (transactionId s))
      by (simpl; congruence).
    exists s. split; [exact Hs |]. unfold open_count. split; [| split].
    + assert (P : Permutation (open_stakes (poolId s) (transactions st))
                    (s :: open_stakes (poolId s) (transactions st ++ [u])))
        by (apply (open_stakes_snoc_unstake_same _ s u); assumption).
      apply Permutation_length in P. simpl in P. symmetry. exact P.
    + intros pid' NE.
      rewrite (open_stakes_snoc_unstake_other _ s u); auto.
    + intros p' _. apply pool_has_no_stakerCount.
Qed.

Lemma open_count_follows_ledger_witness :
  open_count 0 (transactions db_B_staked)
  = S (open_count 0 (transactions db_B))
  /\ exists s,
       List.find (stake_filter "tx1" alice) (transactions db_B_staked)
       = Some s
       /\ S (open_count (poolId s) (transactions db_B_unstaked))
          = open_count (poolId s) (transactions db_B_staked).
Proof.
  split.
  - apply (proj1 (proj2 (open_count_follows_ledger db_B db_B_reachable))
             0%nat (Fin 10) (Some "0") alice "tx1" 1000%Z 1000%Z).
    vm_compute. reflexivity.
  - destruct (proj2 (proj2 (open_count_follows_ledger db_B_staked
                              db_B_staked_reachable))
                "tx1" alice "tx2" (1000 + 365 * day)%Z
                (1000 + 365 * day)%Z)
      as (s & Hs & Hc & _).
    + vm_compute. reflexivity.
    + exists s. split; [exact Hs | exact Hc].
Defined.

(** C1 as stated fails: after an admitted stake on pool [B] the pool has
    one open position, and its [stakerCount] reads [undefined], not 1. *)
Lemma stakerCount_not_maintained :
  admitted (stake_route 0 (Fin 10) (Some "0") alice "tx1" 1000 1000 db_B)
  /\ open_count 0 (transactions db_B_staked) = 1%nat
  /\ (exists p,
        pools db_B_staked !! 0%nat = Some p
        /\ pool_get p "stakerCount" = JUndefined
        /\ pool_get p "stakerCount" <> JNum (Fin 1)).
Proof.
  split; [vm_compute; reflexivity |].
  split; [vm_compute; reflexivity |].
  eexists. split; [vm_compute; reflexivity |].
  split; [reflexivity | discriminate].
Qed.

(** ** The ledger only grows *)

Lemma find_app_some {A} (f : A -> bool) (l k : list A) (x : A) :
  List.find f l = Some x -> List.find f (l ++ k) = Some x.
Proof.
  induction l as [| a l IH]; simpl; [discriminate |].
  destruct (f a); [trivial | exact IH].
Qed.

Lemma find_is_some {A} (f : A -> bool) (l : list A) (x : A) :
  In x l -> f x = true -> exists y, List.find f l = Some y.
Proof.
  intros Hin Hf. destruct (List.find f l) as [y |] eqn:E; [eauto |].
  rewrite (find_none _ _ E x Hin) in Hf. discriminate.
Qed.

Lemma step_transactions st st' :
  step st st' -> exists k, transactions st' = (transactions st ++ k)%list.
Proof.
  intros Hstep. destruct Hstep.
  - exists []. rewrite app_nil_r. unfold createPool. run_handler.
    destruct (negb (str_truthy (cfg_name cfg))
              || negb (str_truthy (cfg_type cfg))
              || negb (opt_truthy (cfg_apy cfg))); reflexivity.
  - exists []. rewrite app_nil_r. unfold updatePool. run_handler.
    destruct (pools s !! pid); reflexivity.
  - exists []. rewrite app_nil_r. unfold deletePool. run_handler.
    destruct (pools s !! pid); reflexivity.
  - destruct (depositToPool_cases pid amt uid uuid now s)
      as [[_ E] | (p & _ & _ & _ & E)]; cbv zeta in E.
    + rewrite E. exists []. rewrite app_nil_r. reflexivity.
    + destruct E as [[_ E] | [_ E]]; rewrite E; eexists; reflexivity.
  - destruct (withdrawFromPool_cases pid amt uid uuid now s)
      as [[_ E] | (p & _ & _ & _ & _ & E)]; cbv zeta in E.
    + rewrite E. exists []. rewrite app_nil_r. reflexivity.
    + destruct E as [[_ E] | [_ E]]; rewrite E; eexists; reflexivity.
  - destruct (stake_route_cases pid amt body_poolId uid uuid now date_now s)
      as [[_ E] | (_ & _ & Ha)]; cbv zeta in *.
    + rewrite E. exists []. rewrite app_nil_r. reflexivity.
    + destruct (stake_route_admitted _ _ _ _ _ _ _ _ Ha)
        as (p & unlock & total & _ & _ & _ & _ & E).
      cbv zeta in E. rewrite E. eexists. reflexivity.
  - destruct (unstakeTokens_cases tid uid uuid now_check now s)
      as [[_ E] | (x & p & _ & _ & _ & _ & _ & E)]; cbv zeta in E.
    + rewrite E. exists []. rewrite app_nil_r. reflexivity.
    + destruct E as [[_ E] | [_ E]]; rewrite E; eexists; reflexivity.
  - rewrite calculateRewards_pure. exists []. rewrite app_nil_r. reflexivity.
  - exists []. rewrite app_nil_r. reflexivity.
Qed.

Lemma steps_transactions st st' :
  steps st st' -> exists k, transactions st' = (transactions st ++ k)%list.
Proof.
  induction 1 as [s | s s' s'' _ [k IH] Hstep].
  - exists []. rewrite app_nil_r. reflexivity.
  - destruct (step_transactions s' s'' Hstep) as [k' E].
    exists (k ++ k')%list. rewrite E, IH, app_assoc. reflexivity.
Qed.

Lemma steps_reachable st st' : reachable st -> steps st st' -> reachable st'.
Proof.
  intros Hr. induction 1; [exact Hr |].
  eapply reachable_step; [apply IHsteps; exact Hr | eassumption].
Qed.

(** ** At most one unstake per stake *)

Lemma closings_at_most_one (s : Transaction) (l : list Transaction) :
  List.NoDup (closed_ids l) -> (length (closings s l) <= 1)%nat.
Proof.
  unfold closings. induction l as [| a l IH]; simpl; intros Hnd; [lia |].
  change (closed_ids (a :: l))
    with ((if is_unstake a
           then match originalTransactionId a with
                | Some i => [i]
                | None => []
                end
           else []) ++ closed_ids l)%list in Hnd.
  destruct (references s a) eqn:R.
  - apply references_spec in R. destruct R as [Hun Ho].
    rewrite Hun, Ho in Hnd. simpl in Hnd.
    inversion Hnd as [| ? ? Hnotin _]; subst.
    rewrite (filter_none (references s) l); [simpl; lia |].
    intros u Hu. destruct (references s u) eqn:R'; [| reflexivity].
    exfalso. apply Hnotin. apply in_closed_ids. exists u.
    apply references_spec in R'. tauto.
  - apply IH. apply NoDup_app_remove_l in Hnd. exact Hnd.
Qed.

Lemma already_unstaked tid uid uuid now_check now st s c :
  List.find (stake_filter tid uid) (transactions st) = Some s ->
  List.find (unstake_filter tid uid) (transactions st) = Some c ->
  unstakeTokens tid uid uuid now_check now st
  = (mkResponse 400 (Message "Tokens already unstaked"), st).
Proof.
  intros Hs Hc. unfold unstakeTokens. run_handler. rewrite Hs. simpl.
  rewrite Hc. reflexivity.
Qed.

(** C4.  In every state that the backend reaches, no stake event has more
    than one unstake event that references it.  Once an unstake of a
    transaction id is admitted, every later unstake of the same id by the
    same user is answered [400 Tokens already unstaked] and leaves the
    database as it was: no event is appended and no pool is changed. *)
Theorem unstake_at_most_once st :
  reachable st ->
  (forall s, In s (transactions st) ->
     (length (closings s (transactions st)) <= 1)%nat)
  /\ (forall tid uid uuid now_check now,
        let r := unstakeTokens tid uid uuid now_check now st in
        admitted r ->
        forall st', steps (snd r) st' ->
        forall uuid' now_check' now',
          unstakeTokens tid uid uuid' now_check' now' st'
          = (mkResponse 400 (Message "Tokens already unstaked"), st')).
Proof.
  intros Hreach. split.
  - intros s _. apply closings_at_most_one.
    apply (wf_once _ (wf_ledger st (reachable_db_wf st Hreach))).
  - intros tid uid uuid now_check now r Ha st' Hsteps uuid' now_check' now'.
    destruct (unstakeTokens_admitted _ _ _ _ _ _ Ha)
      as (s & p & Hs & _ & _ & _ & _ & E).
    cbv zeta in E. unfold r in Hsteps. rewrite E in Hsteps.
    cbn [snd] in Hsteps.
    destruct (steps_transactions _ _ Hsteps) as [k Ek].
    cbn [transactions] in Ek.
    set (u := mkTransaction uuid (Some tid) unstake (amount s) now uid
                            (poolId s) None) in *.
    assert (Hs' : List.find (stake_filter tid uid) (transactions st')
                  = Some s).
    { rewrite Ek. apply find_app_some, find_app_some. exact Hs. }
    destruct (find_is_some (unstake_filter tid uid) (transactions st') u)
      as [c Hc].
    { rewrite Ek. apply in_app_iff. left. apply in_app_iff. right.
      left. reflexivity. }
    { unfold unstake_filter, u. simpl. rewrite !String.eqb_refl.
      reflexivity. }
    apply (already_unstaked _ _ _ _ _ _ s c Hs' Hc).
Qed.

Lemma unstake_at_most_once_witness :
  admitted (unstakeTokens "tx1" alice "tx2" (1000 + 365 * day)
              (1000 + 365 * day) db_B_staked)
  /\ unstakeTokens "tx1" alice "tx3" (1000 + 366 * day)
                   (1000 + 366 * day) db_B_unstaked
     = (mkResponse 400 (Message "Tokens already unstaked"), db_B_unstaked).
Proof.
  assert (Ha : admitted (unstakeTokens "tx1" alice "tx2"
                           (1000 + 365 * day) (1000 + 365 * day)
                           db_B_staked))
    by (vm_compute; reflexivity).
  split; [exact Ha |].
  apply (proj2 (unstake_at_most_once db_B_staked db_B_staked_reachable)
           "tx1" alice "tx2" (1000 + 365 * day)%Z (1000 + 365 * day)%Z
           Ha db_B_unstaked).
  apply steps_refl.
Defined.

(** ** The lock window *)







(** ** The reward of a stake event *)

Lemma find_unique {A} (f : A -> bool) (l : list A) (x : A) :
  In x l -> f x = true -> (forall y, In y l -> f y = true -> y = x) ->
  List.find f l = Some x.
Proof.
  intros Hin Hf Huniq. destruct (find_is_some f l x Hin Hf) as [y E].
  rewrite E. f_equal. apply find_some in E. destruct E as [Hy Hfy].
  apply Huniq; assumption.
Qed.

(** The owner of a stake event finds it by its transaction id. *)
Lemma find_own_stake (l : list Transaction) (s : Transaction) :
  ledger_wf l -> In s l -> is_stake s = true ->
  List.find (stake_filter (transactionId s) (userId s)) l = Some s.
Proof.
  intros Hwf Hin Hs. apply find_unique; [exact Hin | |].
  - unfold stake_filter, has_transactionId. fold (is_stake s).
    rewrite Hs, !String.eqb_refl. reflexivity.
  - intros y Hy Hf.
    destruct (stake_filter_found (transactionId s) (userId s) [y] y)
      as (_ & E & _); [simpl; rewrite Hf; reflexivity |].
    apply (NoDup_map_eq transactionId l); [apply (wf_ids l Hwf) | | |];
      assumption.
Qed.



(** ** Amounts that the pool controllers refuse or accept *)

(** What [depositToPool] and [withdrawFromPool] do with a number that is
    NaN or not above zero, with a withdrawal above the liquidity, and with
    the other amounts above zero when the new liquidity is a number. *)
Lemma deposit_withdraw_amounts pid (amt : num) uid uuid now st p :
  pools st !! pid = Some p ->
  (nlt (Fin 0) amt = false ->
   depositToPool pid amt uid uuid now st
   = (mkResponse 400 (Message "Invalid deposit amount"), st)
   /\ withdrawFromPool pid amt uid uuid now st
      = (mkResponse 400 (Message "Invalid withdrawal amount"), st))
  /\ (nlt (Fin 0) amt = true -> nlt (liquidity p) amt = true ->
      withdrawFromPool pid amt uid uuid now st
      = (mkResponse 400 (Message "Insufficient liquidity in pool"), st))
  /\ (nlt (Fin 0) amt = true -> fresh_id uuid (transactions st) ->
      (isNaN (nadd (liquidity p) amt) = false ->
       pools (snd (depositToPool pid amt uid uuid now st)) !! pid
       = Some (set_liquidity p (nadd (liquidity p) amt)))
      /\ (nlt (liquidity p) amt = false ->
          isNaN (nsub (liquidity p) amt) = false ->
          pools (snd (withdrawFromPool pid amt uid uuid now st)) !! pid
          = Some (set_liquidity p (nsub (liquidity p) amt)))).
Proof.
  intros Hp. split; [| split].
  - intros Hn.
    assert (G : isNaN amt || nle amt (Fin 0) = true).
    { destruct (isNaN amt || nle amt (Fin 0)) eqn:G; [reflexivity |].
      apply amount_guard_spec in G. congruence. }
    unfold depositToPool, withdrawFromPool. run_handler. rewrite G.
    split; reflexivity.
  - intros Hpos Hl. apply amount_guard_spec in Hpos.
    unfold withdrawFromPool. run_handler. rewrite Hpos, Hp. simpl.
    rewrite Hl. reflexivity.
  - intros Hpos Hf. split.
    + intros Hn.
      destruct (depositToPool_cases pid amt uid uuid now st)
        as [[N E] | (p' & Hp' & _ & _ & E)].
      * exfalso. apply amount_guard_spec in Hpos. unfold fresh_id in Hf.
        revert N. unfold depositToPool, cast_Number. cbn [to_Number js_add].
        run_handler. rewrite Hpos, Hp. simpl. rewrite Hf, Hn. simpl.
        intros N. apply N. reflexivity.
      * rewrite Hp in Hp'. injection Hp' as <-. cbv zeta in E.
        destruct E as [[En _] | [_ E]]; [congruence |].
        rewrite E. simpl. apply lookup_insert_eq.
    + intros Hl Hn.
      destruct (withdrawFromPool_cases pid amt uid uuid now st)
        as [[N E] | (p' & Hp' & _ & _ & _ & E)].
      * exfalso. apply amount_guard_spec in Hpos. unfold fresh_id in Hf.
        revert N. unfold withdrawFromPool, cast_Number. cbn [to_Number].
        run_handler. rewrite Hpos, Hp. simpl. rewrite Hl, Hf, Hn. simpl.
        intros N. apply N. reflexivity.
      * rewrite Hp in Hp'. injection Hp' as <-. cbv zeta in E.
        destruct E as [[En _] | [_ E]]; [congruence |].
        rewrite E. simpl. apply lookup_insert_eq.
Qed.

(** * The other controllers and services: properties *)

(** ** Sorting *)

Lemma insert_desc_perm {A} (key : A -> Z) (x : A) (l : list A) :
  Permutation (insert_desc key x l) (x :: l).
Proof.
  induction l as [| y l IH]; simpl; [reflexivity |].
  destruct (key y <=? key x)%Z; [reflexivity |].
  rewrite IH. apply perm_swap.
Qed.

Lemma sort_desc_perm {A} (key : A -> Z) (l : list A) :
  Permutation (sort_desc key l) l.
Proof.
  induction l as [| x l IH]; simpl; [reflexivity |].
  unfold sort_desc in *. simpl. rewrite insert_desc_perm.
  apply Permutation_cons; [reflexivity | exact IH].
Qed.

Lemma sort_desc_In {A} (key : A -> Z) (l : list A) (x : A) :
  In x (sort_desc key l) <-> In x l.
Proof.
  split; apply Permutation_in;
    [| symmetry]; apply sort_desc_perm.
Qed.

Lemma insert_desc_sorted {A} (key : A -> Z) (x : A) (l : list A) :
  sorted_desc key l -> sorted_desc key (insert_desc key x l).
Proof.
  unfold sorted_desc. induction 1 as [| y l Hs IH Hy]; simpl.
  - constructor; constructor.
  - destruct (key y <=? key x)%Z eqn:E.
    + apply Z.leb_le in E. constructor.
      * constructor; assumption.
      * constructor; [exact E |].
        rewrite List.Forall_forall in *. intros z Hz.
        specialize (Hy z Hz). lia.
    + apply Z.leb_gt in E. constructor; [exact IH |].
      rewrite List.Forall_forall in *. intros z Hz.
      apply (Permutation_in _ (insert_desc_perm key x l)) in Hz.
      destruct Hz as [<- | Hz]; [lia | auto].
Qed.

Lemma sort_desc_sorted {A} (key : A -> Z) (l : list A) :
  sorted_desc key (sort_desc key l).
Proof.
  induction l as [| x l IH]; [constructor |].
  apply insert_desc_sorted. exact IH.
Qed.

(** ** Requests that are refused *)

Lemma state_eta (st : State) :
  mkState (pools st) (next_oid st) (transactions st) (users st) = st.
Proof. destruct st. reflexivity. Qed.

(** X1. A controller that answers with a status other than success (200,
    or 201 for [createPool]) leaves the database as it was, with one
    exception: [depositToPool], [withdrawFromPool], [stakeTokens] and
    [unstakeTokens] save the event of the request before the pool, so when
    [pool.save()] rejects the new value (Mongoose casts it to a number and
    refuses NaN) the request is answered with the 500 of the [catch] and
    the event stays in the ledger, the pools being unchanged.  The amount
    of the request is a number or a string. *)
Theorem refused_request_writes_at_most_its_event (st : State) :
  (forall cfg now,
     let r := createPool cfg now st in
     status (fst r) = 201%Z \/ snd r = st)
  /\ (forall pid upd,
        let r := updatePool pid upd st in admitted r \/ snd r = st)
  /\ (forall pid,
        let r := deletePool pid st in admitted r \/ snd r = st)
  /\ (forall pid (amt : bodyval) uid uuid now,
        let r := depositToPool pid amt uid uuid now st in
        admitted r \/ snd r = st
        \/ exists p,
             pools st !! pid = Some p
             /\ cast_Number (js_add (liquidity p) amt) = None
             /\ half_done "Server error during deposit"
                  (mkTransaction uuid None deposit (to_Number amt) now uid
                                 pid None) r st)
  /\ (forall pid (amt : bodyval) uid uuid now,
        let r := withdrawFromPool pid amt uid uuid now st in
        admitted r \/ snd r = st
        \/ exists p,
             pools st !! pid = Some p
             /\ cast_Number (nsub (liquidity p) (to_Number amt)) = None
             /\ half_done "Server error during withdrawal"
                  (mkTransaction uuid None withdraw (to_Number amt) now uid
                                 pid None) r st)
  /\ (forall pid (amt : bodyval) body_poolId uid uuid now date_now,
        let r := stake_route pid amt body_poolId uid uuid now date_now st in
        admitted r \/ snd r = st
        \/ exists p unlock,
             pools st !! pid = Some p
             /\ cast_Number (js_add (opt_or (totalStaked p) (Fin 0)) amt)
                = None
             /\ half_done "Server error during staking"
                  (mkTransaction uuid None stake (to_Number amt) now uid
                                 pid unlock) r st)
  /\ (forall tid uid uuid now_check now,
        let r := unstakeTokens tid uid uuid now_check now st in
        admitted r \/ snd r = st
        \/ exists s p,
             List.find (stake_filter tid uid) (transactions st) = Some s
             /\ pools st !! poolId s = Some p
             /\ cast_Number
                  (nmax (Fin 0)
                        (nsub (opt_or (totalStaked p) (Fin 0)) (amount s)))
                = None
             /\ half_done "Server error during unstaking"
                  (mkTransaction uuid (Some tid) unstake (amount s) now uid
                                 (poolId s) None) r st).
Proof.
  split; [| split; [| split; [| split; [| split; [| split]]]]].
  - intros cfg now r. unfold r, createPool. run_handler.
    destruct (negb (str_truthy (cfg_name cfg))
              || negb (str_truthy (cfg_type cfg))
              || negb (opt_truthy (cfg_apy cfg)));
      [right | left]; reflexivity.
  - intros pid upd r. unfold r, updatePool. run_handler.
    destruct (pools st !! pid); [left | right]; reflexivity.
  - intros pid r. unfold r, deletePool. run_handler.
    destruct (pools st !! pid) eqn:E; [left; reflexivity | right].
    simpl. rewrite delete_id by exact E. apply state_eta.
  - intros pid amt uid uuid now r.
    destruct (depositToPool_body_cases pid amt uid uuid now st)
      as [[_ E] | (p & Hp & _ & _ & E)]; [right; left; exact E |].
    cbv zeta in E.
    destruct (cast_Number (js_add (liquidity p) amt)) eqn:Ec.
    + left. unfold r, admitted. rewrite E. reflexivity.
    + right; right. exists p. auto.
  - intros pid amt uid uuid now r.
    destruct (withdrawFromPool_body_cases pid amt uid uuid now st)
      as [[_ E] | (p & Hp & _ & _ & _ & E)]; [right; left; exact E |].
    cbv zeta in E.
    destruct (cast_Number (nsub (liquidity p) (to_Number amt))) eqn:Ec.
    + left. unfold r, admitted. rewrite E. reflexivity.
    + right; right. exists p. auto.
  - intros pid amt body_poolId uid uuid now date_now r.
    destruct (stake_route_body_cases pid amt body_poolId uid uuid now
                date_now st) as [[_ E] | E]; [right; left; exact E |].
    cbv zeta in E. unfold r. rewrite E.
    destruct (stakeTokens_body_cases pid amt uid uuid now date_now st)
      as [[_ E'] | (p & unlock & Hp & _ & _ & _ & _ & _ & E')];
      [right; left; exact E' |].
    cbv zeta in E'.
    destruct (cast_Number (js_add (opt_or (totalStaked p) (Fin 0)) amt))
      eqn:Ec.
    + left. unfold admitted. rewrite E'. reflexivity.
    + right; right. exists p, unlock. auto.
  - intros tid uid uuid now_check now r.
    destruct (unstakeTokens_cases tid uid uuid now_check now st)
      as [[_ E] | (s & p & Hs & _ & _ & Hp & _ & E)];
      [right; left; exact E |].
    cbv zeta in E. destruct E as [[En E] | [_ E]].
    + right; right. exists s, p. unfold cast_Number. cbn [to_Number].
      rewrite En. auto.
    + left. unfold r, admitted. rewrite E. reflexivity.
Qed.

(** The exception of X1 on pool [B] with its stake of 10: the stake route
    admits the amount ["+5"], the stake event of 5 is saved, and
    ["10" + "+5"] is no number, so the request is answered 500 with the
    event in the ledger and the pool as it was. *)
Example stake_saved_then_refused :
  half_done "Server error during staking"
    (mkTransaction "tx2" None stake (Fin 5) 2000 alice 0 None)
    (stake_route 0 (BStr "+5") (Some "0") alice "tx2" 2000 2000 db_B_staked)
    db_B_staked.
Proof. vm_compute. reflexivity. Qed.

(** ** One request, by its effect on the database *)

Lemma step_cases st st' :
  step st st' ->
  st' = st
  \/ (exists us,
        st' = mkState (pools st) (next_oid st) (transactions st) us)
  \/ (exists pool,
        liquidity pool = Fin 0
        /\ st' = mkState (<[next_oid st := pool]> (pools st))
                         (S (next_oid st)) (transactions st) (users st))
  \/ (exists pid p p',
        pools st !! pid = Some p
        /\ liquidity p' = liquidity p
        /\ st' = mkState (<[pid := p']> (pools st)) (next_oid st)
                         (transactions st) (users st))
  \/ (exists pid,
        st' = mkState (delete pid (pools st)) (next_oid st)
                      (transactions st) (users st))
  \/ (exists pid p t,
        pools st !! pid = Some p
        /\ type t = deposit /\ poolId t = pid
        /\ nlt (Fin 0) (amount t) = true
        /\ st' = mkState
                   (<[pid := set_liquidity p
                               (nadd (liquidity p) (amount t))]> (pools st))
                   (next_oid st) (transactions st ++ [t]) (users st))
  \/ (exists pid p t,
        pools st !! pid = Some p
        /\ type t = withdraw /\ poolId t = pid
        /\ nlt (Fin 0) (amount t) = true
        /\ nlt (liquidity p) (amount t) = false
        /\ st' = mkState
                   (<[pid := set_liquidity p
                               (nsub (liquidity p) (amount t))]> (pools st))
                   (next_oid st) (transactions st ++ [t]) (users st))
  \/ (exists pid p p' t,
        pools st !! pid = Some p
        /\ (type t = stake \/ type t = unstake)
        /\ liquidity p' = liquidity p
        /\ st' = mkState (<[pid := p']> (pools st)) (next_oid st)
                         (transactions st ++ [t]) (users st))
  \/ (exists t,
        st' = mkState (pools st) (next_oid st) (transactions st ++ [t])
                      (users st)).
Proof.
  intros Hstep. destruct Hstep.
  - unfold createPool. run_handler.
    destruct (negb (str_truthy (cfg_name cfg))
              || negb (str_truthy (cfg_type cfg))
              || negb (opt_truthy (cfg_apy cfg))); [left; reflexivity |].
    right; right; left. eexists. split; [| reflexivity]. reflexivity.
  - unfold updatePool. run_handler.
    destruct (pools s !! pid) as [p |] eqn:Hp; [| left; reflexivity].
    right; right; right; left. exists pid, p. eexists.
    split; [exact Hp |]. split; [| reflexivity]. reflexivity.
  - unfold deletePool. run_handler.
    right; right; right; right; left. exists pid.
    destruct (pools s !! pid); reflexivity.
  - destruct (depositToPool_cases pid amt uid uuid now s)
      as [[_ E] | (p & Hp & Ha & _ & E)]; cbv zeta in E;
      [left; exact E |].
    destruct E as [[_ E] | [_ E]]; [unfold half_done in E |]; rewrite E.
    { do 8 right. eexists. reflexivity. }
    do 5 right; left.
    exists pid, p, (mkTransaction uuid None deposit amt now uid pid None).
    repeat split; assumption.
  - destruct (withdrawFromPool_cases pid amt uid uuid now s)
      as [[_ E] | (p & Hp & Ha & Hl & _ & E)]; cbv zeta in E;
      [left; exact E |].
    destruct E as [[_ E] | [_ E]]; [unfold half_done in E |]; rewrite E.
    { do 8 right. eexists. reflexivity. }
    do 6 right; left.
    exists pid, p, (mkTransaction uuid None withdraw amt now uid pid None).
    repeat split; assumption.
  - destruct (stake_route_cases pid amt body_poolId uid uuid now date_now s)
      as [[_ E] | (_ & _ & Ha)]; cbv zeta in *; [left; exact E |].
    destruct (stake_route_admitted _ _ _ _ _ _ _ _ Ha)
      as (p & unlock & total & _ & Hp & _ & _ & E).
    cbv zeta in E. rewrite E. do 7 right; left. exists pid, p.
    do 2 eexists.
    split; [exact Hp | split; [| split; [| reflexivity]]];
      [left |]; reflexivity.
  - destruct (unstakeTokens_cases tid uid uuid now_check now s)
      as [[_ E] | (x & p & _ & _ & _ & Hp & _ & E)]; cbv zeta in E;
      [left; exact E |].
    destruct E as [[_ E] | [_ E]]; [unfold half_done in E |]; rewrite E.
    { do 8 right. eexists. reflexivity. }
    do 7 right; left. exists (poolId x), p. do 2 eexists.
    split; [exact Hp | split; [| split; [| reflexivity]]];
      [right |]; reflexivity.
  - left. apply calculateRewards_pure.
  - right; left. exists us. reflexivity.
Qed.

(** ** An append-only ledger with unique ids *)

Lemma NoDup_app_disjoint {A} (l k : list A) (a : A) :
  List.NoDup (l ++ k) -> In a l -> In a k -> False.
Proof.
  induction l as [| x l IH]; simpl; [tauto |].
  intros Hnd [-> | Ha] Hk.
  - inversion Hnd as [| ? ? Hx _]; subst. apply Hx.
    apply in_or_app. right. exact Hk.
  - inversion Hnd; subst. apply IH; assumption.
Qed.

(** X2. The ledger is append-only and its ids are never used twice: in
    every run from a state that the backend reaches, the ledger of the
    later state is the ledger of the earlier one followed by new events,
    no two events of it share a [transactionId], and so no new event
    takes the id of an older one. *)
Theorem ledger_append_only (st st' : State) :
  reachable st -> steps st st' ->
  exists k,
    transactions st' = (transactions st ++ k)%list
    /\ List.NoDup (map transactionId (transactions st'))
    /\ forall t, In t k -> fresh_id (transactionId t) (transactions st).
Proof.
  intros Hr Hs.
  destruct (steps_transactions st st' Hs) as [k E].
  pose proof (wf_ids _ (wf_ledger _ (reachable_db_wf _
                (steps_reachable _ _ Hr Hs)))) as Hnd.
  exists k. split; [exact E |]. split; [exact Hnd |].
  intros t Ht. apply fresh_id_spec. intros Hin.
  rewrite E, map_app in Hnd.
  apply (NoDup_app_disjoint _ _ (transactionId t) Hnd Hin).
  apply in_map. exact Ht.
Qed.

Lemma ledger_append_only_witness :
  exists k,
    transactions db_B_staked = (transactions db_B ++ k)%list
    /\ List.NoDup (map transactionId (transactions db_B_staked))
    /\ forall t, In t k -> fresh_id (transactionId t) (transactions db_B).
Proof.
  apply ledger_append_only; [apply db_B_reachable |].
  eapply steps_step; [apply steps_refl |].
  unfold db_B_staked. apply step_stake.
Defined.

(** ** The liquidity of a pool *)

Lemma Qlt_bool_false (a b : Q) : Qlt_bool a b = false <-> b <= a.
Proof.
  unfold Qlt_bool. rewrite negb_false_iff. apply Qle_bool_iff.
Qed.

Lemma nonneg_add (x a : num) :
  nlt x (Fin 0) = false -> nlt (Fin 0) a = true ->
  nlt (nadd x a) (Fin 0) = false.
Proof.
  destruct x as [| | | q], a as [| | | r]; simpl; try congruence.
  rewrite !Qlt_bool_false, Qlt_bool_iff. lra.
Qed.

Lemma nonneg_sub (x a : num) :
  nlt x (Fin 0) = false -> nlt (Fin 0) a = true -> nlt x a = false ->
  nlt (nsub x a) (Fin 0) = false.
Proof.
  destruct x as [| | | q], a as [| | | r]; simpl; try congruence.
  rewrite !Qlt_bool_false, Qlt_bool_iff. lra.
Qed.

Lemma nonneg_sum (x y : num) :
  nlt x (Fin 0) = false -> nlt y (Fin 0) = false ->
  nlt (nadd x y) (Fin 0) = false.
Proof.
  destruct x as [| | | q], y as [| | | r]; simpl; try congruence.
  rewrite !Qlt_bool_false. lra.
Qed.

Lemma pool_liquidity_nonneg (st : State) :
  reachable st ->
  forall pid p, pools st !! pid = Some p ->
                nlt (liquidity p) (Fin 0) = false.
Proof.
  induction 1 as [| s s' _ IH Hstep]; intros pid p Hp.
  - unfold empty_db in Hp. cbn [pools] in Hp.
    rewrite lookup_empty in Hp. discriminate Hp.
  - destruct (step_cases s s' Hstep)
      as [-> | [[us ->] | [(pool & Hl & ->) | [(i & p0 & p' & Hi & Hl & ->)
         | [[i ->] | [(i & p0 & t & Hi & _ & _ & Ha & ->)
         | [(i & p0 & t & Hi & _ & _ & Ha & Hb & ->)
         | [(i & p0 & p' & t & Hi & _ & Hl & ->) | [t ->]]]]]]]]];
      cbn [pools] in Hp.
    + eauto.
    + eauto.
    + apply lookup_insert_Some in Hp.
      destruct Hp as [[_ <-] | [_ Hp]]; [rewrite Hl; reflexivity | eauto].
    + apply lookup_insert_Some in Hp.
      destruct Hp as [[_ <-] | [_ Hp]]; [rewrite Hl | ]; eauto.
    + apply lookup_delete_Some in Hp. destruct Hp as [_ Hp]. eauto.
    + apply lookup_insert_Some in Hp.
      destruct Hp as [[_ <-] | [_ Hp]]; [| eauto].
      simpl. apply nonneg_add; eauto.
    + apply lookup_insert_Some in Hp.
      destruct Hp as [[_ <-] | [_ Hp]]; [| eauto].
      simpl. apply nonneg_sub; eauto.
    + apply lookup_insert_Some in Hp.
      destruct Hp as [[_ <-] | [_ Hp]]; [rewrite Hl | ]; eauto.
    + eauto.
Qed.

Lemma nonneg_total (l : list Pool) (acc : num) :
  nlt acc (Fin 0) = false ->
  (forall p, In p l -> nlt (liquidity p) (Fin 0) = false) ->
  nlt (fold_left (fun sum pool => nadd sum (liquidity pool)) l acc) (Fin 0)
  = false.
Proof.
  revert acc. induction l as [| p l IH]; intros acc Ha H; [exact Ha |].
  simpl. apply IH.
  - apply nonneg_sum; [exact Ha | apply H; left; reflexivity].
  - intros x Hx. apply H. right. exact Hx.
Qed.

(** X3. The liquidity of a pool is never negative: in every state that
    the backend reaches, no pool has a liquidity below zero, and neither
    is the [totalLiquidity] that [getAnalyticsOverview] adds up.
    [createPool] starts the liquidity at zero, a deposit adds a positive
    amount, a withdrawal above the liquidity is refused, and no other
    controller writes it. *)
Theorem liquidity_never_negative (st : State) :
  reachable st ->
  (forall pid p, pools st !! pid = Some p ->
                 nlt (liquidity p) (Fin 0) = false)
  /\ nlt (totalLiquidity (getAnalyticsOverview st)) (Fin 0) = false.
Proof.
  intros Hr. split; [apply pool_liquidity_nonneg; exact Hr |].
  unfold getAnalyticsOverview. cbn [totalLiquidity].
  apply nonneg_total; [reflexivity |].
  intros p Hp. apply list_elem_of_In in Hp.
  apply list_elem_of_fmap in Hp. destruct Hp as ([pid p'] & -> & Hin).
  apply elem_of_map_to_list in Hin.
  apply (pool_liquidity_nonneg st Hr pid p' Hin).
Qed.

Lemma liquidity_never_negative_witness :
  (forall pid p, pools db_B_drawn !! pid = Some p ->
                 nlt (liquidity p) (Fin 0) = false)
  /\ nlt (totalLiquidity (getAnalyticsOverview db_B_drawn)) (Fin 0) = false.
Proof.
  apply (liquidity_never_negative db_B_drawn).
  eapply reachable_step; [| apply step_withdraw].
  eapply reachable_step; [apply db_B_reachable | apply step_deposit].
Defined.

(** X4. [depositToPool] has no validator in front of it and takes an
    amount that is a numeric string.  The event of the ledger gets
    [Number(amount)], and [pool.liquidity += amount] appends the string to
    the decimal text of the liquidity, which Mongoose casts back to a
    number: after a deposit of the number 5 and a deposit of the string
    ["5"] into the new pool [B], both admitted, the ledger holds two
    deposits of 5 and the liquidity of the pool is 55. *)
Theorem deposit_concatenates_string_amount :
  let r1 := depositToPool 0 (Fin 5) "admin" "d1" 10 db_B in
  let r2 := depositToPool 0 (BStr "5") "admin" "d2" 20 (snd r1) in
  admitted r1 /\ admitted r2
  /\ map (fun t => (type t, amount t, poolId t)) (transactions (snd r2))
     = [(deposit, Fin 5, 0%nat); (deposit, Fin 5, 0%nat)]
  /\ (exists p1, pools (snd r1) !! 0%nat = Some p1 /\ liquidity p1 = Fin 5)
  /\ (exists p2, pools (snd r2) !! 0%nat = Some p2
                 /\ liquidity p2 = Fin 55).
Proof.
  cbv zeta. split; [vm_compute; reflexivity |].
  split; [vm_compute; reflexivity |].
  split; [vm_compute; reflexivity |].
  split; eexists; split; vm_compute; reflexivity.
Qed.

Lemma depositToPool_ok pid (amt : num) uid uuid now st p :
  pools st !! pid = Some p ->
  nlt (Fin 0) amt = true ->
  isNaN (nadd (liquidity p) amt) = false ->
  fresh_id uuid (transactions st) ->
  depositToPool pid amt uid uuid now st
  = (mkResponse 200
       (WithTransaction "Deposit successful"
          (mkTransaction uuid None deposit amt now uid pid None)
          (set_liquidity p (nadd (liquidity p) amt))),
     mkState (<[pid := set_liquidity p (nadd (liquidity p) amt)]> (pools st))
             (next_oid st)
             (transactions st
              ++ [mkTransaction uuid None deposit amt now uid pid None])
             (users st)).
Proof.
  intros Hp Hpos Hn Hf. apply amount_guard_spec in Hpos.
  unfold fresh_id in Hf.
  unfold depositToPool, cast_Number. cbn [to_Number js_add]. run_handler.
  rewrite Hpos, Hp. simpl. rewrite Hf. simpl in Hn |- *. rewrite Hn.
  reflexivity.
Qed.

Lemma withdrawFromPool_ok pid (amt : num) uid uuid now st p :
  pools st !! pid = Some p ->
  nlt (Fin 0) amt = true ->
  nlt (liquidity p) amt = false ->
  isNaN (nsub (liquidity p) amt) = false ->
  fresh_id uuid (transactions st) ->
  withdrawFromPool pid amt uid uuid now st
  = (mkResponse 200
       (WithTransaction "Withdrawal successful"
          (mkTransaction uuid None withdraw amt now uid pid None)
          (set_liquidity p (nsub (liquidity p) amt))),
     mkState (<[pid := set_liquidity p (nsub (liquidity p) amt)]> (pools st))
             (next_oid st)
             (transactions st
              ++ [mkTransaction uuid None withdraw amt now uid pid None])
             (users st)).
Proof.
  intros Hp Hpos Hl Hn Hf. apply amount_guard_spec in Hpos.
  unfold fresh_id in Hf.
  unfold withdrawFromPool, cast_Number. cbn [to_Number]. run_handler.
  rewrite Hpos, Hp. simpl. rewrite Hl, Hf. simpl in Hn |- *. rewrite Hn.
  reflexivity.
Qed.

Lemma withdrawFromPool_half_done pid (amt : num) uid uuid now st p :
  pools st !! pid = Some p ->
  nlt (Fin 0) amt = true ->
  nlt (liquidity p) amt = false ->
  isNaN (nsub (liquidity p) amt) = true ->
  fresh_id uuid (transactions st) ->
  half_done "Server error during withdrawal"
    (mkTransaction uuid None withdraw amt now uid pid None)
    (withdrawFromPool pid amt uid uuid now st) st.
Proof.
  intros Hp Hpos Hl Hn Hf. apply amount_guard_spec in Hpos.
  unfold fresh_id in Hf.
  unfold half_done, withdrawFromPool, cast_Number. cbn [to_Number].
  run_handler.
  rewrite Hpos, Hp. simpl. rewrite Hl, Hf. simpl in Hn |- *. rewrite Hn.
  reflexivity.
Qed.

Lemma fresh_id_snoc (i : string) (l : list Transaction) (t : Transaction) :
  fresh_id i (l ++ [t]) <-> fresh_id i l /\ transactionId t <> i.
Proof.
  unfold fresh_id. rewrite existsb_app. simpl. rewrite orb_false_r.
  rewrite orb_false_iff. unfold has_transactionId.
  rewrite String.eqb_neq. reflexivity.
Qed.

(** X5. An infinite deposit poisons the liquidity of a pool.  [Infinity]
    passes the amount guard of [depositToPool]: on a pool whose liquidity
    is zero or more the deposit leaves the liquidity [Infinity].  From
    then on every withdrawal of a finite amount above zero is admitted
    and leaves the liquidity [Infinity]; and a withdrawal of [Infinity]
    passes the guards, saves its withdraw event, and is answered
    [500 Server error during withdrawal], because [pool.save()] refuses
    the NaN that [Infinity - Infinity] is: the pools are left as they
    were and the event stays in the ledger. *)
Theorem infinite_deposit_poisons_liquidity (st : State) (pid : nat)
    (p : Pool) (uid u1 u2 : string) (now1 now2 : Z) :
  pools st !! pid = Some p ->
  nle (Fin 0) (liquidity p) = true ->
  fresh_id u1 (transactions st) -> fresh_id u2 (transactions st) ->
  u1 <> u2 ->
  let r1 := depositToPool pid PInf uid u1 now1 st in
  let r2 := withdrawFromPool pid PInf uid u2 now2 (snd r1) in
  admitted r1
  /\ pools (snd r1) !! pid = Some (set_liquidity p PInf)
  /\ half_done "Server error during withdrawal"
       (mkTransaction u2 None withdraw PInf now2 uid pid None) r2 (snd r1)
  /\ forall st' p' (q : Q) uid' uuid now,
       pools st' !! pid = Some p' -> liquidity p' = PInf ->
       0 < q -> fresh_id uuid (transactions st') ->
       let r := withdrawFromPool pid (Fin q) uid' uuid now st' in
       admitted r
       /\ pools (snd r) !! pid = Some (set_liquidity p' PInf).
Proof.
  intros Hp Hl Hf1 Hf2 Hne r1 r2.
  assert (Es : nadd (liquidity p) PInf = PInf)
    by (destruct (liquidity p); simpl in Hl |- *; congruence).
  assert (E1 : r1
               = (mkResponse 200
                    (WithTransaction "Deposit successful"
                       (mkTransaction u1 None deposit PInf now1 uid pid None)
                       (set_liquidity p PInf)),
                  mkState (<[pid := set_liquidity p PInf]> (pools st))
                          (next_oid st)
                          (transactions st
                           ++ [mkTransaction u1 None deposit PInf now1 uid
                                 pid None])
                          (users st))).
  { unfold r1.
    rewrite (depositToPool_ok pid PInf uid u1 now1 st p Hp eq_refl);
      [rewrite Es; reflexivity | rewrite Es; reflexivity | exact Hf1]. }
  assert (Hp1 : pools (snd r1) !! pid = Some (set_liquidity p PInf))
    by (rewrite E1; simpl; apply lookup_insert_eq).
  assert (Hf2' : fresh_id u2 (transactions (snd r1))).
  { rewrite E1. simpl. apply fresh_id_snoc. split; assumption. }
  split; [unfold admitted; rewrite E1; reflexivity |].
  split; [exact Hp1 |]. split.
  - apply (withdrawFromPool_half_done pid PInf uid u2 now2 (snd r1)
             (set_liquidity p PInf) Hp1); auto.
  - intros st' p' q uid' uuid now Hp' Hinf Hq Hf r.
    assert (Hpos : nlt (Fin 0) (Fin q) = true)
      by (apply Qlt_bool_iff; exact Hq).
    assert (E := withdrawFromPool_ok pid (Fin q) uid' uuid now st' p' Hp'
                   Hpos).
    rewrite Hinf in E. specialize (E eq_refl eq_refl Hf). fold r in E.
    split; [unfold admitted; rewrite E; reflexivity |].
    rewrite E. simpl. apply lookup_insert_eq.
Qed.

Lemma infinite_deposit_poisons_liquidity_witness :
  let r1 := depositToPool 0 PInf "admin" "d1" 10 db_B in
  let r2 := withdrawFromPool 0 PInf "admin" "w1" 20 (snd r1) in
  admitted r1
  /\ pools (snd r1) !! 0%nat = Some (set_liquidity pool_B PInf)
  /\ half_done "Server error during withdrawal"
       (mkTransaction "w1" None withdraw PInf 20 "admin" 0 None) r2 (snd r1)
  /\ forall st' p' (q : Q) uid' uuid now,
       pools st' !! 0%nat = Some p' -> liquidity p' = PInf ->
       0 < q -> fresh_id uuid (transactions st') ->
       let r := withdrawFromPool 0 (Fin q) uid' uuid now st' in
       admitted r
       /\ pools (snd r) !! 0%nat = Some (set_liquidity p' PInf).
Proof.
  apply (infinite_deposit_poisons_liquidity db_B 0%nat pool_B);
    [vm_compute; reflexivity | reflexivity | reflexivity | reflexivity |].
  intros C. discriminate C.
Defined.

(** ** Unstaking *)

(** X6. Unstaking never raises the staked total of a pool and never makes
    it negative: in a state that the backend reaches, an admitted unstake
    request finds the pool of the stake with a [totalStaked] and leaves
    it with one that is zero or more and at most the old one. *)
Theorem unstake_total_bounded (st : State) (tid uid uuid : string)
    (now_check now : Z) :
  reachable st ->
  admitted (unstakeTokens tid uid uuid now_check now st) ->
  exists s p p' t t',
    List.find (stake_filter tid uid) (transactions st) = Some s
    /\ pools st !! poolId s = Some p
    /\ totalStaked p = Some t
    /\ pools (snd (unstakeTokens tid uid uuid now_check now st)) !! poolId s
       = Some p'
    /\ totalStaked p' = Some t'
    /\ nle (Fin 0) t' = true
    /\ nle t' t = true.
Proof.
  intros Hr Ha. pose proof (reachable_db_wf st Hr) as Hwf.
  pose proof (wf_ledger st Hwf) as Hl.
  destruct (unstakeTokens_admitted _ _ _ _ _ _ Ha)
    as (s & p & Hs & Hnone & _ & Hp & _ & E).
  cbv zeta in E. rewrite E. cbn [snd pools].
  destruct (wf_totals st Hwf _ p Hp) as (q & Eq & Hq).
  destruct (stake_filter_found _ _ _ _ Hs) as (Hin & _ & Hst & _).
  destruct (wf_amounts _ Hl s Hin Hst) as (a & Ea & Hpos).
  assert (Hq0 : 0 <= q).
  { rewrite Hq. apply qsum_nonneg. intros t Ht.
    apply open_stakes_In in Ht. destruct Ht as (Ht & Hts & _).
    destruct (wf_amounts _ Hl t Ht Hts) as (b & Eb & Hb).
    unfold qamount. rewrite Eb. lra. }
  destruct (opt_or_total q) as (q0 & E0 & Hq0').
  exists s, p. eexists. exists (Fin q). eexists.
  split; [exact Hs |]. split; [exact Hp |]. split; [exact Eq |].
  split; [apply lookup_insert_eq |].
  split; [reflexivity |].
  rewrite Eq, E0, Ea. unfold nsub. cbn [nopp nadd nmax nlt].
  destruct (Qlt_bool 0 (q0 + - a)) eqn:T; cbn [nle].
  - apply Qlt_bool_iff in T. split; apply Qle_bool_iff; lra.
  - split; apply Qle_bool_iff; lra.
Qed.

Lemma unstake_total_bounded_witness :
  exists s p p' t t',
    List.find (stake_filter "tx1" alice) (transactions db_B_staked)
    = Some s
    /\ pools db_B_staked !! poolId s = Some p
    /\ totalStaked p = Some t
    /\ pools (snd (unstakeTokens "tx1" alice "tx2" 2000 2000 db_B_staked))
         !! poolId s = Some p'
    /\ totalStaked p' = Some t'
    /\ nle (Fin 0) t' = true
    /\ nle t' t = true.
Proof.
  apply (unstake_total_bounded db_B_staked "tx1" alice "tx2"
           2000%Z 2000%Z db_B_staked_reachable).
  vm_compute. reflexivity.
Defined.

(** ** A stake belongs to its user *)

Lemma foreign_stake_hidden (l : list Transaction) (s : Transaction)
    (uid : string) :
  ledger_wf l -> In s l -> uid <> userId s ->
  List.find (stake_filter (transactionId s) uid) l = None.
Proof.
  intros Hwf Hin Hne.
  destruct (List.find (stake_filter (transactionId s) uid) l) as [t |] eqn:E;
    [| reflexivity].
  destruct (stake_filter_found _ _ _ _ E) as (Ht & Hid & _ & Hu).
  assert (t = s)
    by (apply (NoDup_map_eq transactionId l); auto; apply (wf_ids l Hwf)).
  subst t. congruence.
Qed.

(** X7. A stake can be unstaked and queried by its owner only: in a state
    that the backend reaches, a request of another user for the
    transaction id of a stake is answered [404 Stake transaction not
    found] by [unstakeTokens] and by [calculateRewards], and the database
    is left as it was. *)
Theorem foreign_stake_not_found (st : State) (s : Transaction)
    (uid uuid : string) (now_check now : Z) :
  reachable st -> In s (transactions st) -> uid <> userId s ->
  unstakeTokens (transactionId s) uid uuid now_check now st
  = (mkResponse 404 (Message "Stake transaction not found"), st)
  /\ calculateRewards (transactionId s) uid now st
     = (mkResponse 404 (Message "Stake transaction not found"), st).
Proof.
  intros Hr Hin Hne.
  pose proof (foreign_stake_hidden _ s uid
                (wf_ledger _ (reachable_db_wf _ Hr)) Hin Hne) as E.
  unfold unstakeTokens, calculateRewards. run_handler. rewrite E.
  split; reflexivity.
Qed.

Lemma foreign_stake_not_found_witness :
  unstakeTokens (transactionId stake_B) "bob" "tx2" 2000 2000 db_B_staked
  = (mkResponse 404 (Message "Stake transaction not found"), db_B_staked)
  /\ calculateRewards (transactionId stake_B) "bob" 2000 db_B_staked
     = (mkResponse 404 (Message "Stake transaction not found"),
        db_B_staked).
Proof.
  apply (foreign_stake_not_found db_B_staked stake_B "bob" "tx2"
           2000%Z 2000%Z db_B_staked_reachable).
  - rewrite db_B_staked_ledger. left. reflexivity.
  - intros C. discriminate C.
Defined.

(** ** Rewards after unstaking, and after a change of the APY *)

Lemma find_all_false {A} (f : A -> bool) (l : list A) :
  (forall x, In x l -> f x = false) -> List.find f l = None.
Proof.
  induction l as [| a l IH]; simpl; intros H; [reflexivity |].
  rewrite (H a) by (left; reflexivity).
  apply IH. intros x Hx. apply H. right. exact Hx.
Qed.

Lemma find_app_none {A} (f : A -> bool) (l k : list A) :
  List.find f l = None -> List.find f (l ++ k) = List.find f k.
Proof.
  induction l as [| a l IH]; simpl; [reflexivity |].
  destruct (f a); [discriminate | exact IH].
Qed.

(** X8. Rewards stop accruing at the unstake: in a state that the backend
    reaches, after an admitted unstake request [calculateRewards] answers,
    whatever the time of the query, with [isUnstaked] true and with the
    duration and the rewards of the period from the stake to the
    timestamp of the unstake event, at the APY of the pool. *)
Theorem rewards_frozen_after_unstake (st : State) (tid uid uuid : string)
    (now_check now : Z) :
  reachable st ->
  admitted (unstakeTokens tid uid uuid now_check now st) ->
  let st' := snd (unstakeTokens tid uid uuid now_check now st) in
  exists s p,
    List.find (stake_filter tid uid) (transactions st) = Some s
    /\ pools st !! poolId s = Some p
    /\ forall t,
         let days := stakingDurationDays (timestamp s) now in
         calculateRewards tid uid t st'
         = (mkResponse 200
              (Rewards "Rewards calculated successfully" (amount s)
                 (parseFloat_toFixed 2 days) (apy p)
                 (parseFloat_toFixed 6 (rewards_of (amount s) (apy p) days))
                 true), st').
Proof.
  intros Hr Ha st'.
  pose proof (wf_ledger _ (reachable_db_wf st Hr)) as Hl.
  destruct (unstakeTokens_admitted _ _ _ _ _ _ Ha)
    as (s & p & Hs & Hnone & _ & Hp & _ & E).
  cbv zeta in E. exists s, p. split; [exact Hs |]. split; [exact Hp |].
  intros t days.
  destruct (stake_filter_found _ _ _ _ Hs) as (_ & Htid & _ & _).
  pose proof (found_stake_open _ _ _ _ Hl Hs Hnone) as Hopen.
  set (u := mkTransaction uuid (Some tid) unstake (amount s) now uid
                          (poolId s) None) in *.
  assert (Hc : List.find (references s) (transactions st') = Some u).
  { unfold st'. rewrite E. cbn [snd transactions].
    rewrite find_app_none
      by (apply find_all_false; apply is_open_spec; exact Hopen).
    simpl. unfold references, is_unstake. simpl.
    rewrite Htid, String.eqb_refl. reflexivity. }
  assert (Hs' : List.find (stake_filter tid uid) (transactions st')
                = Some s).
  { unfold st'. rewrite E. cbn [snd transactions].
    apply find_app_some. exact Hs. }
  assert (Hp' : exists p', pools st' !! poolId s = Some p'
                           /\ apy p' = apy p).
  { unfold st'. rewrite E. cbn [snd pools]. eexists.
    split; [apply lookup_insert_eq | reflexivity]. }
  destruct Hp' as (p' & Hp' & Hapy).
  pose proof (calculateRewards_found st' tid uid t s p' Hs' Hp') as R.
  cbv zeta in R. rewrite Hc, Hapy in R. exact R.
Qed.

Lemma rewards_frozen_after_unstake_witness :
  let st' := snd (unstakeTokens "tx1" alice "tx2" 2000 3000 db_B_staked) in
  exists s p,
    List.find (stake_filter "tx1" alice) (transactions db_B_staked)
    = Some s
    /\ pools db_B_staked !! poolId s = Some p
    /\ forall t,
         let days := stakingDurationDays (timestamp s) 3000 in
         calculateRewards "tx1" alice t st'
         = (mkResponse 200
              (Rewards "Rewards calculated successfully" (amount s)
                 (parseFloat_toFixed 2 days) (apy p)
                 (parseFloat_toFixed 6 (rewards_of (amount s) (apy p) days))
                 true), st').
Proof.
  apply (rewards_frozen_after_unstake db_B_staked "tx1" alice "tx2"
           2000%Z 3000%Z db_B_staked_reachable).
  vm_compute. reflexivity.
Defined.

Lemma updatePool_found pid upd st p :
  pools st !! pid = Some p ->
  exists p',
    updatePool pid upd st
    = (mkResponse 200 (WithPool "Pool updated successfully" p'),
       mkState (<[pid := p']> (pools st)) (next_oid st) (transactions st)
               (users st))
    /\ apy p' = default (apy p) (upd_apy upd)
    /\ minStake p' = default (minStake p) (upd_minStake upd)
    /\ lockPeriod p' = default (lockPeriod p) (upd_lockPeriod upd)
    /\ pool_type p' = pool_type p
    /\ liquidity p' = liquidity p
    /\ totalStaked p' = totalStaked p
    /\ createdAt p' = createdAt p.
Proof.
  intros Hp. unfold updatePool. run_handler. rewrite Hp. simpl.
  eexists. split; [reflexivity |]. repeat split.
Qed.

(** X9. A change of the APY is retroactive: [calculateRewards] reads the
    APY of the pool at the time of the query, so after [updatePool] has
    set a new APY, the rewards of a stake made before are computed with
    the new APY over the whole period since the stake. *)
Theorem apy_update_is_retroactive (st : State) (tid uid : string)
    (s : Transaction) (p : Pool) (upd : PoolUpdate) (a : num) (now : Z) :
  List.find (stake_filter tid uid) (transactions st) = Some s ->
  pools st !! poolId s = Some p ->
  upd_apy upd = Some a ->
  let st' := snd (updatePool (poolId s) upd st) in
  let closing := List.find (references s) (transactions st) in
  let days :=
    stakingDurationDays (timestamp s)
      (match closing with Some u => timestamp u | None => now end) in
  calculateRewards tid uid now st'
  = (mkResponse 200
       (Rewards "Rewards calculated successfully" (amount s)
          (parseFloat_toFixed 2 days) a
          (parseFloat_toFixed 6 (rewards_of (amount s) a days))
          (bool_decide (is_Some closing))), st').
Proof.
  intros Hs Hp Ha st' closing days.
  destruct (updatePool_found (poolId s) upd st p Hp)
    as (p' & E & Hapy & _).
  rewrite Ha in Hapy. simpl in Hapy.
  assert (Hs' : List.find (stake_filter tid uid) (transactions st')
                = Some s) by (unfold st'; rewrite E; exact Hs).
  assert (Hp' : pools st' !! poolId s = Some p')
    by (unfold st'; rewrite E; apply lookup_insert_eq).
  pose proof (calculateRewards_found st' tid uid now s p' Hs' Hp') as R.
  cbv zeta in R. rewrite Hapy in R.
  replace (transactions st') with (transactions st) in R
    by (unfold st'; rewrite E; reflexivity).
  exact R.
Qed.

Lemma apy_update_is_retroactive_witness :
  let st' := snd (updatePool 0 upd_apy_9 db_B_staked) in
  let closing := List.find (references stake_B) (transactions db_B_staked) in
  let days :=
    stakingDurationDays (timestamp stake_B)
      (match closing with Some u => timestamp u | None => 5000%Z end) in
  calculateRewards "tx1" alice 5000 st'
  = (mkResponse 200
       (Rewards "Rewards calculated successfully" (amount stake_B)
          (parseFloat_toFixed 2 days) (Fin 9)
          (parseFloat_toFixed 6 (rewards_of (amount stake_B) (Fin 9) days))
          (bool_decide (is_Some closing))), st').
Proof.
  apply (apy_update_is_retroactive db_B_staked "tx1" alice stake_B
           (set_totalStaked pool_B (Fin 10)) upd_apy_9 (Fin 9) 5000%Z).
  - vm_compute. reflexivity.
  - vm_compute. reflexivity.
  - reflexivity.
Defined.

(** ** [updatePool] *)

(** X10. [updatePool] touches nothing but the name, the APY, the minimum
    stake and the lock period of the one pool: the ledger, the users and
    the set of pool ids are as before, every pool keeps its liquidity,
    its [totalStaked], its type and its creation date, and repeating the
    request changes nothing more. *)
Theorem updatePool_keeps_funds (pid : nat) (upd : PoolUpdate) (st : State) :
  let st' := snd (updatePool pid upd st) in
  transactions st' = transactions st
  /\ users st' = users st
  /\ next_oid st' = next_oid st
  /\ (forall i,
        liquidity <$> pools st' !! i = liquidity <$> pools st !! i
        /\ totalStaked <$> pools st' !! i = totalStaked <$> pools st !! i
        /\ pool_type <$> pools st' !! i = pool_type <$> pools st !! i
        /\ createdAt <$> pools st' !! i = createdAt <$> pools st !! i)
  /\ snd (updatePool pid upd st') = st'.
Proof.
  intros st'. unfold st'.
  destruct (pools st !! pid) as [p |] eqn:Hp.
  - destruct (updatePool_found pid upd st p Hp)
      as (p' & E & Ha & Hm & Hk & Ht & Hl & Hs & Hc).
    rewrite E. cbn [snd transactions users next_oid pools].
    repeat split; try reflexivity.
    1-4: destruct (decide (i = pid)) as [-> | Hne];
      [rewrite lookup_insert_eq, Hp; simpl; congruence
      | rewrite lookup_insert_ne by congruence; reflexivity].
    unfold updatePool. run_handler. rewrite lookup_insert_eq. simpl.
    rewrite insert_insert_eq. f_equal. f_equal.
    revert E. unfold updatePool. run_handler. rewrite Hp. simpl.
    intros E. injection E as E. subst p'. simpl.
    destruct (str_truthy (upd_name upd)), (upd_apy upd), (upd_minStake upd),
      (upd_lockPeriod upd); reflexivity.
  - assert (E : updatePool pid upd st
                = (mkResponse 404 (Message "Pool not found"), st))
      by (unfold updatePool; run_handler; rewrite Hp; reflexivity).
    rewrite E. simpl. rewrite E. repeat split; reflexivity.
Qed.

(** ** A deleted pool *)

Lemma step_pool_gone st st' pid :
  step st st' ->
  pools st !! pid = None -> (pid < next_oid st)%nat ->
  pools st' !! pid = None /\ (pid < next_oid st')%nat.
Proof.
  intros Hstep Hp Hlt.
  destruct (step_cases st st' Hstep)
    as [-> | [[us ->] | [(pool & _ & ->) | [(i & p0 & p' & Hi & _ & ->)
       | [[i ->] | [(i & p0 & t & Hi & _ & _ & _ & ->)
       | [(i & p0 & t & Hi & _ & _ & _ & _ & ->)
       | [(i & p0 & p' & t & Hi & _ & _ & ->) | [t ->]]]]]]]]];
    cbn [pools next_oid]; try (split; [| lia]); auto.
  - rewrite lookup_insert_ne by lia. exact Hp.
  - rewrite lookup_insert_ne by congruence. exact Hp.
  - apply lookup_delete_None. right. exact Hp.
  - rewrite lookup_insert_ne by congruence. exact Hp.
  - rewrite lookup_insert_ne by congruence. exact Hp.
  - rewrite lookup_insert_ne by congruence. exact Hp.
Qed.

Lemma steps_pool_gone st st' pid :
  steps st st' ->
  pools st !! pid = None -> (pid < next_oid st)%nat ->
  pools st' !! pid = None /\ (pid < next_oid st')%nat.
Proof.
  induction 1 as [| s s' s'' _ IH Hstep]; intros Hp Hlt; [auto |].
  destruct (IH Hp Hlt) as [Hp' Hlt'].
  exact (step_pool_gone s' s'' pid Hstep Hp' Hlt').
Qed.

Lemma deleted_pool_gone st st' pid p :
  reachable st -> pools st !! pid = Some p ->
  steps (snd (deletePool pid st)) st' ->
  pools st' !! pid = None.
Proof.
  intros Hr Hp Hs.
  apply (steps_pool_gone _ _ pid Hs).
  - unfold deletePool. run_handler. rewrite Hp. simpl.
    apply lookup_delete_eq.
  - unfold deletePool. run_handler. rewrite Hp. simpl.
    exact (wf_pool_ids _ (reachable_db_wf _ Hr) pid p Hp).
Qed.

(** X11. A deleted pool never comes back: pool ids are not used again, so
    in every state that the backend reaches after [deletePool] has
    deleted a pool, no pool has its id; [getPool] answers [404 Pool not
    found], and no stake and no deposit for that id is admitted. *)
Theorem deleted_pool_never_returns (st st' : State) (pid : nat) (p : Pool) :
  reachable st -> pools st !! pid = Some p ->
  steps (snd (deletePool pid st)) st' ->
  pools st' !! pid = None
  /\ getPool pid st' = mkResponse 404 (Message "Pool not found")
  /\ (forall amt body_poolId uid uuid now date_now,
        ~ admitted
            (stake_route pid amt body_poolId uid uuid now date_now st'))
  /\ (forall amt uid uuid now,
        ~ admitted (depositToPool pid amt uid uuid now st')).
Proof.
  intros Hr Hp Hs.
  pose proof (deleted_pool_gone st st' pid p Hr Hp Hs) as Hgone.
  split; [exact Hgone |]. split; [| split].
  - unfold getPool. rewrite Hgone. reflexivity.
  - intros amt body_poolId uid uuid now date_now Ha.
    destruct (stake_route_admitted _ _ _ _ _ _ _ _ Ha)
      as (p' & unlock & total & _ & Hp' & _). congruence.
  - intros amt uid uuid now Ha.
    destruct (depositToPool_body_cases pid amt uid uuid now st')
      as [[N _] | (p' & Hp' & _)]; [exact (N Ha) | congruence].
Qed.

Lemma db_B_deleted_steps : steps (snd (deletePool 0 db_B_staked)) db_B_deleted.
Proof. apply steps_refl. Qed.

Lemma deleted_pool_never_returns_witness :
  pools db_B_deleted !! 0%nat = None
  /\ getPool 0 db_B_deleted = mkResponse 404 (Message "Pool not found")
  /\ (forall amt body_poolId uid uuid now date_now,
        ~ admitted
            (stake_route 0 amt body_poolId uid uuid now date_now
               db_B_deleted))
  /\ (forall amt uid uuid now,
        ~ admitted (depositToPool 0 amt uid uuid now db_B_deleted)).
Proof.
  apply (deleted_pool_never_returns db_B_staked db_B_deleted 0%nat
           (set_totalStaked pool_B (Fin 10)) db_B_staked_reachable).
  - vm_compute. reflexivity.
  - apply db_B_deleted_steps.
Defined.

(** X12. Deleting a pool strands its stakes: [deletePool] does not look
    at the ledger, and in every state that the backend reaches after a
    pool was deleted, no unstake request of the owner of a stake of that
    pool is admitted, and [calculateRewards] answers the owner [404 Pool
    not found] for it. *)
Theorem deleted_pool_strands_stakes (st st' : State) (pid : nat) (p : Pool)
    (tid uid : string) (s : Transaction) :
  reachable st -> pools st !! pid = Some p ->
  steps (snd (deletePool pid st)) st' ->
  List.find (stake_filter tid uid) (transactions st') = Some s ->
  poolId s = pid ->
  (forall uuid now_check now,
     ~ admitted (unstakeTokens tid uid uuid now_check now st'))
  /\ forall now,
       calculateRewards tid uid now st'
       = (mkResponse 404 (Message "Pool not found"), st').
Proof.
  intros Hr Hp Hs Hf Hpid.
  pose proof (deleted_pool_gone st st' pid p Hr Hp Hs) as Hgone.
  split.
  - intros uuid now_check now Ha.
    destruct (unstakeTokens_admitted _ _ _ _ _ _ Ha)
      as (s' & p' & Hs' & _ & _ & Hp' & _).
    congruence.
  - intros now. unfold calculateRewards. run_handler.
    rewrite Hf. simpl. rewrite Hpid, Hgone. reflexivity.
Qed.

Lemma deleted_pool_strands_stakes_witness :
  (forall uuid now_check now,
     ~ admitted (unstakeTokens "tx1" alice uuid now_check now
                   db_B_deleted))
  /\ forall now,
       calculateRewards "tx1" alice now db_B_deleted
       = (mkResponse 404 (Message "Pool not found"), db_B_deleted).
Proof.
  apply (deleted_pool_strands_stakes db_B_staked db_B_deleted 0%nat
           (set_totalStaked pool_B (Fin 10)) "tx1" alice stake_B
           db_B_staked_reachable).
  - vm_compute. reflexivity.
  - apply db_B_deleted_steps.
  - vm_compute. reflexivity.
  - reflexivity.
Defined.

(** ** The lock of a stake *)

Lemma Qtrunc_integer (q : Q) (z : Z) : q == inject_Z z -> Qtrunc q = z.
Proof.
  intros E. unfold Qtrunc. destruct (Qle_bool 0 q).
  - rewrite (Qfloor_comp _ _ E). apply Qfloor_Z.
  - rewrite (Qceiling_comp _ _ E). apply Qceiling_Z.
Qed.

Lemma new_Date_integer (q : Q) (z : Z) :
  q == inject_Z z -> (Z.abs z <= 8640000000000000)%Z ->
  new_Date (Fin q) = Some z.
Proof.
  intros E Hz. unfold new_Date.
  assert (G : Qle_bool (Qabs q) (inject_Z 8640000000000000) = true).
  { apply Qle_bool_iff. rewrite (Qabs_wd _ _ E).
    change (Qabs (inject_Z z)) with (inject_Z (Z.abs z)).
    rewrite <- Zle_Qle. exact Hz. }
  rewrite G, (Qtrunc_integer q z E). reflexivity.
Qed.

Lemma stake_unlockTime_days (p : Pool) (d date_now : Z) :
  lockPeriod p = of_Z d -> d <> 0%Z ->
  (Z.abs (date_now + d * 86400000) <= 8640000000000000)%Z ->
  stake_unlockTime p date_now = Some (Some (date_now + d * 86400000)%Z).
Proof.
  intros Hl Hd Hz. unfold stake_unlockTime. rewrite Hl.
  assert (T : truthy (of_Z d) = true).
  { simpl. apply negb_true_iff. apply Qeq_bool_false.
    intros C. apply Hd. unfold Qeq in C. simpl in C. lia. }
  rewrite T. unfold of_Z. cbn [nmul nadd].
  rewrite (new_Date_integer _ (date_now + d * 86400000)); [reflexivity | |
    exact Hz].
  rewrite inject_Z_plus, inject_Z_mult. reflexivity.
Qed.

Lemma new_stake_unclosed (l : list Transaction) (tx : Transaction)
    (uid : string) :
  ledger_wf l -> fresh_id (transactionId tx) l -> is_stake tx = true ->
  List.find (unstake_filter (transactionId tx) uid) (l ++ [tx]) = None.
Proof.
  intros Hwf Hf Hs. apply find_all_false. intros x Hx.
  destruct (unstake_filter (transactionId tx) uid x) eqn:E; [| reflexivity].
  unfold unstake_filter in E.
  apply andb_true_iff in E. destruct E as [E _].
  apply andb_true_iff in E. destruct E as [Eo Eu].
  assert (R : references tx x = true)
    by (unfold references, is_unstake; rewrite Eo, Eu; reflexivity).
  apply in_app_or in Hx. destruct Hx as [Hx | [<- | []]].
  - rewrite (fresh_unreferenced l tx x Hwf Hf Hx) in R. discriminate R.
  - unfold is_stake in Hs. destruct (type tx); discriminate.
Qed.

(** X13. The lock runs from the clock of the stake request: an admitted
    stake in a pool whose [lockPeriod] is a whole number [d] of days,
    not zero, writes a stake event with
    [unlockTime = Date.now() + d * 86400000], whatever the type of the
    pool, and every unstake request of the owner for it that is checked
    before that time is answered [400 Tokens are still locked] with that
    unlock time, and changes nothing. *)
Theorem lock_runs_from_stake_request (st : State) (pid : nat) (p : Pool)
    (d : Z) (amt : num) (body_poolId : option string) (uid uuid : string)
    (now date_now : Z) :
  reachable st ->
  pools st !! pid = Some p -> lockPeriod p = of_Z d -> d <> 0%Z ->
  (Z.abs (date_now + d * 86400000) <= 8640000000000000)%Z ->
  admitted (stake_route pid amt body_poolId uid uuid now date_now st) ->
  let st' := snd (stake_route pid amt body_poolId uid uuid now date_now st) in
  let unlock := (date_now + d * 86400000)%Z in
  transactions st'
  = (transactions st
     ++ [mkTransaction uuid None stake amt now uid pid (Some unlock)])%list
  /\ forall uuid' now_check now',
       (now_check < unlock)%Z ->
       unstakeTokens uuid uid uuid' now_check now' st'
       = (mkResponse 400 (StillLocked "Tokens are still locked" unlock),
          st').
Proof.
  intros Hr Hp Hl Hd Hz Ha st' unlock.
  assert (Hr' : reachable st')
    by (eapply reachable_step; [exact Hr | apply step_stake]).
  pose proof (wf_ledger _ (reachable_db_wf _ Hr)) as Hwf.
  pose proof (wf_ledger _ (reachable_db_wf _ Hr')) as Hwf'.
  destruct (stake_route_cases pid amt body_poolId uid uuid now date_now st)
    as [[N _] | ((q & Eq & _) & E & _)]; [contradiction |].
  cbv zeta in E.
  assert (Hfin : is_finite amt = true) by (rewrite Eq; reflexivity).
  destruct (stakeTokens_cases pid amt uid uuid now date_now st Hfin)
    as [[N _] | (p0 & u & Hp0 & _ & _ & _ & Hu & Hf & E')];
    [rewrite <- E in N; contradiction |].
  cbv zeta in E'. rewrite Hp in Hp0. injection Hp0 as <-.
  rewrite (stake_unlockTime_days p d date_now Hl Hd Hz) in Hu.
  injection Hu as <-.
  set (tx := mkTransaction uuid None stake amt now uid pid (Some unlock)).
  assert (El : transactions st' = (transactions st ++ [tx])%list)
    by (unfold st'; rewrite E, E'; reflexivity).
  split; [exact El |].
  intros uuid' now_check now' Hlt.
  assert (Hs : List.find (stake_filter uuid uid) (transactions st')
               = Some tx).
  { apply (find_own_stake _ tx Hwf'); [| reflexivity].
    rewrite El. apply in_or_app. right. left. reflexivity. }
  assert (Hn : List.find (unstake_filter uuid uid) (transactions st')
               = None).
  { rewrite El. apply (new_stake_unclosed _ tx uid Hwf Hf). reflexivity. }
  unfold unstakeTokens. run_handler. rewrite Hs, Hn. simpl.
  apply Z.ltb_lt in Hlt. fold unlock. rewrite Hlt. reflexivity.
Qed.

Lemma lock_runs_from_stake_request_witness :
  let st' := snd (stake_route 0 (Fin 5) (Some "0") alice "tx1" 1000 1000
                    db_L) in
  let unlock := (1000 + 30 * 86400000)%Z in
  transactions st'
  = (transactions db_L
     ++ [mkTransaction "tx1" None stake (Fin 5) 1000 alice 0
           (Some unlock)])%list
  /\ forall uuid' now_check now',
       (now_check < unlock)%Z ->
       unstakeTokens "tx1" alice uuid' now_check now' st'
       = (mkResponse 400 (StillLocked "Tokens are still locked" unlock),
          st').
Proof.
  apply (lock_runs_from_stake_request db_L 0%nat pool_L 30%Z (Fin 5)
           (Some "0") alice "tx1" 1000%Z 1000%Z db_L_reachable).
  - vm_compute. reflexivity.
  - reflexivity.
  - lia.
  - vm_compute. intros C. discriminate C.
  - vm_compute. reflexivity.
Defined.

(** ** Creating and reading pools *)

Lemma createPool_created cfg now st :
  status (fst (createPool cfg now st)) = 201%Z ->
  exists pool,
    createPool cfg now st
    = (mkResponse 201 (WithPool "Pool created successfully" pool),
       mkState (<[next_oid st := pool]> (pools st)) (S (next_oid st))
               (transactions st) (users st))
    /\ cfg_name cfg = Some (name pool)
    /\ cfg_type cfg = Some (pool_type pool)
    /\ liquidity pool = Fin 0
    /\ totalStaked pool = Some (Fin 0)
    /\ createdAt pool = now.
Proof.
  unfold createPool. run_handler.
  destruct (negb (str_truthy (cfg_name cfg))
            || negb (str_truthy (cfg_type cfg))
            || negb (opt_truthy (cfg_apy cfg))) eqn:G;
    simpl; [intros C; discriminate C | intros _].
  apply orb_false_iff in G. destruct G as [G _].
  apply orb_false_iff in G. destruct G as [Gn Gt].
  eexists. split; [reflexivity |]. simpl.
  destruct (cfg_name cfg); [| discriminate Gn].
  destruct (cfg_type cfg); [| discriminate Gt].
  repeat split.
Qed.

(** X14. A created pool can be read back, and creating a pool touches no
    other pool: in a state that the backend reaches, when [createPool]
    answers 201 the new document takes an id that no pool has,
    [getPool] answers for that id with the document of the response,
    whose liquidity and [totalStaked] are zero, and for every other id
    as it did before. *)
Theorem createPool_then_getPool (st : State) (cfg : PoolConfig) (now : Z) :
  reachable st ->
  let r := createPool cfg now st in
  status (fst r) = 201%Z ->
  exists pool,
    json (fst r) = WithPool "Pool created successfully" pool
    /\ pools st !! next_oid st = None
    /\ getPool (next_oid st) (snd r)
       = mkResponse 200 (WithPool "Pool retrieved successfully" pool)
    /\ liquidity pool = Fin 0 /\ totalStaked pool = Some (Fin 0)
    /\ forall pid, pid <> next_oid st ->
         getPool pid (snd r) = getPool pid st.
Proof.
  intros Hr r Hs.
  destruct (createPool_created cfg now st Hs)
    as (pool & E & _ & _ & Hl & Ht & _).
  exists pool. unfold r. rewrite E. cbn [fst snd json].
  split; [reflexivity |]. split; [| split; [| split; [| split]]].
  - destruct (pools st !! next_oid st) as [p |] eqn:Hp; [| reflexivity].
    pose proof (wf_pool_ids _ (reachable_db_wf _ Hr) _ p Hp). lia.
  - unfold getPool. cbn [pools]. rewrite lookup_insert_eq. reflexivity.
  - exact Hl.
  - exact Ht.
  - intros pid Hne. unfold getPool. cbn [pools].
    rewrite lookup_insert_ne by congruence. reflexivity.
Qed.

Lemma createPool_then_getPool_witness :
  let r := createPool cfg_L 50 db_B in
  exists pool,
    json (fst r) = WithPool "Pool created successfully" pool
    /\ pools db_B !! next_oid db_B = None
    /\ getPool (next_oid db_B) (snd r)
       = mkResponse 200 (WithPool "Pool retrieved successfully" pool)
    /\ liquidity pool = Fin 0 /\ totalStaked pool = Some (Fin 0)
    /\ forall pid, pid <> next_oid db_B ->
         getPool pid (snd r) = getPool pid db_B.
Proof.
  apply (createPool_then_getPool db_B cfg_L 50%Z db_B_reachable).
  reflexivity.
Defined.

Lemma map_fmap {A B} (f : A -> B) (l : list A) : map f l = f <$> l.
Proof. induction l as [| x l IH]; simpl; [| rewrite IH]; reflexivity. Qed.

(** X15. [getPools] lists every pool once, newest first: a document is in
    the list of the response exactly when the pool collection holds it
    under its id, no id is listed twice, and the list is in order of
    decreasing [createdAt]. *)
Theorem getPools_lists_every_pool (st : State) :
  exists found,
    getPools st
    = mkListResponse 200 (PoolList "Pools retrieved successfully" found)
    /\ (forall pid p, In (pid, p) found <-> pools st !! pid = Some p)
    /\ List.NoDup (map fst found)
    /\ sorted_desc (fun d : nat * Pool => createdAt (snd d)) found.
Proof.
  eexists. split; [reflexivity |]. split; [| split].
  - intros pid p. rewrite sort_desc_In, <- list_elem_of_In.
    apply elem_of_map_to_list.
  - eapply Permutation_NoDup.
    + apply Permutation_map. symmetry. apply sort_desc_perm.
    + rewrite map_fmap. apply NoDup_ListNoDup.
      exact (NoDup_fst_map_to_list (pools st)).
  - apply sort_desc_sorted.
Qed.

(** X16. [getPoolTransactions] answers [404 Pool not found] exactly when
    no pool has the id, and otherwise lists the events of the ledger for
    that pool, each as often as the ledger has it, in order of
    decreasing timestamp. *)
Theorem getPoolTransactions_lists_pool_events (pid : nat) (st : State) :
  match getPoolTransactions pid st with
  | inl r =>
      pools st !! pid = None
      /\ r = mkResponse 404 (Message "Pool not found")
  | inr r =>
      is_Some (pools st !! pid)
      /\ exists found,
           r = mkListResponse 200
                 (TransactionList "Transactions retrieved successfully"
                    found)
           /\ Permutation found
                (List.filter (fun t => Nat.eqb (poolId t) pid)
                             (transactions st))
           /\ (forall t, In t found
                         <-> In t (transactions st) /\ poolId t = pid)
           /\ sorted_desc timestamp found
  end.
Proof.
  unfold getPoolTransactions.
  destruct (pools st !! pid) as [p |] eqn:Hp; [| split; reflexivity].
  split; [eexists; reflexivity |].
  eexists. split; [reflexivity |]. split; [| split].
  - apply sort_desc_perm.
  - intros t. unfold pool_transactions.
    rewrite sort_desc_In, List.filter_In, Nat.eqb_eq. reflexivity.
  - apply sort_desc_sorted.
Qed.

(** X17. The route of [createPool] asks for a liquidity and does not use
    it: a request is answered 201 only if its [liquidity] field is
    numeric and its type is [basic], [lending] or [lock], and the pool
    that is created has liquidity zero whatever that field holds. *)
Theorem createPool_route_ignores_liquidity (cfg : PoolConfig)
    (body_liquidity : option num) (now : Z) (st : State) :
  let r := createPool_route cfg body_liquidity now st in
  status (fst r) = 201%Z ->
  (exists x, body_liquidity = Some x /\ isNumeric x = true)
  /\ exists pool,
       r = createPool cfg now st
       /\ json (fst r) = WithPool "Pool created successfully" pool
       /\ pools (snd r) !! next_oid st = Some pool
       /\ In (pool_type pool) ["basic"; "lending"; "lock"]
       /\ name pool <> ""
       /\ liquidity pool = Fin 0.
Proof.
  intros r. unfold r, createPool_route, checkValidationResults,
    validatePoolCreation.
  destruct (str_truthy (cfg_name cfg)) eqn:Hn;
    [| simpl; intros C; discriminate C].
  destruct (existsb (String.eqb (default "" (cfg_type cfg)))
              ["basic"; "lending"; "lock"]) eqn:Ht;
    [| simpl; intros C; discriminate C].
  destruct body_liquidity as [x |]; [| simpl; intros C; discriminate C].
  destruct (isNumeric x) eqn:Hx; [| simpl; intros C; discriminate C].
  cbn [app]. intros Hs. split; [eauto |].
  destruct (createPool_created cfg now st Hs)
    as (pool & E & En & Et & Hl & _).
  exists pool. rewrite E. cbn [fst snd json pools].
  split; [reflexivity |]. split; [reflexivity |].
  split; [apply lookup_insert_eq |]. split; [| split; [| exact Hl]].
  - rewrite Et in Ht. simpl in Ht.
    rewrite !orb_true_iff, !String.eqb_eq in Ht.
    destruct Ht as [-> | [-> | [-> | C]]]; [| | | discriminate C];
      simpl; tauto.
  - rewrite En in Hn. simpl in Hn. intros C. rewrite C in Hn.
    discriminate Hn.
Qed.

Lemma createPool_route_ignores_liquidity_witness :
  let r := createPool_route cfg_L (Some (Fin 1000)) 50 db_B in
  (exists x, Some (Fin 1000) = Some x /\ isNumeric x = true)
  /\ exists pool,
       r = createPool cfg_L 50 db_B
       /\ json (fst r) = WithPool "Pool created successfully" pool
       /\ pools (snd r) !! next_oid db_B = Some pool
       /\ In (pool_type pool) ["basic"; "lending"; "lock"]
       /\ name pool <> ""
       /\ liquidity pool = Fin 0.
Proof.
  apply (createPool_route_ignores_liquidity cfg_L (Some (Fin 1000)) 50%Z
           db_B).
  reflexivity.
Defined.

(** ** The stakes of a user *)

Lemma user_events_In (uid : string) (ty : tx_type) (l : list Transaction)
    (t : Transaction) :
  In t (user_events uid ty l)
  <-> In t l /\ userId t = uid /\ type t = ty.
Proof.
  unfold user_events. rewrite List.filter_In, andb_true_iff, String.eqb_eq.
  assert (tx_type_eqb (type t) ty = true <-> type t = ty)
    by (destruct (type t), ty; simpl; split; congruence).
  tauto.
Qed.

(** X18. [getUserStakes] lists the stake events of the user, each as
    often as the ledger has it, in order of decreasing timestamp: the
    events under [stakes] are a rearrangement of the events of the
    ledger with that [userId] and the type [stake]. *)
Theorem getUserStakes_lists_user_stakes (uid : string) (st : State) :
  exists views,
    getUserStakes uid st
    = mkListResponse 200
        (StakeList "User staking transactions retrieved successfully" views)
    /\ Permutation (map view_stake views)
                   (user_events uid stake (transactions st))
    /\ sorted_desc timestamp (map view_stake views).
Proof.
  eexists. split; [reflexivity |].
  rewrite map_map. cbn [enrich view_stake]. rewrite map_id.
  split; [apply sort_desc_perm | apply sort_desc_sorted].
Qed.

Lemma unstakeMap_fold_Some (us : list Transaction)
    (m : gmap string Transaction) (i : string) (u : Transaction) :
  fold_left unstakeMap_add us m !! i = Some u ->
  (In u us /\ originalTransactionId u = Some i /\ i <> "")
  \/ m !! i = Some u.
Proof.
  revert m. induction us as [| a us IH]; simpl; intros m H; [auto |].
  apply IH in H. destruct H as [(Hu & Ho & Hi) | H]; [left; auto |].
  unfold unstakeMap_add in H.
  destruct (originalTransactionId a) as [j |] eqn:Ej; [| auto].
  destruct (String.eqb j "") eqn:E; [auto |].
  apply lookup_insert_Some in H. destruct H as [[<- <-] | [_ H]]; [| auto].
  left. apply String.eqb_neq in E. auto.
Qed.

Lemma unstakeMap_fold_is_Some (us : list Transaction)
    (m : gmap string Transaction) (i : string) :
  is_Some (m !! i)
  \/ (exists u, In u us /\ originalTransactionId u = Some i /\ i <> "") ->
  is_Some (fold_left unstakeMap_add us m !! i).
Proof.
  revert m. induction us as [| a us IH]; simpl; intros m H.
  - destruct H as [H | (u & [] & _)]. exact H.
  - apply IH. destruct H as [H | (u & [<- | Hu] & Ho & Hi)].
    + left. unfold unstakeMap_add.
      destruct (originalTransactionId a) as [j |]; [| exact H].
      destruct (String.eqb j ""); [exact H |].
      apply lookup_insert_is_Some'. right. exact H.
    + left. unfold unstakeMap_add. rewrite Ho.
      apply String.eqb_neq in Hi. rewrite Hi.
      rewrite lookup_insert_eq. eexists. reflexivity.
    + right. eauto.
Qed.

Lemma closing_unique (l : list Transaction) (s u u' : Transaction) :
  List.NoDup (closed_ids l) -> In u l -> In u' l ->
  references s u = true -> references s u' = true -> u = u'.
Proof.
  intros Hnd Hu Hu' R R'.
  pose proof (closings_at_most_one s l Hnd) as Hlen.
  assert (Hc : In u (closings s l)) by (apply List.filter_In; auto).
  assert (Hc' : In u' (closings s l)) by (apply List.filter_In; auto).
  destruct (closings s l) as [| x [| y k]]; simpl in *.
  - contradiction.
  - destruct Hc as [<- | []], Hc' as [<- | []]. reflexivity.
  - lia.
Qed.

(** X19. [getUserStakes] marks the closed positions: in a state that the
    backend reaches, an entry of the list whose transaction id is not
    empty is a stake event of the user in the ledger; it has
    [isUnstaked] true exactly when an unstake event references it, and
    its [unstakeTime] is the timestamp of that event, or [null]. *)
Theorem getUserStakes_marks_closed_stakes (st : State) (uid : string)
    (v : StakeView) :
  reachable st ->
  In v (listed_stakes (getUserStakes uid st)) ->
  transactionId (view_stake v) <> "" ->
  let s := view_stake v in
  In s (transactions st) /\ is_stake s = true /\ userId s = uid
  /\ isUnstaked v = negb (is_open (transactions st) s)
  /\ unstakeTime v
     = timestamp <$> List.find (references s) (transactions st).
Proof.
  intros Hr Hv Hid s. pose proof (wf_ledger _ (reachable_db_wf _ Hr)) as Hwf.
  unfold listed_stakes, getUserStakes in Hv. cbn [list_json] in Hv.
  apply in_map_iff in Hv. destruct Hv as (s0 & <- & Hs0).
  apply sort_desc_In, user_events_In in Hs0.
  destruct Hs0 as (Hin & Hu & Hty).
  cbn [enrich view_stake] in *. subst s.
  assert (Hst : is_stake s0 = true) by (unfold is_stake; rewrite Hty; reflexivity).
  split; [exact Hin |]. split; [exact Hst |]. split; [exact Hu |].
  unfold enrich. cbn [isUnstaked unstakeTime].
  set (l := transactions st) in *.
  destruct (unstakeMap_of (user_events uid unstake l) !! transactionId s0)
    as [u |] eqn:Em.
  - apply unstakeMap_fold_Some in Em.
    destruct Em as [(Hue & Ho & _) | Em];
      [| rewrite lookup_empty in Em; discriminate Em].
    apply user_events_In in Hue. destruct Hue as (Hul & _ & Hut).
    assert (R : references s0 u = true).
    { unfold references, is_unstake. rewrite Hut, Ho. simpl.
      apply String.eqb_refl. }
    assert (Hf : exists u', List.find (references s0) l = Some u')
      by (apply (find_is_some _ _ u); assumption).
    destruct Hf as [u' Hf]. rewrite Hf.
    destruct (List.find_some _ _ Hf) as [Hu'l R'].
    rewrite (closing_unique l s0 u u' (wf_once _ Hwf) Hul Hu'l R R').
    split; [| reflexivity].
    rewrite bool_decide_eq_true_2 by (eexists; reflexivity).
    symmetry. apply negb_true_iff. unfold is_open.
    apply negb_false_iff. apply existsb_exists. eauto.
  - assert (Hopen : forall x, In x l -> references s0 x = false).
    { intros x Hx. destruct (references s0 x) eqn:R; [| reflexivity].
      exfalso. apply references_spec in R. destruct R as [Hun Ho].
      destruct (wf_refs _ Hwf x Hx Hun) as (s' & Hs' & _ & Ho' & Hux & _).
      assert (s' = s0).
      { apply (NoDup_map_eq transactionId l); auto;
          [apply (wf_ids _ Hwf) | congruence]. }
      subst s'.
      assert (Hsome : is_Some (unstakeMap_of (user_events uid unstake l)
                                 !! transactionId s0)).
      { apply unstakeMap_fold_is_Some. right. exists x.
        split; [| split; assumption].
        apply user_events_In. split; [exact Hx |].
        split; [congruence |].
        unfold is_unstake in Hun. destruct (type x); try discriminate.
        reflexivity. }
      rewrite Em in Hsome. destruct Hsome as [? C]. discriminate C. }
    rewrite (find_all_false _ _ Hopen).
    split; [| reflexivity].
    rewrite bool_decide_eq_false_2 by (intros [? C]; discriminate C).
    symmetry. apply negb_false_iff. apply is_open_spec. exact Hopen.
Qed.

Lemma getUserStakes_marks_closed_stakes_witness :
  let v := mkStakeView stake_B true (Some (1000 + 365 * day)%Z) in
  let s := view_stake v in
  In s (transactions db_B_unstaked) /\ is_stake s = true
  /\ userId s = alice
  /\ isUnstaked v = negb (is_open (transactions db_B_unstaked) s)
  /\ unstakeTime v
     = timestamp <$> List.find (references s) (transactions db_B_unstaked).
Proof.
  apply (getUserStakes_marks_closed_stakes db_B_unstaked alice
           (mkStakeView stake_B true (Some (1000 + 365 * day)%Z))
           db_B_unstaked_reachable).
  - vm_compute. left. reflexivity.
  - intros C. discriminate C.
Defined.

(** ** Notifications *)

Lemma of_user_set_read (uid : string) (n : Notification) :
  of_user uid (set_read n) = of_user uid n.
Proof. reflexivity. Qed.

Lemma filter_mark_nth (uid : string) (i : nat) (l : list Notification) :
  List.filter (of_user uid) (mark_nth uid i l)
  = alter set_read i (List.filter (of_user uid) l).
Proof.
  revert i. induction l as [| n l IH]; intros i; simpl; [reflexivity |].
  destruct (of_user uid n) eqn:E.
  - destruct i as [| i]; simpl.
    + rewrite of_user_set_read, E. reflexivity.
    + rewrite E, IH. reflexivity.
  - simpl. rewrite E. apply IH.
Qed.

Lemma filter_mark_nth_others (uid : string) (i : nat)
    (l : list Notification) :
  List.filter (fun n => negb (of_user uid n)) (mark_nth uid i l)
  = List.filter (fun n => negb (of_user uid n)) l.
Proof.
  revert i. induction l as [| n l IH]; intros i; simpl; [reflexivity |].
  destruct (of_user uid n) eqn:E.
  - destruct i as [| i]; simpl.
    + rewrite of_user_set_read, E. reflexivity.
    + rewrite E. simpl. apply IH.
  - simpl. rewrite E. simpl. rewrite IH. reflexivity.
Qed.

Lemma length_mark_nth (uid : string) (i : nat) (l : list Notification) :
  length (mark_nth uid i l) = length l.
Proof.
  revert i. induction l as [| n l IH]; intros i; simpl; [reflexivity |].
  destruct (of_user uid n); [destruct i |]; simpl; auto.
Qed.

Lemma mark_nth_idem (uid : string) (i : nat) (l : list Notification) :
  mark_nth uid i (mark_nth uid i l) = mark_nth uid i l.
Proof.
  revert i. induction l as [| n l IH]; intros i; simpl; [reflexivity |].
  destruct (of_user uid n) eqn:E.
  - destruct i as [| i]; simpl.
    + rewrite of_user_set_read, E. reflexivity.
    + rewrite E, IH. reflexivity.
  - simpl. rewrite E, IH. reflexivity.
Qed.

(** X20. [markNotificationAsRead] marks the notification at the given
    index of the notifications of the user, counted in the order in which
    they were sent: it returns true exactly when the index is within
    that list; the notifications of the user are then as before, with
    the one at the index read, the notifications of the other users and
    the number of notifications are as before, and a second call with
    the same index changes nothing more.  When it returns false, the
    store is as before. *)
Theorem markNotificationAsRead_marks_ith (uid : string) (i : Z)
    (store : list Notification) :
  let r := markNotificationAsRead uid i store in
  let mine := List.filter (of_user uid) store in
  fst r = bool_decide (0 <= i < Z.of_nat (length mine))%Z
  /\ List.filter (of_user uid) (snd r)
     = (if fst r then alter set_read (Z.to_nat i) mine else mine)
  /\ List.filter (fun n => negb (of_user uid n)) (snd r)
     = List.filter (fun n => negb (of_user uid n)) store
  /\ length (snd r) = length store
  /\ (if fst r then True else snd r = store)
  /\ markNotificationAsRead uid i (snd r) = r.
Proof.
  intros r mine. unfold r, markNotificationAsRead. fold mine.
  destruct ((i <? 0)%Z || (Z.of_nat (length mine) <=? i)%Z) eqn:G;
    cbn [fst snd].
  - split; [| repeat split].
    + symmetry. apply bool_decide_eq_false_2.
      apply orb_true_iff in G. rewrite Z.ltb_lt, Z.leb_le in G. lia.
    + fold mine. rewrite G. reflexivity.
  - split; [| split; [| split; [| split; [| split]]]].
    + symmetry. apply bool_decide_eq_true_2.
      apply orb_false_iff in G. rewrite Z.ltb_ge, Z.leb_gt in G. lia.
    + apply filter_mark_nth.
    + apply filter_mark_nth_others.
    + apply length_mark_nth.
    + exact I.
    + rewrite filter_mark_nth. fold mine. rewrite length_alter, G.
      rewrite mark_nth_idem. reflexivity.
Qed.

Lemma StronglySorted_firstn {A} (R : A -> A -> Prop) (k : nat)
    (l : list A) :
  StronglySorted R l -> StronglySorted R (firstn k l).
Proof.
  intros H. revert k. induction H as [| x l Hs IH Hx]; intros k.
  - rewrite firstn_nil. constructor.
  - destruct k as [| k]; simpl; constructor; [apply IH |].
    rewrite List.Forall_forall in *. intros y Hy. apply Hx.
    rewrite <- (firstn_skipn k l). apply in_or_app. left. exact Hy.
Qed.

Lemma In_firstn {A} (k : nat) (l : list A) (x : A) :
  In x (firstn k l) -> In x l.
Proof.
  intros H. rewrite <- (firstn_skipn k l). apply in_or_app. left. exact H.
Qed.

Lemma slice0_firstn {A} (n : Z) (l : list A) :
  exists k, slice0 n l = firstn k l
            /\ length (slice0 n l)
               = Z.to_nat (if (n <? 0)%Z
                           then Z.max (Z.of_nat (length l) + n) 0
                           else Z.min n (Z.of_nat (length l))).
Proof.
  unfold slice0. destruct (n <? 0)%Z eqn:E.
  - eexists. split; [reflexivity |]. rewrite length_firstn.
    apply Z.ltb_lt in E. lia.
  - eexists. split; [reflexivity |]. rewrite length_firstn.
    apply Z.ltb_ge in E. lia.
Qed.

(** X21. [getUserNotifications] returns notifications of the user from
    the store, unread ones only when [unreadOnly] is set, in order of
    decreasing timestamp; with [c] notifications selected, it returns
    [min(limit, c)] of them for a [limit] that is not negative, and
    [max(c + limit, 0)] for a negative one. *)
Theorem getUserNotifications_selects (uid : string) (limit : Z)
    (unreadOnly : bool) (store : list Notification) :
  let result := getUserNotifications uid limit unreadOnly store in
  let selected :=
    List.filter (fun n => of_user uid n
                          && (negb unreadOnly || negb (isRead n))) store in
  (forall n, In n result -> In n selected)
  /\ sorted_desc n_timestamp result
  /\ length result
     = Z.to_nat (if (limit <? 0)%Z
                 then Z.max (Z.of_nat (length selected) + limit) 0
                 else Z.min limit (Z.of_nat (length selected)))
  /\ ((Z.of_nat (length selected) <= limit)%Z ->
      Permutation result selected).
Proof.
  intros result selected.
  set (chosen :=
         if unreadOnly
         then List.filter (fun n => negb (isRead n))
                          (List.filter (of_user uid) store)
         else List.filter (of_user uid) store).
  assert (Ec : chosen = selected).
  { unfold chosen, selected. destruct unreadOnly; simpl.
    - induction store as [| n l IH]; simpl; [reflexivity |].
      destruct (of_user uid n); simpl; [| exact IH].
      destruct (isRead n); simpl; rewrite IH; reflexivity.
    - apply List.filter_ext. intros n. rewrite andb_true_r. reflexivity. }
  assert (Er : result = slice0 limit (sort_desc n_timestamp chosen))
    by reflexivity.
  destruct (slice0_firstn limit (sort_desc n_timestamp chosen))
    as (k & Ek & Hlen).
  assert (Hl : length (sort_desc n_timestamp chosen) = length selected)
    by (rewrite <- Ec; apply Permutation_length, sort_desc_perm).
  rewrite Er. split; [| split; [| split]].
  - intros n Hn. rewrite Ek in Hn. apply In_firstn in Hn.
    apply sort_desc_In in Hn. rewrite <- Ec. exact Hn.
  - rewrite Ek. apply StronglySorted_firstn. apply sort_desc_sorted.
  - rewrite Hlen, Hl. reflexivity.
  - intros Hge. unfold slice0.
    assert (E : (limit <? 0)%Z = false) by (apply Z.ltb_ge; lia).
    rewrite E, firstn_all2 by lia.
    rewrite <- Ec. apply sort_desc_perm.
Qed.

Lemma sort_desc_snoc_newest {A} (key : A -> Z) (l : list A) (x : A) :
  (forall y, In y l -> (key y < key x)%Z) ->
  sort_desc key (l ++ [x]) = x :: sort_desc key l.
Proof.
  induction l as [| a l IH]; intros H; [reflexivity |].
  change (sort_desc key ((a :: l) ++ [x]))
    with (insert_desc key a (sort_desc key (l ++ [x]))).
  rewrite IH by (intros y Hy; apply H; right; exact Hy).
  simpl.
  assert (E : (key x <=? key a)%Z = false).
  { apply Z.leb_gt. apply H. left. reflexivity. }
  rewrite E. reflexivity.
Qed.

(** X22. A notification that is newer than the others of the user is the
    first that [getUserNotifications] returns after [sendNotification]
    stored it, for every positive limit; it is stored unread. *)
Theorem sent_notification_listed_first (uid : string)
    (ty : NotificationType) (title message : string) (now limit : Z)
    (unreadOnly : bool) (store : list Notification) :
  (forall n, In n store -> of_user uid n = true ->
             (n_timestamp n < now)%Z) ->
  (0 < limit)%Z ->
  let r := sendNotification uid ty title message now store in
  fst r = true
  /\ exists rest,
       getUserNotifications uid limit unreadOnly (snd r)
       = mkNotification uid ty title message now false :: rest.
Proof.
  intros Hnew Hlim r. split; [reflexivity |].
  set (x := mkNotification uid ty title message now false).
  unfold r, sendNotification, getUserNotifications. cbn [snd]. fold x.
  rewrite List.filter_app. simpl.
  assert (Ex : of_user uid x = true) by apply String.eqb_refl.
  rewrite Ex.
  assert (S0 : forall k, (forall y, In y k -> (n_timestamp y < now)%Z) ->
                 exists rest,
                   slice0 limit (sort_desc n_timestamp (k ++ [x]))
                   = x :: rest).
  { intros k Hk. rewrite sort_desc_snoc_newest by exact Hk.
    unfold slice0.
    assert (E : (limit <? 0)%Z = false) by (apply Z.ltb_ge; lia).
    rewrite E.
    destruct (Z.to_nat limit) as [| m] eqn:Em; [lia |].
    simpl. eexists. reflexivity. }
  destruct unreadOnly.
  - rewrite List.filter_app. simpl. apply S0.
    intros y Hy. apply List.filter_In in Hy. destruct Hy as [Hy _].
    apply List.filter_In in Hy. destruct Hy as [Hy Hu]. auto.
  - apply S0. intros y Hy.
    apply List.filter_In in Hy. destruct Hy as [Hy Hu]. auto.
Qed.

Lemma sent_notification_listed_first_witness :
  let r := sendNotification alice REWARD "t" "m" 40 notes in
  fst r = true
  /\ exists rest,
       getUserNotifications alice 50 false (snd r)
       = mkNotification alice REWARD "t" "m" 40 false :: rest.
Proof.
  apply (sent_notification_listed_first alice REWARD "t" "m" 40%Z 50%Z
           false notes); [| lia].
  intros n Hn _. simpl in Hn.
  destruct Hn as [<- | [<- | [<- | []]]]; simpl; lia.
Defined.

Lemma insert_desc_oldest {A} (key : A -> Z) (a : A) (k : list A) :
  (forall y, In y k -> (key a < key y)%Z) ->
  insert_desc key a k = (k ++ [a])%list.
Proof.
  induction k as [| y k IH]; intros H; [reflexivity |]. simpl.
  assert (E : (key y <=? key a)%Z = false).
  { apply Z.leb_gt. apply H. left. reflexivity. }
  rewrite E, IH by (intros z Hz; apply H; right; exact Hz). reflexivity.
Qed.

Lemma sort_desc_rev {A} (key : A -> Z) (l : list A) :
  StronglySorted (fun a b => (key a < key b)%Z) l ->
  sort_desc key l = rev l.
Proof.
  induction 1 as [| a l Hs IH Ha]; [reflexivity |].
  change (sort_desc key (a :: l)) with (insert_desc key a (sort_desc key l)).
  rewrite IH. simpl. apply insert_desc_oldest.
  intros y Hy. apply in_rev in Hy.
  rewrite List.Forall_forall in Ha. auto.
Qed.

Lemma StronglySorted_map {A B} (R : B -> B -> Prop) (f : A -> B)
    (l : list A) :
  StronglySorted (fun a b => R (f a) (f b)) l
  <-> StronglySorted R (map f l).
Proof.
  induction l as [| x l IH]; simpl.
  - split; constructor.
  - split; intros H; inversion H as [| ? ? Hs Hf]; subst; constructor;
      try (apply IH; exact Hs).
    + rewrite List.Forall_forall in *. intros z Hz.
      apply in_map_iff in Hz. destruct Hz as (y & <- & Hy). auto.
    + rewrite List.Forall_forall in *. intros y Hy.
      apply (Hf (f y)). apply in_map. exact Hy.
Qed.

Lemma map_alter_same {A B} (f : A -> B) (g : A -> A) (i : nat)
    (l : list A) :
  (forall x, f (g x) = f x) -> map f (alter g i l) = map f l.
Proof.
  intros H. revert i. induction l as [| x l IH]; intros i; [reflexivity |].
  destruct i as [| i].
  - simpl. rewrite H. reflexivity.
  - change (map f (x :: alter g i l) = map f (x :: l)).
    simpl. rewrite IH. reflexivity.
Qed.

Lemma nth_error_alter {A} (g : A -> A) (i : nat) (l : list A) :
  nth_error (alter g i l) i = option_map g (nth_error l i).
Proof.
  revert i. induction l as [| x l IH]; intros i.
  - destruct i; reflexivity.
  - destruct i as [| i]; simpl; [reflexivity | apply IH].
Qed.

(** X23. The index of [markNotificationAsRead] counts from the oldest
    notification, the list of [getUserNotifications] from the newest:
    when the notifications of a user were sent at strictly increasing
    times, the full list that [getUserNotifications] returns is their
    reverse, so the notification that index [i] marks as read is shown
    at position [c - 1 - i] of the [c] notifications of the user. *)
Theorem mark_index_counts_from_oldest (uid : string) (i : nat)
    (n : Notification) (store : list Notification) :
  let mine := List.filter (of_user uid) store in
  let c := length mine in
  StronglySorted (fun a b => (n_timestamp a < n_timestamp b)%Z) mine ->
  nth_error mine i = Some n ->
  let r := markNotificationAsRead uid (Z.of_nat i) store in
  let shown := getUserNotifications uid (Z.of_nat c) false (snd r) in
  fst r = true
  /\ getUserNotifications uid (Z.of_nat c) false store = rev mine
  /\ shown = rev (alter set_read i mine)
  /\ nth_error shown (c - 1 - i) = Some (set_read n).
Proof.
  intros mine c Hs Hn r shown.
  assert (Hi : (i < c)%nat) by (apply nth_error_Some; congruence).
  assert (Er : r = (true, mark_nth uid i store)).
  { unfold r, markNotificationAsRead. fold mine. fold c.
    assert (G : (Z.of_nat i <? 0)%Z || (Z.of_nat c <=? Z.of_nat i)%Z = false).
    { apply orb_false_iff. rewrite Z.ltb_ge, Z.leb_gt. lia. }
    rewrite G, Nat2Z.id. reflexivity. }
  assert (Full : forall k,
             length k = c ->
             StronglySorted (fun a b => (n_timestamp a < n_timestamp b)%Z) k ->
             slice0 (Z.of_nat c) (sort_desc n_timestamp k) = rev k).
  { intros k Hk Hsk. rewrite (sort_desc_rev _ _ Hsk). unfold slice0.
    assert (E : (Z.of_nat c <? 0)%Z = false) by (apply Z.ltb_ge; lia).
    rewrite E, Nat2Z.id. apply firstn_all2. rewrite length_rev. lia. }
  assert (Es : shown = rev (alter set_read i mine)).
  { unfold shown, getUserNotifications. rewrite Er. cbn [snd].
    rewrite filter_mark_nth. fold mine. apply Full.
    - apply length_alter.
    - apply (StronglySorted_map Z.lt n_timestamp).
      rewrite map_alter_same by reflexivity.
      apply (StronglySorted_map Z.lt n_timestamp). exact Hs. }
  split; [rewrite Er; reflexivity |]. split; [| split; [exact Es |]].
  - unfold getUserNotifications. fold mine. apply Full; [reflexivity |].
    exact Hs.
  - rewrite Es, nth_error_rev, length_alter. fold c.
    assert (E : (c - 1 - i <? c)%nat = true) by (apply Nat.ltb_lt; lia).
    rewrite E.
    replace (c - S (c - 1 - i))%nat with i by lia.
    rewrite nth_error_alter, Hn. reflexivity.
Qed.

Lemma mark_index_counts_from_oldest_witness :
  let mine := List.filter (of_user alice) notes in
  let c := length mine in
  let r := markNotificationAsRead alice (Z.of_nat 0) notes in
  let shown := getUserNotifications alice (Z.of_nat c) false (snd r) in
  fst r = true
  /\ getUserNotifications alice (Z.of_nat c) false notes = rev mine
  /\ shown = rev (alter set_read 0%nat mine)
  /\ nth_error shown (c - 1 - 0) = Some (set_read (note alice 10)).
Proof.
  apply (mark_index_counts_from_oldest alice 0%nat (note alice 10)
           notes); [| reflexivity].
  simpl. repeat constructor.
Defined.

(** ** The price oracle *)

Lemma priceCache_get_Entry cache symbol e :
  priceCache_get cache symbol = Entry e <-> cache !! symbol = Some e.
Proof.
  unfold priceCache_get. destruct (cache !! symbol) as [e' |].
  - split; intros E; injection E as <-; reflexivity.
  - split; [| discriminate].
    destruct (existsb (String.eqb symbol) object_prototype_names);
      [discriminate |].
    destruct (cache !! "__proto__") as [e' |]; [| discriminate].
    destruct (String.eqb symbol "price");
      [destruct (truthy (price e')); discriminate |].
    destruct (String.eqb symbol "lastUpdated"); discriminate.
Qed.

Lemma refreshPrice_ok symbol fetched now cache :
  cache_ok cache ->
  cache_ok (snd (refreshPrice symbol fetched now cache))
  /\ (forall p, fst (refreshPrice symbol fetched now cache)
                = Returned (Some p) -> truthy p = true)
  /\ (fst (refreshPrice symbol fetched now cache) = Returned None
      <-> priceCache_get cache symbol = Inherited
          /\ forall q, fetched = Some (Some q) -> truthy q = false).
Proof.
  intros H. unfold refreshPrice.
  assert (Fb : forall out,
             out = match priceCache_get cache symbol with
                   | Entry e => Returned (Some (price e))
                   | Inherited => Returned None
                   | Missing => Thrown
                   end ->
             (forall p, out = Returned (Some p) -> truthy p = true)
             /\ (out = Returned None
                 <-> priceCache_get cache symbol = Inherited)).
  { intros out ->.
    destruct (priceCache_get cache symbol) as [e | |] eqn:Ec.
    - apply priceCache_get_Entry in Ec. split.
      + intros p E. injection E as <-. apply (H symbol e Ec).
      + split; discriminate.
    - split; [discriminate | tauto].
    - split; [discriminate | split; discriminate]. }
  destruct fetched as [[p |] |]; cbn [fst snd].
  - destruct (truthy p) eqn:T; cbn [fst snd].
    + split; [| split].
      * intros s e E. apply lookup_insert_Some in E.
        destruct E as [[_ <-] | [_ E]]; [exact T | apply (H s e E)].
      * intros q E. injection E as <-. exact T.
      * split; [discriminate |]. intros [_ C].
        rewrite (C p eq_refl) in T. discriminate T.
    + destruct (Fb _ eq_refl) as [F1 F2].
      split; [exact H |]. split; [exact F1 |]. rewrite F2.
      split; [intros E; split; [exact E |] | tauto].
      intros q Eq. injection Eq as <-. exact T.
  - destruct (Fb _ eq_refl) as [F1 F2].
    split; [exact H |]. split; [exact F1 |]. rewrite F2.
    split; [intros E; split; [exact E |] | tauto]. discriminate.
  - destruct (Fb _ eq_refl) as [F1 F2].
    split; [exact H |]. split; [exact F1 |]. rewrite F2.
    split; [intros E; split; [exact E |] | tauto]. discriminate.
Qed.

Lemma getPrice_ok symbol now_check fetched now cache :
  cache_ok cache ->
  cache_ok (snd (getPrice symbol now_check fetched now cache))
  /\ (forall p, fst (getPrice symbol now_check fetched now cache)
                = Returned (Some p) -> truthy p = true)
  /\ fst (getPrice symbol now_check fetched now cache) <> Returned None.
Proof.
  intros H. unfold getPrice.
  destruct (refreshPrice_ok symbol fetched now cache H) as (R1 & R2 & R3).
  destruct (priceCache_get cache symbol) as [e | |] eqn:Ec.
  - assert (Hn : fst (refreshPrice symbol fetched now cache)
                 <> Returned None)
      by (intros C; apply R3 in C; destruct C as [C _]; discriminate C).
    destruct (now_check - lastUpdated e <? 5 * 60 * 1000)%Z;
      [| split; [exact R1 | split; [exact R2 | exact Hn]]].
    cbn [fst snd]. split; [exact H |]. split; [| discriminate].
    intros p E. injection E as <-.
    apply priceCache_get_Entry in Ec. apply (H symbol e Ec).
  - cbn [fst snd]. split; [exact H |]. split; discriminate.
  - split; [exact R1 |]. split; [exact R2 |].
    intros C. apply R3 in C. destruct C as [C _]. discriminate C.
Qed.

(** X26. The price oracle never serves a price of zero or [NaN], but
    [refreshTokenPrice] can serve no price at all.  If every price of the
    cache is truthy, as in the empty cache, then after [getTokenPrice] or
    [refreshTokenPrice] every price of the cache still is, and the
    price of a 200 answer that has one is truthy, whatever the price API
    answered.  [getTokenPrice] never answers 200 without a price.
    [refreshTokenPrice] answers 200 without a price exactly when no
    truthy price was fetched and the symbol names a truthy value that the
    cache object inherits, such as [constructor]. *)
Theorem price_served_is_truthy (cache : PriceCache) (symbol : string)
    (now_check : Z) (fetched : option (option num)) (now : Z) :
  cache_ok cache ->
  let g := getTokenPrice symbol now_check fetched now cache in
  let r := refreshTokenPrice symbol fetched now cache in
  cache_ok (snd g) /\ cache_ok (snd r)
  /\ (forall m s p,
        price_json (fst g) = PriceData m s p
        \/ price_json (fst r) = PriceData m s p ->
        truthy p = true)
  /\ (forall m s, price_json (fst g) <> PriceUndefined m s)
  /\ ((exists m s, price_json (fst r) = PriceUndefined m s)
      <-> symbol <> ""
          /\ priceCache_get cache symbol = Inherited
          /\ forall q, fetched = Some (Some q) -> truthy q = false).
Proof.
  intros H g r.
  destruct (getPrice_ok symbol now_check fetched now cache H)
    as (G1 & G2 & G3).
  destruct (refreshPrice_ok symbol fetched now cache H) as (R1 & R2 & R3).
  unfold g, r, getTokenPrice, refreshTokenPrice.
  destruct (String.eqb symbol "") eqn:Es.
  - cbn [fst snd price_json]. split; [exact H |]. split; [exact H |].
    split; [intros m s p [E | E]; discriminate E |].
    split; [discriminate |].
    apply String.eqb_eq in Es.
    split; [intros (m & s & E); discriminate E | tauto].
  - apply String.eqb_neq in Es.
    destruct (getPrice symbol now_check fetched now cache) as [[pg |] cg];
      destruct (refreshPrice symbol fetched now cache) as [[pr |] cr];
      cbn [fst snd price_json] in *;
      (split; [exact G1 |]; split; [exact R1 |]).
    + split; [| split].
      * intros m s p [E | E].
        -- destruct pg as [x |]; [| discriminate E].
           injection E as _ _ <-. auto.
        -- destruct pr as [x |]; [| discriminate E].
           injection E as _ _ <-. auto.
      * intros m s E. destruct pg as [x |]; [discriminate E | tauto].
      * rewrite <- R3. split.
        -- intros (m & s & E). split; [exact Es |].
           destruct pr; [discriminate E | reflexivity].
        -- intros [_ E]. injection E as ->. do 2 eexists. reflexivity.
    + split; [| split].
      * intros m s p [E | E]; [| discriminate E].
        destruct pg as [x |]; [| discriminate E].
        injection E as _ _ <-. auto.
      * intros m s E. destruct pg as [x |]; [discriminate E | tauto].
      * rewrite <- R3.
        split; [intros (m & s & E); discriminate E |].
        intros [_ E]. discriminate E.
    + split; [| split].
      * intros m s p [E | E]; [discriminate E |].
        destruct pr as [x |]; [| discriminate E].
        injection E as _ _ <-. auto.
      * discriminate.
      * rewrite <- R3. split.
        -- intros (m & s & E). split; [exact Es |].
           destruct pr; [discriminate E | reflexivity].
        -- intros [_ E]. injection E as ->. do 2 eexists. reflexivity.
    + split; [| split].
      * intros m s p [E | E]; discriminate E.
      * discriminate.
      * rewrite <- R3.
        split; [intros (m & s & E); discriminate E |].
        intros [_ E]. discriminate E.
Qed.

Lemma price_served_is_truthy_witness :
  let cache : PriceCache := {[ "SOL" := mkPriceEntry (Fin 150) 0 ]} in
  let g := getTokenPrice "SOL" 1000 None 1000 cache in
  let r := refreshTokenPrice "constructor" None 1000 cache in
  (fst g
   = mkPriceResponse 200
       (PriceData "Price fetched successfully" "SOL" (Fin 150))
   /\ fst r
      = mkPriceResponse 200
          (PriceUndefined "Price refreshed successfully" "constructor"))
  /\ (forall m s p,
        price_json
          (fst (getTokenPrice "SOL" 1000 None 1000 cache))
        = PriceData m s p
        \/ price_json (fst (refreshTokenPrice "SOL" None 1000 cache))
           = PriceData m s p ->
        truthy p = true)
  /\ ((exists m s,
         price_json (fst (refreshTokenPrice "constructor" None 1000 cache))
         = PriceUndefined m s)
      <-> "constructor" <> ""
          /\ priceCache_get cache "constructor" = Inherited
          /\ forall q, @None (option num) = Some (Some q) ->
                       truthy q = false).
Proof.
  cbv zeta.
  assert (H : cache_ok {[ "SOL" := mkPriceEntry (Fin 150) 0 ]}).
  { intros s e E. apply lookup_singleton_Some in E.
    destruct E as [_ <-]. reflexivity. }
  split; [split; vm_compute; reflexivity |]. split.
  - exact (proj1 (proj2 (proj2
             (price_served_is_truthy _ "SOL" 1000%Z None 1000%Z H)))).
  - exact (proj2 (proj2 (proj2 (proj2
             (price_served_is_truthy _ "constructor" 1000%Z None 1000%Z
                H))))).
Defined.

(** X27. A refreshed price is served from the cache: after
    [refreshTokenPrice] has stored a truthy price [p] at time [now],
    [getTokenPrice] answers with [p] and leaves the cache as it is,
    without regard to the price API, when it is checked less than five
    minutes after [now]; and at any later time, when the price API fails
    or has no truthy price, both [getTokenPrice] and [refreshTokenPrice]
    still answer 200 with the old [p], the latter with the message
    [Price refreshed successfully]. *)
Theorem refreshed_price_is_served (cache : PriceCache) (symbol : string)
    (p : num) (now : Z) :
  symbol <> "" -> truthy p = true ->
  let stored := refreshTokenPrice symbol (Some (Some p)) now cache in
  let cache' := snd stored in
  fst stored
  = mkPriceResponse 200 (PriceData "Price refreshed successfully" symbol p)
  /\ cache' !! symbol = Some (mkPriceEntry p now)
  /\ (forall now_check fetched now',
        (now_check - now < 5 * 60 * 1000)%Z ->
        getTokenPrice symbol now_check fetched now' cache'
        = (mkPriceResponse 200
             (PriceData "Price fetched successfully" symbol p), cache'))
  /\ (forall now_check fetched now',
        (forall q, fetched = Some (Some q) -> truthy q = false) ->
        getTokenPrice symbol now_check fetched now' cache'
        = (mkPriceResponse 200
             (PriceData "Price fetched successfully" symbol p), cache')
        /\ refreshTokenPrice symbol fetched now' cache'
           = (mkPriceResponse 200
                (PriceData "Price refreshed successfully" symbol p),
              cache')).
Proof.
  intros Hs Hp stored cache'.
  apply String.eqb_neq in Hs.
  assert (Es : stored
               = (mkPriceResponse 200
                    (PriceData "Price refreshed successfully" symbol p),
                  <[symbol := mkPriceEntry p now]> cache)).
  { unfold stored, refreshTokenPrice, refreshPrice. rewrite Hs, Hp.
    reflexivity. }
  assert (Ec : cache' !! symbol = Some (mkPriceEntry p now))
    by (unfold cache'; rewrite Es; apply lookup_insert_eq).
  assert (Eg : priceCache_get cache' symbol = Entry (mkPriceEntry p now))
    by (apply priceCache_get_Entry; exact Ec).
  assert (Fb : forall fetched now',
             (forall q, fetched = Some (Some q) -> truthy q = false) ->
             refreshPrice symbol fetched now' cache'
             = (Returned (Some p), cache')).
  { intros fetched now' Hf. unfold refreshPrice. rewrite Eg.
    destruct fetched as [[q |] |]; try reflexivity.
    rewrite (Hf q eq_refl). reflexivity. }
  split; [rewrite Es; reflexivity |]. split; [exact Ec |]. split.
  - intros now_check fetched now' Hlt.
    unfold getTokenPrice, getPrice. rewrite Hs, Eg. cbn [lastUpdated price].
    apply Z.ltb_lt in Hlt. rewrite Hlt. reflexivity.
  - intros now_check fetched now' Hf. split.
    + unfold getTokenPrice, getPrice. rewrite Hs, Eg.
      cbn [lastUpdated price].
      destruct (now_check - now <? 5 * 60 * 1000)%Z; [reflexivity |].
      rewrite (Fb fetched now' Hf). reflexivity.
    + unfold refreshTokenPrice. rewrite Hs, (Fb fetched now' Hf).
      reflexivity.
Qed.

Lemma refreshed_price_is_served_witness :
  let stored := refreshTokenPrice "SOL" (Some (Some (Fin 150))) 0 ∅ in
  let cache' := snd stored in
  fst stored
  = mkPriceResponse 200
      (PriceData "Price refreshed successfully" "SOL" (Fin 150))
  /\ cache' !! "SOL" = Some (mkPriceEntry (Fin 150) 0)
  /\ (forall now_check fetched now',
        (now_check - 0 < 5 * 60 * 1000)%Z ->
        getTokenPrice "SOL" now_check fetched now' cache'
        = (mkPriceResponse 200
             (PriceData "Price fetched successfully" "SOL" (Fin 150)),
           cache'))
  /\ (forall now_check fetched now',
        (forall q, fetched = Some (Some q) -> truthy q = false) ->
        getTokenPrice "SOL" now_check fetched now' cache'
        = (mkPriceResponse 200
             (PriceData "Price fetched successfully" "SOL" (Fin 150)),
           cache')
        /\ refreshTokenPrice "SOL" fetched now' cache'
           = (mkPriceResponse 200
                (PriceData "Price refreshed successfully" "SOL" (Fin 150)),
              cache')).
Proof.
  apply (refreshed_price_is_served ∅ "SOL" (Fin 150) 0%Z).
  - intros C. discriminate C.
  - reflexivity.
Defined.
